(** * Social-Media-Analyzer: the chat client and the dashboard aggregations

    A shallow embedding of [src/App.js] (class [LangflowClient] and the
    [handleSubmit] handler of [App]) and of the [Dashboard] component
    ([loadData], [getStats], [getPostTypeStats], [getEngagementData],
    [getAverageEngagement]), followed by the properties of the
    specification stated over these definitions.

    Conventions of the embedding.
    - JavaScript values are the inductive type [JsVal]; a number is
      [NaN], an infinity, or the rational a double holds, and the sum and
      the quotient are rounded to the nearest double, ties to even (the
      two zeros are one).
    - Strings are sequences of code units below 256.
    - What the JavaScript runtime, the browser and the CSV library provide
      ([JSON.parse], [JSON.stringify], string-to-number conversion, the text
      of built-in functions, date formatting, the network, the CSV parser)
      is a parameter: a field of [Host], or an oracle passed to the
      function that calls it.
    - [async]/[await] is sequential composition; [throw], [try], [catch]
      and [finally] are the operations of a state-and-exception monad. *)

From Stdlib Require Import ZArith QArith Qround List String Ascii Bool Lia.
From Stdlib Require Import DecimalString Permutation.
From Stdlib Require SpecFloat.
Import ListNotations.

Set Warnings "-register-all".
Close Scope Q_scope.
Open Scope list_scope.
Open Scope string_scope.

(* ================================================================== *)
(** * JavaScript values and primitive operations *)
(* ================================================================== *)

Module Js.

(** ** Numbers *)

Inductive Number : Type :=
| NaN
| PosInf
| NegInf
| Fin (q : Q).

Definition num_of_Z (z : Z) : Number := Fin (inject_Z z).
Definition num_of_nat (n : nat) : Number := num_of_Z (Z.of_nat n).

Definition Qis_zero (q : Q) : bool := (Qnum q =? 0)%Z.
Definition Qis_neg (q : Q) : bool := (Qnum q <? 0)%Z.

Definition num_neg (a : Number) : Number :=
  match a with
  | NaN => NaN
  | PosInf => NegInf
  | NegInf => PosInf
  | Fin x => Fin (Qred (- x))
  end.

(** *** Rounding to a double

    A finite double is [m * 2^k] for integers [|m| <= 2^53] and
    [-1074 <= k <= 971]. *)

(** The binade of the positive rational [n / d]: the [e] with
    [2^e <= n / d < 2^(e + 1)]. The power [2^e] is written as the
    quotient of [2 ^ Z.max e 0] by [2 ^ Z.max (- e) 0], one of which is 1. *)
Definition binade (n d : Z) : Z :=
  let e := (Z.log2 n - Z.log2 d)%Z in
  if (d * 2 ^ Z.max e 0 <=? n * 2 ^ Z.max (- e) 0)%Z then e else (e - 1)%Z.

(** [2^e <= n / d] *)
Definition reaches (e n d : Z) : Prop :=
  (d * 2 ^ Z.max e 0 <= n * 2 ^ Z.max (- e) 0)%Z.

(** The integer nearest to [a / b] for [b > 0], the even one of the two
    when [a / b] lies half-way. *)
Definition round_half_even (a b : Z) : Z :=
  let q := (a / b)%Z in
  match (2 * (a mod b) ?= b)%Z with
  | Lt => q
  | Gt => (q + 1)%Z
  | Eq => if Z.even q then q else (q + 1)%Z
  end.

(** The double nearest to [n / d], for positive [n] and [d]: [m * 2^k]
    for the integer [m] nearest to [n / d / 2^k], where the spacing [2^k]
    leaves the significand 53 bits from the binade [-1022] on and is
    [2^-1074] below (subnormals); what rounds to [2^1024] is infinite. *)
Definition round64_pos (n d : Z) : Number :=
  let e := binade n d in
  let k := (Z.max e (-1022) - 52)%Z in
  let up := (2 ^ Z.max k 0)%Z in
  let down := (2 ^ Z.max (- k) 0)%Z in
  let m := round_half_even (n * down) (d * up) in
  if ((1024 <=? e) || ((e =? 1023) && (m =? 2 ^ 53)))%Z then PosInf
  else Fin (Qred (Qmake (m * up) (Z.to_pos down))).

(** The double nearest to a rational, ties to even. *)
Definition round64 (q : Q) : Number :=
  match Qnum q with
  | Z0 => Fin 0
  | Zpos n => round64_pos (Zpos n) (Zpos (Qden q))
  | Zneg n => num_neg (round64_pos (Zpos n) (Zpos (Qden q)))
  end.

(** The number a binary float of the library's specification of IEEE 754
    stands for, and the double nearest to an integer there; they serve to
    compare [round64] with that specification on examples. *)
Definition of_spec_float (f : SpecFloat.spec_float) : Number :=
  match f with
  | SpecFloat.S754_zero _ => Fin 0
  | SpecFloat.S754_infinity false => PosInf
  | SpecFloat.S754_infinity true => NegInf
  | SpecFloat.S754_nan => NaN
  | SpecFloat.S754_finite s m e =>
      let v := Qmake (Zpos m * 2 ^ Z.max e 0) (Z.to_pos (2 ^ Z.max (- e) 0)) in
      Fin (Qred (if s then Qopp v else v))
  end.

Definition binary64 (z : Z) : SpecFloat.spec_float :=
  SpecFloat.binary_normalize 53 1024 z 0 false.

(** [a + b] on numbers. *)
Definition num_add (a b : Number) : Number :=
  match a, b with
  | NaN, _ | _, NaN => NaN
  | PosInf, NegInf | NegInf, PosInf => NaN
  | PosInf, _ | _, PosInf => PosInf
  | NegInf, _ | _, NegInf => NegInf
  | Fin x, Fin y => round64 (x + y)
  end.

(** [a / b] on numbers; a zero divisor is the positive zero (the only
    divisors of the program are array lengths). *)
Definition num_div (a b : Number) : Number :=
  match a, b with
  | NaN, _ | _, NaN => NaN
  | Fin x, Fin y =>
      if Qis_zero y then
        if Qis_zero x then NaN else if Qis_neg x then NegInf else PosInf
      else round64 (x / y)
  | Fin _, (PosInf | NegInf) => Fin 0
  | (PosInf | NegInf), (PosInf | NegInf) => NaN
  | PosInf, Fin y => if Qis_neg y then NegInf else PosInf
  | NegInf, Fin y => if Qis_neg y then PosInf else NegInf
  end.

(** [Math.round]: the nearest integer, ties towards plus infinity; it is
    exact, the result of a double being a double. *)
Definition Math_round (a : Number) : Number :=
  match a with
  | Fin x => num_of_Z (Qfloor (x + (1 # 2)))
  | other => other
  end.

Definition num_truthy (a : Number) : bool :=
  match a with
  | NaN => false
  | Fin x => negb (Qis_zero x)
  | _ => true
  end.

(** ** Values *)

Inductive JsVal : Type :=
| VUndef
| VNull
| VBool (b : bool)
| VNum (n : Number)
| VStr (s : string)
| VArr (elems : list JsVal)
| VObj (props : list (string * JsVal))
| VBuiltin (name : string).
(** [VObj] lists the own enumerable properties in creation order.
    [VBuiltin name] is an object of the runtime: ["Object.prototype"]
    or one of its methods, named by its property name. *)

Definition vnat (n : nat) : JsVal := VNum (num_of_nat n).
Definition vint (z : Z) : JsVal := VNum (num_of_Z z).

(** ToBoolean. *)
Definition truthy (v : JsVal) : bool :=
  match v with
  | VUndef | VNull => false
  | VBool b => b
  | VNum n => num_truthy n
  | VStr s => negb (s =? "")
  | VArr _ | VObj _ | VBuiltin _ => true
  end.

(** [a || b] *)
Definition js_or (a b : JsVal) : JsVal := if truthy a then a else b.

Definition typeof (v : JsVal) : string :=
  match v with
  | VUndef => "undefined"
  | VNull => "object"
  | VBool _ => "boolean"
  | VNum _ => "number"
  | VStr _ => "string"
  | VArr _ | VObj _ => "object"
  | VBuiltin name => if name =? "Object.prototype" then "object" else "function"
  end.

(** ** Strings *)

(** WhiteSpace and LineTerminator code units below 256: TAB, LF, VT, FF,
    CR, SP and NBSP. *)
Definition is_white_space (c : ascii) : bool :=
  let n := nat_of_ascii c in
  (((9 <=? n) && (n <=? 13)) || (n =? 32) || (n =? 160))%nat.

Fixpoint trimStart (s : string) : string :=
  match s with
  | EmptyString => EmptyString
  | String c r => if is_white_space c then trimStart r else s
  end.

Fixpoint trimEnd (s : string) : string :=
  match s with
  | EmptyString => EmptyString
  | String c r =>
      match trimEnd r with
      | EmptyString => if is_white_space c then EmptyString else String c EmptyString
      | r' => String c r'
      end
  end.

(** [String.prototype.trim] *)
Definition trim (s : string) : string := trimEnd (trimStart s).

(** [s.replace(/_/g, ' ')] *)
Fixpoint replace_underscores (s : string) : string :=
  match s with
  | EmptyString => EmptyString
  | String c r =>
      String (if Ascii.eqb c "_" then " "%char else c) (replace_underscores r)
  end.

(** Decimal text of an integer, as [Number.prototype.toString] prints the
    integers of magnitude below 10^21. *)
Definition decimal (z : Z) : string := NilZero.string_of_int (Z.to_int z).
Definition decimal_N (n : N) : string := NilZero.string_of_uint (N.to_uint n).

(** An array index is the canonical decimal text of an integer in
    [0, 2^32 - 2]. *)
Definition array_index (k : string) : option N :=
  match NilEmpty.uint_of_string k with
  | Some d =>
      let n := N.of_uint d in
      if (decimal_N n =? k) && (n <=? 4294967294)%N then Some n else None
  | None => None
  end.

(** ** The host: what the runtime provides *)

Record Host : Type := {
  (** [JSON.parse]; [None] when it throws a SyntaxError *)
  JSON_parse : string -> option JsVal;
  (** [JSON.stringify] *)
  JSON_stringify : JsVal -> string;
  (** StringToNumber, the conversion of a string operand of [/] *)
  String_toNumber : string -> Number;
  (** the text of a finite number that is not an integer below [10^21]
      in magnitude: a fraction, or a number printed with an exponent *)
  Fraction_toString : Q -> string;
  (** the text a built-in object converts to, given its name *)
  Builtin_toString : string -> string;
  (** the message of the TypeError thrown on reading property [k] of
      [undefined] or [null] *)
  Nullish_read_message : JsVal -> string -> string;
  (** [new Date(v).toLocaleDateString()] *)
  Date_toLocaleDateString : JsVal -> string;
  (** whether [new EventSource(v)] accepts the address [v]: the
      constructor throws a SyntaxError when it does not parse as a URL *)
  EventSource_accepts : JsVal -> bool
}.

Section Conversions.
Variable host : Host.

Definition Number_toString (n : Number) : string :=
  match n with
  | NaN => "NaN"
  | PosInf => "Infinity"
  | NegInf => "-Infinity"
  | Fin q =>
      let r := Qred q in
      if ((Zpos (Qden r) =? 1) && (Z.abs (Qnum r) <? 10 ^ 21))%Z then decimal (Qnum r)
      else Fraction_toString host r
  end.

(** ToString (through ToPrimitive for objects). *)
Fixpoint ToString (v : JsVal) : string :=
  match v with
  | VUndef => "undefined"
  | VNull => "null"
  | VBool true => "true"
  | VBool false => "false"
  | VNum n => Number_toString n
  | VStr s => s
  | VArr elems =>
      (fix join (l : list JsVal) : string :=
         match l with
         | [] => ""
         | x :: r =>
             let sx := match x with
                       | VUndef | VNull => ""
                       | _ => ToString x
                       end in
             match r with
             | [] => sx
             | _ => sx ++ "," ++ join r
             end
         end) elems
  | VObj _ => "[object Object]"
  | VBuiltin name => Builtin_toString host name
  end.

(** ToPrimitive: objects convert through their [toString]. *)
Definition ToPrimitive (v : JsVal) : JsVal :=
  match v with
  | VArr _ | VObj _ | VBuiltin _ => VStr (ToString v)
  | _ => v
  end.

(** ToNumber *)
Definition ToNumber (v : JsVal) : Number :=
  match ToPrimitive v with
  | VUndef => NaN
  | VNull => Fin 0
  | VBool true => Fin 1
  | VBool false => Fin 0
  | VNum n => n
  | VStr s => String_toNumber host s
  | _ => NaN
  end.

(** [a + b]: concatenation as soon as one operand is a string. *)
Definition js_add (a b : JsVal) : JsVal :=
  match ToPrimitive a, ToPrimitive b with
  | VStr s, pb => VStr (s ++ ToString pb)
  | pa, VStr s => VStr (ToString pa ++ s)
  | pa, pb => VNum (num_add (ToNumber pa) (ToNumber pb))
  end.

(** [a / b] *)
Definition js_div (a b : JsVal) : Number := num_div (ToNumber a) (ToNumber b).

End Conversions.

(** ** Objects as ordered property lists *)

Section Props.
Context {V : Type}.

Fixpoint own (k : string) (o : list (string * V)) : option V :=
  match o with
  | [] => None
  | (k', v) :: r => if k' =? k then Some v else own k r
  end.

(** Defining or overwriting an own property: an existing key keeps its
    place, a new key is added last. *)
Fixpoint put (k : string) (v : V) (o : list (string * V)) : list (string * V) :=
  match o with
  | [] => [(k, v)]
  | (k', v') :: r => if k' =? k then (k', v) :: r else (k', v') :: put k v r
  end.

(** Insertion into a list sorted by index. *)
Fixpoint insert_index (e : N * (string * V)) (l : list (N * (string * V)))
  : list (N * (string * V)) :=
  match l with
  | [] => [e]
  | e' :: r => if (fst e <=? fst e')%N then e :: l else e' :: insert_index e r
  end.

Definition sort_index (l : list (N * (string * V))) : list (N * (string * V)) :=
  fold_right insert_index [] l.

Fixpoint index_props (o : list (string * V)) : list (N * (string * V)) :=
  match o with
  | [] => []
  | (k, v) :: r =>
      match array_index k with
      | Some i => (i, (k, v)) :: index_props r
      | None => index_props r
      end
  end.

Definition named_props (o : list (string * V)) : list (string * V) :=
  filter (fun kv => match array_index (fst kv) with Some _ => false | None => true end) o.

(** [Object.entries]: the array indices in ascending order, then the other
    keys in creation order. *)
Definition Object_entries (o : list (string * V)) : list (string * V) :=
  (map snd (sort_index (index_props o)) ++ named_props o)%list.

(** [Object.keys] *)
Definition Object_keys (o : list (string * V)) : list string :=
  map fst (Object_entries o).

End Props.

(** The properties every object inherits from [Object.prototype]: eleven
    methods and the accessor [__proto__]. *)
Definition Object_prototype_methods : list string :=
  [ "constructor"; "__defineGetter__"; "__defineSetter__"; "hasOwnProperty";
    "__lookupGetter__"; "__lookupSetter__"; "isPrototypeOf";
    "propertyIsEnumerable"; "toString"; "valueOf"; "toLocaleString" ].

Definition inherited_key (k : string) : bool :=
  existsb (String.eqb k) Object_prototype_methods || (k =? "__proto__").

Definition Object_prototype_get (k : string) : JsVal :=
  if existsb (String.eqb k) Object_prototype_methods then VBuiltin k
  else if k =? "__proto__" then VBuiltin "Object.prototype"
  else VUndef.

(** [o[k]] on an object created by a literal or by [JSON.parse]: the own
    property, else the one inherited from [Object.prototype]. *)
Definition obj_get (o : list (string * JsVal)) (k : string) : JsVal :=
  match own k o with
  | Some v => v
  | None => Object_prototype_get k
  end.

Definition is_primitive (v : JsVal) : bool :=
  match v with
  | VArr _ | VObj _ | VBuiltin _ => false
  | _ => true
  end.

(** [o[k] = v]: the methods of [Object.prototype] are writable, so the
    assignment defines an own property; [__proto__] is an accessor whose
    setter ignores a primitive [v] (an object [v] would replace the
    prototype, which leaves the own properties as they are). *)
Definition obj_assign (o : list (string * JsVal)) (k : string) (v : JsVal)
  : list (string * JsVal) :=
  if k =? "__proto__" then o else put k v o.

Fixpoint string_chars (s : string) : list string :=
  match s with
  | EmptyString => []
  | String c r => String c EmptyString :: string_chars r
  end.

(** [v[k]] or [v.k] for a [v] that is neither [undefined] nor [null].
    Beyond ["length"] and the indices, the methods of [Array.prototype],
    [String.prototype], [Number.prototype] and [Boolean.prototype] are not
    modelled: the program reads the names [outputs], [message], [text],
    [artifacts], [stream_url] and [0] only, none of which they define. *)
Definition get_prop (v : JsVal) (k : string) : JsVal :=
  match v with
  | VObj props => obj_get props k
  | VArr elems =>
      match array_index k with
      | Some i => nth (N.to_nat i) elems VUndef
      | None => if k =? "length" then vnat (List.length elems) else VUndef
      end
  | VStr s =>
      match array_index k with
      | Some i =>
          match nth_error (string_chars s) (N.to_nat i) with
          | Some c => VStr c
          | None => VUndef
          end
      | None => if k =? "length" then vnat (String.length s) else VUndef
      end
  | _ => VUndef
  end.

End Js.

(* ================================================================== *)
(** * Control: state, exceptions, [try]/[catch]/[finally] *)
(* ================================================================== *)

Module Eff.

(** How a block ends: normally with a value, or by throwing an [Error]
    (identified by its [message], the only property the program reads). *)
Inductive Completion (A : Type) : Type :=
| Normal (a : A)
| Throw (message : string).
Arguments Normal {A} a.
Arguments Throw {A} message.

Definition M (S A : Type) : Type := S -> Completion A * S.

Definition ret {S A} (a : A) : M S A := fun s => (Normal a, s).

Definition throw {S A} (message : string) : M S A := fun s => (Throw message, s).

Definition bind {S A B} (c : M S A) (k : A -> M S B) : M S B :=
  fun s =>
    match c s with
    | (Normal a, s') => k a s'
    | (Throw e, s') => (Throw e, s')
    end.

Definition modify {S} (f : S -> S) : M S unit := fun s => (Normal tt, f s).

Definition gets {S A} (f : S -> A) : M S A := fun s => (Normal (f s), s).

(** [try { body } catch (error) { handler(error.message) }] *)
Definition try_catch {S A} (body : M S A) (handler : string -> M S A) : M S A :=
  fun s =>
    match body s with
    | (Normal a, s') => (Normal a, s')
    | (Throw e, s') => handler e s'
    end.

(** [try { body } finally { fin }] *)
Definition try_finally {S A} (body : M S A) (fin : M S unit) : M S A :=
  fun s =>
    match body s with
    | (c, s') =>
        match fin s' with
        | (Normal _, s'') => (c, s'')
        | (Throw e, s'') => (Throw e, s'')
        end
    end.

Notation "x <- c ;; k" := (bind c (fun x => k))
  (at level 61, c at next level, right associativity).
Notation "c ;;; k" := (bind c (fun _ => k))
  (at level 61, right associativity).

End Eff.

Import Js Eff.

(* ================================================================== *)
(** * src/App.js: class LangflowClient *)
(* ================================================================== *)

Module LangflowClient.

Record Request : Type := {
  url : string;
  method : string;
  headers : list (string * string);
  body : string;
  credentials : string
}.

(** The part of a fetch [Response] the program reads; [text] is the body. *)
Record Response : Type := {
  status : N;
  statusText : string;
  text : string
}.

(** [response.ok] *)
Definition ok (r : Response) : bool :=
  ((200 <=? status r) && (status r <=? 299))%N.

(** A fetch either rejects (the network fails before the body is read,
    with the message of the error) or resolves to a response, whatever
    its status. *)
Inductive FetchOutcome : Type :=
| Rejected (message : string)
| Responded (r : Response).

(** What the client does to the outside world. *)
Inductive Effect : Type :=
| HttpRequest (req : Request)
| OpenEventSource (streamUrl : JsVal).

(** The application state together with the log of effects. *)
Record World (A : Type) : Type := {
  app : A;
  log : list Effect
}.
Arguments app {A} w.
Arguments log {A} w.

Definition emit {A} (e : Effect) : M (World A) unit :=
  modify (fun w => {| app := app w; log := (log w ++ [e])%list |}).

Definition update {A} (f : A -> A) : M (World A) unit :=
  modify (fun w => {| app := f (app w); log := log w |}).

(** [process.env] *)
Record Env : Type := {
  PUBLIC_URL : option string;
  NODE_ENV : option string;
  REACT_APP_FLOW_ID : option string;
  REACT_APP_LANGFLOW_ID : option string;
  REACT_APP_ASTRA_TOKEN : option string
}.

(** An environment variable inside a template literal or as an operand of
    a string concatenation: an unset one prints as "undefined". *)
Definition tmpl (v : option string) : string :=
  match v with
  | Some s => s
  | None => "undefined"
  end.

Record Client : Type := {
  baseURL : string;
  applicationToken : option string
}.

(** The constructor ignores its first argument. *)
Definition new_LangflowClient (env : Env) (baseURL_arg : string)
  (token : option string) : Client :=
  {| baseURL := tmpl (PUBLIC_URL env) ++ "/api";
     applicationToken := token |}.

Section Methods.
Variable host : Host.
Variable fetch : Request -> FetchOutcome.
Context {A : Type}.

(** [v.k], throwing a TypeError when [v] is [undefined] or [null]. *)
Definition get (v : JsVal) (k : string) : M (World A) JsVal :=
  match v with
  | VUndef | VNull => throw (Nullish_read_message host v k)
  | _ => ret (get_prop v k)
  end.

(** [a && b], where [b] is evaluated only when [a] is truthy. *)
Definition js_and (a : JsVal) (b : M (World A) JsVal) : M (World A) JsVal :=
  if truthy a then b else ret a.

(** [await fetch(url, init)] *)
Definition do_fetch (req : Request) : M (World A) Response :=
  emit (HttpRequest req) ;;;
  match fetch req with
  | Rejected message => throw message
  | Responded r => ret r
  end.

Definition parse_json (text : string) : M (World A) JsVal :=
  match JSON_parse host text with
  | Some json => ret json
  | None => throw "SyntaxError"
  end.

(** [post(endpoint, body)], with the default [headers]. *)
Definition post (c : Client) (endpoint : string) (body : JsVal) : M (World A) JsVal :=
  let headers := [("Content-Type", "application/json")] in
  let headers := put "Authorization" ("Bearer " ++ tmpl (applicationToken c)) headers in
  let headers := put "Content-Type" "application/json" headers in
  let url := baseURL c ++ endpoint in
  try_catch
    (response <- do_fetch {| url := url;
                             method := "POST";
                             headers := headers;
                             body := JSON_stringify host body;
                             credentials := "same-origin" |} ;;
     let text := text response in
     json <- try_catch (parse_json text)
               (fun e => throw "Invalid JSON response from server") ;;
     if negb (ok response) then
       throw (decimal_N (status response) ++ " " ++ statusText response
              ++ " - " ++ JSON_stringify host json)
     else ret json)
    (fun error => throw error).

Definition initiateSession (c : Client) (flowId langflowId : option string)
  (inputValue : JsVal) (inputType outputType : string) (stream : bool)
  (tweaks : JsVal) : M (World A) JsVal :=
  let endpoint := "/lf/" ++ tmpl langflowId ++ "/api/v1/run/" ++ tmpl flowId
                  ++ "?stream=" ++ (if stream then "true" else "false") in
  post c endpoint
    (VObj [ ("input_value", inputValue);
            ("input_type", VStr inputType);
            ("output_type", VStr outputType);
            ("tweaks", tweaks) ]).

(** [handleStream]: [new EventSource(streamUrl)] opens the subscription,
    or throws when the address does not parse; installing the three
    listeners, whose behaviour is module [Stream], does not throw. *)
Definition handleStream (streamUrl : JsVal) : M (World A) unit :=
  if EventSource_accepts host streamUrl then emit (OpenEventSource streamUrl)
  else throw "SyntaxError".

Definition runFlow (c : Client) (flowIdOrName langflowId : option string)
  (inputValue : JsVal) (inputType outputType : string) (tweaks : JsVal)
  (stream : bool) (onError : JsVal -> M (World A) unit) : M (World A) JsVal :=
  try_catch
    (initResponse <- initiateSession c flowIdOrName langflowId inputValue
                       inputType outputType stream tweaks ;;
     cond <- (if stream then
                outputs <- js_and initResponse (get initResponse "outputs") ;;
                js_and outputs
                  (o0 <- get outputs "0" ;;
                   oo <- get o0 "outputs" ;;
                   oo0 <- get oo "0" ;;
                   artifacts <- get oo0 "artifacts" ;;
                   get artifacts "stream_url")
              else ret (VBool false)) ;;
     (if truthy cond then handleStream cond else ret tt) ;;;
     ret initResponse)
    (fun error => onError (VStr "Error initiating session") ;;; ret VUndef).

End Methods.

End LangflowClient.

(* ================================================================== *)
(** * src/App.js: component App, handler handleSubmit *)
(* ================================================================== *)

Module App.
Import LangflowClient.

Inductive MessageType : Type := user | bot.

Record Message : Type := {
  type : MessageType;
  text : JsVal
}.

(** The five [useState] cells. [error] holds whatever [setError] was
    given: a string, or [undefined]. *)
Record AppState : Type := {
  inputValue : string;
  messages : list Message;
  isLoading : bool;
  error : JsVal;
  activeTab : string
}.

Definition initial : AppState :=
  {| inputValue := ""; messages := []; isLoading := false;
     error := VStr ""; activeTab := "dashboard" |}.

Definition with_inputValue (v : string) (s : AppState) : AppState :=
  {| inputValue := v; messages := messages s; isLoading := isLoading s;
     error := error s; activeTab := activeTab s |}.
Definition with_messages (f : list Message -> list Message) (s : AppState) : AppState :=
  {| inputValue := inputValue s; messages := f (messages s); isLoading := isLoading s;
     error := error s; activeTab := activeTab s |}.
Definition with_isLoading (b : bool) (s : AppState) : AppState :=
  {| inputValue := inputValue s; messages := messages s; isLoading := b;
     error := error s; activeTab := activeTab s |}.
Definition with_error (e : JsVal) (s : AppState) : AppState :=
  {| inputValue := inputValue s; messages := messages s; isLoading := isLoading s;
     error := e; activeTab := activeTab s |}.

Definition setInputValue (v : string) : M (World AppState) unit := update (with_inputValue v).
Definition setMessages (f : list Message -> list Message) : M (World AppState) unit :=
  update (with_messages f).
Definition setIsLoading (b : bool) : M (World AppState) unit := update (with_isLoading b).
Definition setError (e : JsVal) : M (World AppState) unit := update (with_error e).

Definition tweaks : JsVal :=
  VObj [ ("ChatInput-2BM4d", VObj []);
         ("ChatOutput-5Ecy2", VObj []);
         ("AstraDBToolComponent-0slpL", VObj []);
         ("Agent-tXQtJ", VObj []);
         ("Prompt-wQDfs", VObj []);
         ("CalculatorTool-IaFHC", VObj []) ].

Section Handler.
Variable host : Host.
Variable env : Env.
Variable fetch : Request -> FetchOutcome.

Definition get : JsVal -> string -> M (World AppState) JsVal :=
  LangflowClient.get host.
Definition js_and : JsVal -> M (World AppState) JsVal -> M (World AppState) JsVal :=
  LangflowClient.js_and.

(** The navigation "through possible response structures" of
    [handleSubmit]: the value [botResponse] holds after it. *)
Definition navigate (componentOutput : JsVal) : M (World AppState) JsVal :=
  outputs <- get componentOutput "outputs" ;;
  c <- js_and outputs (get outputs "message") ;;
  if truthy c then
    let message := c in
    mm <- get message "message" ;;
    c1 <- js_and mm (get mm "text") ;;
    if truthy c1 then ret c1
    else
      mt <- get message "text" ;;
      if truthy mt then ret mt else ret (VStr "")
  else
    cm <- get componentOutput "message" ;;
    c2 <- js_and cm (get cm "text") ;;
    if truthy c2 then ret c2
    else
      ct <- get componentOutput "text" ;;
      if truthy ct then ret ct else ret (VStr "").

(** What [handleSubmit] does with the value [runFlow] resolved to. *)
Definition show_response (response : JsVal) : M (World AppState) unit :=
  r <- js_and response (get response "outputs") ;;
  c <- js_and r (get r "0") ;;
  if truthy c then
    let flowOutput := c in
    fo <- get flowOutput "outputs" ;;
    c' <- js_and fo (get fo "0") ;;
    if truthy c' then
      let componentOutput := c' in
      botResponse <- navigate componentOutput ;;
      if truthy botResponse then
        setMessages (fun prev => (prev ++ [{| type := bot; text := botResponse |}])%list)
      else
        setError (VStr "Could not extract bot response")
    else ret tt
  else
    setError (VStr "Invalid response from server").

Definition handleSubmit_body (inputValue : string) : M (World AppState) unit :=
  let flowIdOrName := REACT_APP_FLOW_ID env in
  let langflowId := REACT_APP_LANGFLOW_ID env in
  let applicationToken := REACT_APP_ASTRA_TOKEN env in
  let langflowClient := new_LangflowClient env "" applicationToken in
  try_finally
    (try_catch
       (setIsLoading true ;;;
        setError (VStr "") ;;;
        setMessages (fun prev => (prev ++ [{| type := user; text := VStr inputValue |}])%list) ;;;
        let userMessage := inputValue in
        setInputValue "" ;;;
        response <- runFlow host fetch langflowClient flowIdOrName langflowId
                      (VStr userMessage) "chat" "chat" tweaks false
                      (fun error => m <- get error "message" ;; setError m) ;;
        show_response response)
       (fun error => setError (VStr error)))
    (setIsLoading false).

(** [handleSubmit], run on the state the component holds. *)
Definition handleSubmit : M (World AppState) unit :=
  inputValue <- gets (fun w => inputValue (app w)) ;;
  if negb (truthy (VStr (trim inputValue))) then ret tt
  else handleSubmit_body inputValue.

End Handler.

End App.

(* ================================================================== *)
(** * The Dashboard component *)
(* ================================================================== *)

Module Dashboard.
Import LangflowClient.

(** A field of a parsed record, as the CSV parser types it with
    [dynamicTyping] (a boolean, a number, [null] for an empty field, else
    the string), or [undefined] when the record has no such column.
    Numeric fields are the integer counters of the data set, integers
    that a double holds; the parser never yields [NaN]. *)
Inductive Cell : Type :=
| CUndef
| CNull
| CBool (b : bool)
| CNum (z : Z)
| CStr (s : string).

Definition of_cell (c : Cell) : JsVal :=
  match c with
  | CUndef => VUndef
  | CNull => VNull
  | CBool b => VBool b
  | CNum z => vint z
  | CStr s => VStr s
  end.

(** [a === b] on fields; it is also the equality of [Set]. *)
Definition cell_eqb (a b : Cell) : bool :=
  match a, b with
  | CUndef, CUndef => true
  | CNull, CNull => true
  | CBool x, CBool y => Bool.eqb x y
  | CNum x, CNum y => (x =? y)%Z
  | CStr x, CStr y => (x =? y)
  | _, _ => false
  end.

(** A record: the object the parser builds from one CSV line. *)
Definition Row : Type := list (string * Cell).

(** [row.k], for the column names the component reads ([Post_Type],
    [Post_Id], [Date], [Views], [Likes], [Shares], [Comments]): none is
    the name of an inherited property. *)
Definition cell (row : Row) (k : string) : Cell :=
  match own k row with
  | Some c => c
  | None => CUndef
  end.

(** [new Set(values)], as the list of its elements in insertion order. *)
Definition Set_add (s : list Cell) (c : Cell) : list Cell :=
  if existsb (cell_eqb c) s then s else (s ++ [c])%list.

Definition new_Set (values : list Cell) : list Cell :=
  fold_left Set_add values [].

(** ** loadData *)

Record Column : Type := {
  field : string;
  headerName : string;
  width : nat;
  editable : bool
}.

Record DashState : Type := {
  rows : list Row;
  columns : list Column;
  loading : bool;
  error : option string
}.

Definition initial : DashState :=
  {| rows := []; columns := []; loading := true; error := None |}.

Definition setRows (r : list Row) : M DashState unit :=
  modify (fun s => {| rows := r; columns := columns s; loading := loading s; error := error s |}).
Definition setColumns (c : list Column) : M DashState unit :=
  modify (fun s => {| rows := rows s; columns := c; loading := loading s; error := error s |}).
Definition setLoading (b : bool) : M DashState unit :=
  modify (fun s => {| rows := rows s; columns := columns s; loading := b; error := error s |}).
Definition setError (e : string) : M DashState unit :=
  modify (fun s => {| rows := rows s; columns := columns s; loading := loading s; error := Some e |}).

(** An element of [results.data]: a record, or anything else. *)
Inductive Datum : Type :=
| DRow (r : Row)
| DPrim (c : Cell).

Record ParseResults : Type := {
  data : list Datum;
  errors : list string
}.

(** [Papa.parse] ends in its [complete] or in its [error] callback. *)
Inductive ParseOutcome : Type :=
| Complete (results : ParseResults)
| Failed (err : string).

(** The options [loadData] gives the parser. *)
Record ParseConfig : Type := {
  header : bool;
  dynamicTyping : bool;
  skipEmptyLines : bool
}.

Definition parse_options : ParseConfig :=
  {| header := true; dynamicTyping := true; skipEmptyLines := true |}.

Definition datum_val (d : Datum) : JsVal :=
  match d with
  | DRow r => VObj (map (fun kv => (fst kv, of_cell (snd kv))) r)
  | DPrim c => of_cell c
  end.

Definition as_row (d : Datum) : Row :=
  match d with
  | DRow r => r
  | DPrim _ => []
  end.

(** [row && typeof row === 'object' && Object.keys(row).length > 0] *)
Definition valid (d : Datum) : bool :=
  truthy (datum_val d)
  && (typeof (datum_val d) =? "object")
  && (0 <? List.length (Object_keys (as_row d)))%nat.

(** [{ id: row.Post_Id || index + 1, ...row }] *)
Definition dataRow (row : Row) (index : nat) : Row :=
  let id := if truthy (of_cell (cell row "Post_Id")) then cell row "Post_Id"
            else CNum (Z.of_nat index + 1) in
  fold_left (fun o kv => put (fst kv) (snd kv) o) (Object_entries row) [("id", id)].

Fixpoint mapi {X Y : Type} (f : X -> nat -> Y) (l : list X) (index : nat) : list Y :=
  match l with
  | [] => []
  | x :: r => f x index :: mapi f r (S index)
  end.

Section Load.
Variable env : Env.
Variable fetch : string -> FetchOutcome.
Variable Papa_parse : string -> ParseConfig -> ParseOutcome.

(** The [complete] callback. *)
Definition complete (results : ParseResults) : M DashState unit :=
  if (0 <? List.length (errors results))%nat then
    setError "Error parsing CSV data"
  else
    let validData := map as_row (filter valid (data results)) in
    match validData with
    | [] => setError "No valid data found in CSV"
    | first :: _ =>
        let cols := map (fun key => {| field := key;
                                       headerName := replace_underscores key;
                                       width := 150;
                                       editable := false |})
                        (Object_keys first) in
        let dataRows := mapi dataRow validData 0 in
        setColumns cols ;;;
        setRows dataRows ;;;
        setLoading false
    end.

Definition csvPath : string :=
  match NODE_ENV env with
  | Some "development" => "/data/dataset.csv"
  | _ => tmpl (PUBLIC_URL env) ++ "/data/dataset.csv"
  end.

Definition loadData : M DashState unit :=
  try_catch
    (response <- match fetch csvPath with
                 | Rejected message => throw message
                 | Responded r => ret r
                 end ;;
     if negb (ok response) then
       throw ("Failed to load CSV file: " ++ statusText response)
     else
       let csvText := text response in
       match Papa_parse csvText parse_options with
       | Complete results => complete results
       | Failed err => setError "Error parsing CSV file" ;;; setLoading false
       end)
    (fun error =>
       setError ("Error loading CSV file: " ++ error) ;;;
       setLoading false).

End Load.

(** ** The derived views *)

Module Stats.
Record t : Type := {
  totalPosts : nat;
  uniqueTypes : nat;
  totalViews : JsVal;
  totalLikes : JsVal
}.
End Stats.

Module PostTypeStat.
Record t : Type := {
  name : string;
  value : JsVal
}.
End PostTypeStat.

Module EngagementPoint.
Record t : Type := {
  date : string;
  likes : Cell;
  shares : Cell;
  comments : Cell;
  views : Cell
}.
End EngagementPoint.

Module AverageEngagement.
Record t : Type := {
  name : Cell;
  likes : Number;
  shares : Number
}.
End AverageEngagement.

Section Views.
Variable host : Host.
Variable rows : list Row.

Definition getStats : Stats.t :=
  let postTypes := new_Set (map (fun row => cell row "Post_Type") rows) in
  let totalViews :=
    fold_left (fun sum row => js_add host sum (js_or (of_cell (cell row "Views")) (vint 0)))
              rows (vint 0) in
  let totalLikes :=
    fold_left (fun sum row => js_add host sum (js_or (of_cell (cell row "Likes")) (vint 0)))
              rows (vint 0) in
  {| Stats.totalPosts := List.length rows;
     Stats.uniqueTypes := List.length postTypes;
     Stats.totalViews := totalViews;
     Stats.totalLikes := totalLikes |}.

(** The property key a field converts to in [postTypeCounts[row.Post_Type]]. *)
Definition ToPropertyKey (c : Cell) : string := ToString host (of_cell c).

(** One turn of the [forEach] of [getPostTypeStats]. *)
Definition count_row (postTypeCounts : list (string * JsVal)) (row : Row)
  : list (string * JsVal) :=
  let key := ToPropertyKey (cell row "Post_Type") in
  obj_assign postTypeCounts key
    (js_add host (js_or (obj_get postTypeCounts key) (vint 0)) (vint 1)).

Definition postTypeCounts : list (string * JsVal) := fold_left count_row rows [].

Definition getPostTypeStats : list PostTypeStat.t :=
  map (fun entry => {| PostTypeStat.name := fst entry;
                       PostTypeStat.value := snd entry |})
      (Object_entries postTypeCounts).

Definition getEngagementData : list EngagementPoint.t :=
  map (fun row => {| EngagementPoint.date :=
                       Date_toLocaleDateString host (of_cell (cell row "Date"));
                     EngagementPoint.likes := cell row "Likes";
                     EngagementPoint.shares := cell row "Shares";
                     EngagementPoint.comments := cell row "Comments";
                     EngagementPoint.views := cell row "Views" |})
      rows.

(** [rows.filter(row => row.Post_Type === type)] *)
Definition posts_of (type : Cell) : list Row :=
  filter (fun row => cell_eqb (cell row "Post_Type") type) rows.

Definition total (k : string) (posts : list Row) : JsVal :=
  fold_left (fun sum post => js_add host sum (of_cell (cell post k))) posts (vint 0).

(** The arrow function [getAverageEngagement] maps over the post types. *)
Definition average (type : Cell) : AverageEngagement.t :=
  let posts := posts_of type in
  let avgLikes := js_div host (total "Likes" posts) (vnat (List.length posts)) in
  let avgShares := js_div host (total "Shares" posts) (vnat (List.length posts)) in
  {| AverageEngagement.name := type;
     AverageEngagement.likes := Math_round avgLikes;
     AverageEngagement.shares := Math_round avgShares |}.

Definition getAverageEngagement : list AverageEngagement.t :=
  let postTypes := new_Set (map (fun row => cell row "Post_Type") rows) in
  map average postTypes.

End Views.

End Dashboard.

(* ================================================================== *)
(** * Fixtures: a host and sample data for the worked examples *)
(* ================================================================== *)

Module Fixtures.
Import LangflowClient Dashboard.

(** The double quote. *)
Definition dq : string := String (ascii_of_nat 34) EmptyString.

Definition quoted (s : string) : string := dq ++ s ++ dq.

(** [JSON.stringify] on the values of the examples: integers, strings
    without characters to escape, arrays and objects of such. *)
Fixpoint stringify (v : JsVal) : string :=
  match v with
  | VStr s => quoted s
  | VNum (Fin q) => decimal (Qfloor q)
  | VBool true => "true"
  | VBool false => "false"
  | VArr elems =>
      "[" ++
      (fix items (l : list JsVal) : string :=
         match l with
         | [] => ""
         | x :: r =>
             match r with
             | [] => stringify x
             | _ => stringify x ++ "," ++ items r
             end
         end) elems
      ++ "]"
  | VObj props =>
      "{" ++
      (fix members (l : list (string * JsVal)) : string :=
         match l with
         | [] => ""
         | (k, x) :: r =>
             match r with
             | [] => quoted k ++ ":" ++ stringify x
             | _ => quoted k ++ ":" ++ stringify x ++ "," ++ members r
             end
         end) props
      ++ "}"
  | _ => "null"
  end.

(** Responses of the flow service in the shapes [handleSubmit] knows. *)
Definition reply (componentOutput : JsVal) : JsVal :=
  VObj [("outputs", VArr [VObj [("outputs", VArr [componentOutput])]])].

Definition shape_a : JsVal :=
  VObj [("outputs", VObj [("message", VObj [("message", VObj [("text", VStr "deep")])])])].
Definition shape_b : JsVal :=
  VObj [("outputs", VObj [("message", VObj [("text", VStr "nested")])])].
Definition shape_c : JsVal :=
  VObj [("message", VObj [("text", VStr "direct")])].
Definition shape_d : JsVal :=
  VObj [("text", VStr "plain")].

(** A component output whose [outputs.message] is present and empty while
    its own [text] holds the reply. *)
Definition shadowed : JsVal :=
  VObj [("outputs", VObj [("message", VObj [])]); ("text", VStr "hi")].

(** A response whose first output has no nested output. *)
Definition hollow : JsVal := VObj [("outputs", VArr [VObj []])].

Definition bodies : list (string * JsVal) :=
  [ ("{}", VObj []);
    (stringify (reply shape_a), reply shape_a);
    (stringify (reply shape_b), reply shape_b);
    (stringify (reply shape_c), reply shape_c);
    (stringify (reply shape_d), reply shape_d);
    (stringify (reply shadowed), reply shadowed);
    (stringify hollow, hollow);
    (stringify (VObj [("detail", VStr "boom")]), VObj [("detail", VStr "boom")]) ].

(** [JSON.parse] on the bodies of the examples; any other text of the
    examples is not JSON. *)
Definition parse (text : string) : option JsVal := own text bodies.

Definition demo_host : Host :=
  {| JSON_parse := parse;
     JSON_stringify := stringify;
     String_toNumber := fun _ => NaN;
     Fraction_toString := fun _ => "";
     Builtin_toString := fun name =>
       if name =? "Object.prototype" then "[object Object]"
       else "function " ++ (if name =? "constructor" then "Object" else name)
            ++ "() { [native code] }";
     Nullish_read_message := fun _ k => "Cannot read properties of undefined (reading '" ++ k ++ "')";
     Date_toLocaleDateString := fun v =>
       match v with
       | VStr s => s
       | _ => "Invalid Date"
       end;
     EventSource_accepts := fun v =>
       match v with
       | VStr s => negb (s =? "http://")
       | _ => true
       end |}.

Definition demo_env : Env :=
  {| PUBLIC_URL := Some "";
     NODE_ENV := Some "production";
     REACT_APP_FLOW_ID := Some "flow";
     REACT_APP_LANGFLOW_ID := Some "group";
     REACT_APP_ASTRA_TOKEN := Some "token" |}.

(** A network that answers every request with the same response. *)
Definition always (r : Response) : Request -> FetchOutcome := fun _ => Responded r.

Definition http_200 (text : string) : Response :=
  {| status := 200; statusText := "OK"; text := text |}.
Definition http_500 (text : string) : Response :=
  {| status := 500; statusText := "Internal Server Error"; text := text |}.

Definition typing (s : string) : World App.AppState :=
  {| app := App.with_inputValue s App.initial; log := [] |}.

(** The rows of the CSV
    [Post_Type,Views,Likes / video,100,10 / image,50,5 / video,200,20]. *)
Definition csv_post (type : string) (views likes : Z) : Row :=
  [("Post_Type", CStr type); ("Views", CNum views); ("Likes", CNum likes)].

Definition sample_rows : list Row :=
  [csv_post "video" 100 10; csv_post "image" 50 5; csv_post "video" 200 20].

(** The same posts with a [Shares] column. *)
Definition shared (type : string) (likes shares : Z) : Row :=
  [("Post_Type", CStr type); ("Likes", CNum likes); ("Shares", CNum shares)].

Definition shared_rows : list Row :=
  [shared "video" 10 3; shared "image" 5 1; shared "video" 21 4].

(** The records of the CSV [Post_Type,Views,Likes / video,100,10 / ,,]:
    the second is the record of a line of empty fields. *)
Definition one_and_nulls : ParseResults :=
  {| data := [DRow (csv_post "video" 100 10);
              DRow [("Post_Type", CNull); ("Views", CNull); ("Likes", CNull)]];
     errors := [] |}.

End Fixtures.

(* ================================================================== *)
(** * Vocabulary of the statements *)
(* ================================================================== *)

Module Spec.
Import LangflowClient Dashboard.

(** ** Dashboard *)

Section Categories.
Variable host : Host.

(** The key under which [getPostTypeStats] counts a row. *)
Definition category_key (row : Row) : string :=
  ToPropertyKey host (cell row "Post_Type").

(** The number of rows counted under [k]. *)
Definition occurrences (k : string) (rows : list Row) : nat :=
  List.length (filter (fun row => category_key row =? k) rows).

(** No row's category key is the name of a property that a fresh object
    inherits from [Object.prototype]. *)
Definition plain_keys (rows : list Row) : bool :=
  forallb (fun row => negb (inherited_key (category_key row))) rows.

End Categories.

(** The count a chart entry holds, when its value is a natural number. *)
Definition as_count (v : JsVal) : option nat :=
  match v with
  | VNum (Fin q) =>
      if ((Zpos (Qden q) =? 1) && (0 <=? Qnum q))%Z then Some (Z.to_nat (Qnum q))
      else None
  | _ => None
  end.

(** The sum of the counts of a distribution; [None] as soon as one value
    is not a count. *)
Fixpoint total_count (stats : list PostTypeStat.t) : option nat :=
  match stats with
  | [] => Some 0
  | e :: r =>
      match as_count (PostTypeStat.value e), total_count r with
      | Some n, Some m => Some (n + m)
      | _, _ => None
      end
  end.

(** The field is absent from the record, or empty in the CSV line. *)
Definition missing_or_null (c : Cell) : bool :=
  match c with
  | CUndef | CNull => true
  | _ => false
  end.

(** Rows as [loadData] stores them: records of one column set (a record
    with too few or too many fields is a parser error, and no row is
    stored then), whose fields the parser typed. *)
Definition tabular (rows : list Row) : Prop :=
  (forall r1 r2, In r1 rows -> In r2 rows -> map fst r1 = map fst r2)
  /\ (forall r, In r rows -> ~ In CUndef (map snd r)).

(** The rows whose category is missing or null are all counted by one
    single entry of the distribution. *)
Definition one_entry_for_missing (host : Host) (rows : list Row)
  (stats : list PostTypeStat.t) : Prop :=
  exists e, In e stats /\
    forall row, In row rows ->
      missing_or_null (cell row "Post_Type") = true ->
      category_key host row = PostTypeStat.name e.




(** ** Chat client *)

(** The value found by following the property names [ks] from [v];
    [undefined] as soon as a step has nothing to read from. *)
Fixpoint path (v : JsVal) (ks : list string) : JsVal :=
  match ks with
  | [] => v
  | k :: r =>
      match v with
      | VUndef | VNull => VUndef
      | _ => path (get_prop v k) r
      end
  end.

Definition variant_a : list string := ["outputs"; "message"; "message"; "text"].
Definition variant_b : list string := ["outputs"; "message"; "text"].
Definition variant_c : list string := ["message"; "text"].
Definition variant_d : list string := ["text"].

(** Response normalization in the words of the specification: the first
    non-empty value among the four variants, searched in order; [None]
    stands for ExtractionError. *)
Definition spec_extract (componentOutput : JsVal) : option JsVal :=
  find truthy (map (path componentOutput) [variant_a; variant_b; variant_c; variant_d]).

(** Response normalization as [handleSubmit] arranges it: the variants
    under [outputs.message] when that is present, the two others only
    when it is not. *)
Definition nested_extract (componentOutput : JsVal) : option JsVal :=
  if truthy (path componentOutput ["outputs"; "message"]) then
    find truthy (map (path componentOutput) [variant_a; variant_b])
  else
    find truthy (map (path componentOutput) [variant_c; variant_d]).

(** The first output's first nested output of a response. *)
Definition component_output (response : JsVal) : JsVal :=
  path response ["outputs"; "0"; "outputs"; "0"].

(** The request [post] builds. *)
Definition sent (host : Host) (c : Client) (endpoint : string) (body : JsVal) : Request :=
  {| url := baseURL c ++ endpoint;
     method := "POST";
     headers := [("Content-Type", "application/json");
                 ("Authorization", "Bearer " ++ tmpl (applicationToken c))];
     body := JSON_stringify host body;
     credentials := "same-origin" |}.

(** The world after one more effect. *)
Definition logged {A : Type} (e : Effect) (w : World A) : World A :=
  {| app := app w; log := (log w ++ [e])%list |}.

(** A computation is quiet when it leaves the log of effects as it is. *)
Definition quiet {A X : Type} (m : M (World A) X) : Prop :=
  forall w, log (snd (m w)) = log w.

(** [v && v.k] as a value. *)
Definition and_get (v : JsVal) (k : string) : JsVal :=
  if truthy v then get_prop v k else v.

(** One bot message more. *)
Definition say (t : JsVal) (w : World App.AppState) : World App.AppState :=
  {| app := App.with_messages
              (fun prev => (prev ++ [{| App.type := App.bot; App.text := t |}])%list)
              (app w);
     log := log w |}.

(** The error the chat shows. *)
Definition fail (e : string) (w : World App.AppState) : World App.AppState :=
  {| app := App.with_error (VStr e) (app w); log := log w |}.

(** An error message carries the status code when it starts with its
    decimal text followed by a space. *)
Definition carries_status (st : N) (message : string) : bool :=
  prefix (decimal_N st ++ " ") message.

(** An error message carries a body when it ends with it. *)
Definition carries_body (body message : string) : bool :=
  let n := String.length message in
  let m := String.length body in
  (m <=? n)%nat && (substring (n - m) m message =? body).

(** The chat input is empty or made of white space only. *)
Fixpoint blank (s : string) : bool :=
  match s with
  | EmptyString => true
  | String c r => is_white_space c && blank r
  end.

End Spec.

(* ================================================================== *)
(** * src/App.js: the listeners of handleStream *)
(* ================================================================== *)

Module Stream.

(** What reaches an [EventSource]: an event sent by the server, with its
    type ("message" when the server names none) and its data, or the
    failure of the connection, which the browser reports as an event of
    type "error". *)
Inductive StreamEvent : Type :=
| ServerEvent (type : string) (data : string)
| ConnectionError.

(** The event object a listener receives. *)
Definition event_val (ev : StreamEvent) : JsVal :=
  match ev with
  | ServerEvent type data => VObj [("type", VStr type); ("data", VStr data)]
  | ConnectionError => VObj [("type", VStr "error")]
  end.

(** A call of one of the three callbacks given to [handleStream]. *)
Inductive Call : Type :=
| onUpdate (data : JsVal)
| onError (event : JsVal)
| onClose (message : JsVal).

(** The subscription: whether [eventSource.close()] was called, and the
    callbacks called so far, oldest first. *)
Record Subscription : Type := {
  closed : bool;
  calls : list Call
}.

Definition fresh : Subscription := {| closed := false; calls := [] |}.

Definition call (c : Call) (s : Subscription) : Subscription :=
  {| closed := closed s; calls := (calls s ++ [c])%list |}.

Definition close (s : Subscription) : Subscription :=
  {| closed := true; calls := calls s |}.

Section Listeners.
Variable host : Host.

(** The callbacks are the caller's: [completes before c] tells whether
    the call [c], made after the calls [before], returns normally; when
    it throws, the listener ends there and the browser goes on with the
    next event. *)
Variable completes : list Call -> Call -> bool.

(** [eventSource.onmessage]: [JSON.parse] may throw, and nothing follows
    the call of [onUpdate]. *)
Definition onmessage (ev : StreamEvent) (s : Subscription) : Subscription :=
  match ev with
  | ServerEvent _ data =>
      match JSON_parse host data with
      | Some parsed => call (onUpdate parsed) s
      | None => s
      end
  | ConnectionError => s
  end.

(** [eventSource.onerror]: [onError(event); eventSource.close()] *)
Definition onerror (ev : StreamEvent) (s : Subscription) : Subscription :=
  let c := onError (event_val ev) in
  if completes (calls s) c then close (call c s) else call c s.

(** The listener added for "close":
    [onClose('Stream closed'); eventSource.close()] *)
Definition on_close (ev : StreamEvent) (s : Subscription) : Subscription :=
  let c := onClose (VStr "Stream closed") in
  if completes (calls s) c then close (call c s) else call c s.

(** The browser hands an event to the listener of its type, and hands
    nothing to a closed source. *)
Definition dispatch (s : Subscription) (ev : StreamEvent) : Subscription :=
  if closed s then s
  else
    match ev with
    | ConnectionError => onerror ev s
    | ServerEvent type _ =>
        if type =? "message" then onmessage ev s
        else if type =? "error" then onerror ev s
        else if type =? "close" then on_close ev s
        else s
    end.

(** The subscription after the events [evs], in the order received. *)
Definition receive (evs : list StreamEvent) (s : Subscription) : Subscription :=
  fold_left dispatch evs s.

End Listeners.

End Stream.

(* ================================================================== *)
(** * The Dashboard component: the colours of the pie *)
(* ================================================================== *)

Module Palette.

Definition COLORS : list string :=
  ["#0088FE"; "#00C49F"; "#FFBB28"; "#FF8042"; "#FF6384"].

(** [COLORS[index % COLORS.length]], the [fill] of the cell of entry
    [index]; [None] stands for [undefined]. *)
Definition fill (index : nat) : option string :=
  nth_error COLORS (index mod List.length COLORS).

End Palette.

(* ================================================================== *)
(** * Vocabulary of the further statements *)
(* ================================================================== *)

Module Terms.
Import LangflowClient Dashboard Spec.

(** ** Chat *)

(** The state [handleSubmit] reaches before it calls [runFlow]. *)
Definition asked (w : World App.AppState) : World App.AppState :=
  {| app := {| App.inputValue := "";
               App.messages :=
                 (App.messages (app w)
                  ++ [ {| App.type := App.user;
                          App.text := VStr (App.inputValue (app w)) |} ])%list;
               App.isLoading := true;
               App.error := VStr "";
               App.activeTab := App.activeTab (app w) |};
     log := log w |}.

(** The request [handleSubmit] sends. *)
Definition chat_request (host : Host) (env : Env) (input : string) : Request :=
  {| url := (tmpl (PUBLIC_URL env) ++ "/api")
            ++ ("/lf/" ++ tmpl (REACT_APP_LANGFLOW_ID env)
                ++ "/api/v1/run/" ++ tmpl (REACT_APP_FLOW_ID env) ++ "?stream=false");
     method := "POST";
     headers := [("Content-Type", "application/json");
                 ("Authorization", "Bearer " ++ tmpl (REACT_APP_ASTRA_TOKEN env))];
     body := JSON_stringify host
               (VObj [ ("input_value", VStr input);
                       ("input_type", VStr "chat");
                       ("output_type", VStr "chat");
                       ("tweaks", App.tweaks) ]);
     credentials := "same-origin" |}.

(** The request failed: the fetch was rejected, the status is not 2xx,
    or the body is not JSON. *)
Definition failed (host : Host) (o : FetchOutcome) : bool :=
  match o with
  | Rejected _ => true
  | Responded r =>
      negb (ok r) || match JSON_parse host (text r) with Some _ => false | None => true end
  end.

(** The body of a response that did not fail. *)
Definition answer (host : Host) (o : FetchOutcome) : JsVal :=
  match o with
  | Rejected _ => VUndef
  | Responded r =>
      match JSON_parse host (text r) with
      | Some json => json
      | None => VUndef
      end
  end.

(** The world once [finally] has run. *)
Definition settled (w : World App.AppState) : World App.AppState :=
  {| app := App.with_isLoading false (app w); log := log w |}.

(** What the chat shows for a response, in the three cases of
    [handleSubmit]: no first output, a first output without a nested
    output, a nested output. *)
Definition shown (response : JsVal) (w : World App.AppState) : World App.AppState :=
  if truthy (path response ["outputs"; "0"]) then
    if truthy (component_output response) then
      match nested_extract (component_output response) with
      | Some t => say t w
      | None => fail "Could not extract bot response" w
      end
    else w
  else fail "Invalid response from server" w.




(** The request [initiateSession] sends. *)
Definition session_request (host : Host) (c : Client) (flowId langflowId : option string)
  (inputValue : JsVal) (inputType outputType : string) (stream : bool)
  (tweaks : JsVal) : Request :=
  sent host c
    ("/lf/" ++ tmpl langflowId ++ "/api/v1/run/" ++ tmpl flowId
     ++ "?stream=" ++ (if stream then "true" else "false"))
    (VObj [ ("input_value", inputValue);
            ("input_type", VStr inputType);
            ("output_type", VStr outputType);
            ("tweaks", tweaks) ]).


(** A callback that returns normally. *)
Definition returns {A : Type} (f : JsVal -> M (World A) unit) : Prop :=
  forall v w, exists w', f v w = (Normal tt, w').

(** A callback that counts its calls and keeps its last argument. *)
Definition tally (v : JsVal) : M (World (nat * JsVal)) unit :=
  update (fun s => (S (fst s), v)).

(** ** Stream *)

(** The event ends the subscription: its listener closes the source. *)
Definition terminal (ev : Stream.StreamEvent) : bool :=
  match ev with
  | Stream.ConnectionError => true
  | Stream.ServerEvent type _ => (type =? "error") || (type =? "close")
  end.

(** The callbacks one event causes on an open subscription. *)
Definition caused (host : Host) (ev : Stream.StreamEvent) : list Stream.Call :=
  match ev with
  | Stream.ConnectionError => [Stream.onError (Stream.event_val ev)]
  | Stream.ServerEvent type data =>
      if type =? "message" then
        match JSON_parse host data with
        | Some parsed => [Stream.onUpdate parsed]
        | None => []
        end
      else if type =? "error" then [Stream.onError (Stream.event_val ev)]
      else if type =? "close" then [Stream.onClose (VStr "Stream closed")]
      else []
  end.

(** The callbacks a sequence of events causes: those of the events up to
    and including the first terminal one. *)
Fixpoint delivered (host : Host) (evs : list Stream.StreamEvent) : list Stream.Call :=
  match evs with
  | [] => []
  | ev :: r =>
      if terminal ev then caused host ev
      else (caused host ev ++ delivered host r)%list
  end.

Definition is_update (c : Stream.Call) : bool :=
  match c with
  | Stream.onUpdate _ => true
  | _ => false
  end.

(** The callbacks that end a subscription, [onError] and [onClose],
    return normally whenever they are called. *)
Definition ends_quietly (completes : list Stream.Call -> Stream.Call -> bool) : Prop :=
  forall before c, is_update c = false -> completes before c = true.

(** ** Dashboard *)

(** What [sum + (field || 0)] adds for a field that is not text: the
    number, 1 for [true], 0 for a field that is missing, empty or
    [false]. *)
Definition amount (c : Cell) : option Z :=
  match c with
  | CNum z => Some z
  | CBool true => Some 1%Z
  | CBool false | CNull | CUndef => Some 0%Z
  | CStr s => if s =? "" then Some 0%Z else None
  end.

Fixpoint amounts (cs : list Cell) : option Z :=
  match cs with
  | [] => Some 0%Z
  | c :: r =>
      match amount c, amounts r with
      | Some z, Some t => Some (z + t)%Z
      | _, _ => None
      end
  end.

(** The sum of the magnitudes of the fields: a bound on every partial
    sum of their amounts. *)
Fixpoint weight (cs : list Cell) : Z :=
  match cs with
  | [] => 0%Z
  | c :: r =>
      (match amount c with
       | Some z => Z.abs z
       | None => 0
       end + weight r)%Z
  end.

(** The text that [sum + (field || 0)] appends to a [sum] that is a
    string. *)
Definition appended (host : Host) (c : Cell) : string :=
  ToString host (js_or (of_cell c) (vint 0)).

Fixpoint texts (host : Host) (cs : list Cell) : string :=
  match cs with
  | [] => ""
  | c :: r => appended host c ++ texts host r
  end.

(** The value is a string. *)
Definition is_string (v : JsVal) : bool :=
  match v with
  | VStr _ => true
  | _ => false
  end.

(** What a field that is not text adds to a running total. *)
Definition cell_number (c : Cell) : Number :=
  match c with
  | CUndef => NaN
  | CNull => Fin 0
  | CBool true => Fin 1
  | CBool false => Fin 0
  | CNum z => num_of_Z z
  | CStr _ => NaN
  end.

Definition is_text (c : Cell) : bool :=
  match c with
  | CStr _ => true
  | _ => false
  end.

(** The distinct strings of a list, in the order of their first
    appearance. *)
Definition first_seen (ks : list string) : list string :=
  fold_left (fun seen k => if existsb (String.eqb k) seen then seen else (seen ++ [k])%list)
            ks [].

(** No row's category key is an array index. *)
Definition named_keys (host : Host) (rows : list Row) : bool :=
  forallb (fun row => match array_index (category_key host row) with
                      | Some _ => false
                      | None => true
                      end) rows.

(** The keys of a record are distinct. *)
Definition well_formed (row : Row) : Prop := NoDup (map fst row).

(** A record that brings no [id] of its own: no [id] column and no
    [Post_Id] to use. *)
Definition unnumbered (d : Datum) : Prop :=
  exists row, d = DRow row /\ well_formed row /\ own "id" row = None
              /\ truthy (of_cell (cell row "Post_Id")) = false.

(** The record the parser builds from a line whose fields are all
    empty, under the columns of [row]: every field is [null]. *)
Definition blank_record (row : Row) : Row :=
  map (fun kv => (fst kv, CNull)) row.


End Terms.

(* ================================================================== *)
(** * Further sample data *)
(* ================================================================== *)

Module Samples.
Import LangflowClient Dashboard Fixtures.

(** A response that announces a stream. *)
Definition streaming : JsVal :=
  VObj [("outputs",
         VArr [VObj [("outputs",
                      VArr [VObj [("artifacts",
                                   VObj [("stream_url", VStr "/stream/1")])]])]])].

(** A response whose stream address does not parse as a URL. *)
Definition bad_address : JsVal :=
  VObj [("outputs",
         VArr [VObj [("outputs",
                      VArr [VObj [("artifacts",
                                   VObj [("stream_url", VStr "http://")])]])]])].

(** A response whose list of outputs is empty. *)
Definition no_outputs : JsVal := VObj [("outputs", VArr [])].

(** A host that parses the bodies above besides those of [demo_host]. *)
Definition stream_host : Host :=
  {| JSON_parse := fun text =>
       if text =? stringify streaming then Some streaming
       else if text =? stringify bad_address then Some bad_address
       else if text =? stringify no_outputs then Some no_outputs
       else if text =? "1" then Some (vint 1)
       else if text =? "2" then Some (vint 2)
       else parse text;
     JSON_stringify := stringify;
     String_toNumber := String_toNumber demo_host;
     Fraction_toString := Fraction_toString demo_host;
     Builtin_toString := Builtin_toString demo_host;
     Nullish_read_message := Nullish_read_message demo_host;
     Date_toLocaleDateString := Date_toLocaleDateString demo_host;
     EventSource_accepts := EventSource_accepts demo_host |}.

(** Callbacks that always return, and callbacks whose [onError] throws. *)
Definition patient : list Stream.Call -> Stream.Call -> bool := fun _ _ => true.

Definition failing_onError : list Stream.Call -> Stream.Call -> bool :=
  fun _ c =>
    match c with
    | Stream.onError _ => false
    | _ => true
    end.

(** Server events: two updates, a line that is not JSON, the end of the
    stream, and an update that comes too late. *)
Definition recorded : list Stream.StreamEvent :=
  [ Stream.ServerEvent "message" "1";
    Stream.ServerEvent "message" "oops";
    Stream.ServerEvent "ping" "";
    Stream.ServerEvent "message" "2";
    Stream.ServerEvent "close" "";
    Stream.ServerEvent "message" "1";
    Stream.ConnectionError ].

(** A post with an empty category and a post whose category is the text
    "null". *)
Definition null_and_text : list Row :=
  [ [("Post_Type", CNull); ("Likes", CNum 1)];
    [("Post_Type", CStr "null"); ("Likes", CNum 2)] ].

(** Posts with numeric categories among named ones. *)
Definition numbered : list Row :=
  [ [("Post_Type", CStr "video")]; [("Post_Type", CNum 10)];
    [("Post_Type", CNum 2)]; [("Post_Type", CStr "video")] ].

(** A record that has its own [id] column. *)
Definition with_id : Row :=
  [("id", CStr "a7"); ("Post_Id", CNum 12); ("Post_Type", CStr "video")].

(** A record with a [Post_Id]. *)
Definition with_post_id : Row :=
  [("Post_Id", CNum 12); ("Post_Type", CStr "video")].

(** Views that hold text. *)
Definition noted : list Row :=
  [ [("Views", CNum 10)]; [("Views", CStr "n/a")]; [("Views", CNum 5)];
    [("Views", CNull)]; [("Views", CBool true)] ].

(** Posts of one category, one of which lacks its [Likes]. *)
Definition partial : list Row :=
  [ [("Post_Type", CStr "video"); ("Likes", CNum 10)];
    [("Post_Type", CStr "video")];
    [("Post_Type", CStr "image"); ("Likes", CNum 4)] ].


(** Two records without ids. *)
Definition two_records : ParseResults :=
  {| data := [DRow (csv_post "video" 100 10); DRow (csv_post "image" 50 5)];
     errors := [] |}.

End Samples.

(* ================================================================== *)
(** * Properties of the primitive operations *)
(* ================================================================== *)

Module JsFacts.

Section PropsFacts.
Context {V : Type}.
Implicit Types (o : list (string * V)) (k : string) (v : V).

Lemma own_put_same o k v : own k (put k v o) = Some v.
Proof.
  induction o as [|[k' v'] r IH]; simpl.
  - now rewrite String.eqb_refl.
  - destruct (k' =? k) eqn:E; simpl; rewrite E; auto.
Qed.

Lemma own_put_other o k k' v : k <> k' -> own k' (put k v o) = own k' o.
Proof.
  intros Hne. induction o as [|[k0 v0] r IH]; simpl.
  - destruct (k =? k') eqn:E; auto. apply String.eqb_eq in E. contradiction.
  - destruct (k0 =? k) eqn:E; simpl.
    + apply String.eqb_eq in E. subst k0.
      destruct (k =? k') eqn:E'; auto. apply String.eqb_eq in E'. contradiction.
    + now rewrite IH.
Qed.

Lemma own_In o k v : own k o = Some v -> In (k, v) o.
Proof.
  induction o as [|[k' v'] r IH]; simpl; [discriminate|].
  destruct (k' =? k) eqn:E; intros H.
  - apply String.eqb_eq in E. inversion H. subst. now left.
  - right. auto.
Qed.

Lemma own_None o k : own k o = None <-> ~ In k (map fst o).
Proof.
  induction o as [|[k' v'] r IH]; simpl.
  - tauto.
  - destruct (k' =? k) eqn:E.
    + apply String.eqb_eq in E. split; [discriminate | intros H; exfalso; apply H; now left].
    + apply String.eqb_neq in E. rewrite IH. tauto.
Qed.

Lemma In_own o k v : NoDup (map fst o) -> In (k, v) o -> own k o = Some v.
Proof.
  induction o as [|[k' v'] r IH]; simpl; [tauto|].
  intros Hnd [H | H].
  - inversion H. subst. now rewrite String.eqb_refl.
  - inversion Hnd as [|? ? Hnotin Hnd']. subst.
    destruct (k' =? k) eqn:E.
    + apply String.eqb_eq in E. subst k'. exfalso. apply Hnotin.
      change k with (fst (k, v)). now apply in_map.
    + auto.
Qed.

Lemma keys_put o k v :
  map fst (put k v o) =
  match own k o with
  | Some _ => map fst o
  | None => (map fst o ++ [k])%list
  end.
Proof.
  induction o as [|[k' v'] r IH]; simpl; auto.
  destruct (k' =? k) eqn:E; simpl; auto.
  rewrite IH. now destruct (own k r).
Qed.

Lemma NoDup_put o k v : NoDup (map fst o) -> NoDup (map fst (put k v o)).
Proof.
  intros Hnd. rewrite keys_put. destruct (own k o) eqn:E; auto.
  apply own_None in E.
  apply NoDup_rev in Hnd. rewrite <- (rev_involutive (map fst o ++ [k])).
  apply NoDup_rev. rewrite rev_app_distr. simpl. constructor; auto.
  now rewrite <- in_rev.
Qed.

Lemma insert_index_perm (e : N * (string * V)) l :
  Permutation (insert_index e l) (e :: l).
Proof.
  induction l as [|e' r IH]; simpl; auto.
  destruct (fst e <=? fst e')%N; auto.
  rewrite IH. apply perm_swap.
Qed.

Lemma sort_index_perm (l : list (N * (string * V))) : Permutation (sort_index l) l.
Proof.
  induction l as [|e r IH]; simpl; auto.
  rewrite insert_index_perm. now constructor.
Qed.

Lemma index_named_perm o :
  Permutation (map snd (index_props o) ++ named_props o) o.
Proof.
  unfold named_props.
  induction o as [|[k v] r IH]; simpl; auto.
  destruct (array_index k); simpl.
  - now constructor.
  - rewrite <- Permutation_middle. now constructor.
Qed.

(** [Object.entries] lists every own property once. *)
Lemma Object_entries_perm o : Permutation (Object_entries o) o.
Proof.
  unfold Object_entries.
  rewrite (Permutation_map snd (sort_index_perm (index_props o))).
  apply index_named_perm.
Qed.

Lemma Object_keys_length o : List.length (Object_keys o) = List.length o.
Proof.
  unfold Object_keys. rewrite length_map.
  apply Permutation_length, Object_entries_perm.
Qed.

End PropsFacts.

End JsFacts.

(** ** Numbers *)

Module NumFacts.

Lemma Qred_inject_Z z : Qred (inject_Z z) = inject_Z z.
Proof.
  unfold Qred, inject_Z.
  pose proof (Z.ggcd_gcd z 1) as Hg.
  pose proof (Z.ggcd_correct_divisors z 1) as Hd.
  destruct (Z.ggcd z 1) as [g [a b]]. simpl in *.
  rewrite Z.gcd_1_r in Hg. subst g. destruct Hd as [Ha Hb].
  replace a with z by lia. replace b with 1%Z by lia. reflexivity.
Qed.

(** ** Rounding to the nearest integer *)

Lemma round_half_even_exact a b : (0 < b)%Z -> round_half_even (a * b) b = a.
Proof.
  intros Hb. unfold round_half_even.
  rewrite Z.mod_mul by lia. rewrite Z.div_mul by lia.
  simpl (2 * 0)%Z. now destruct b.
Qed.



(** ** Powers of two *)

Lemma pow2_pos e : (0 < 2 ^ Z.max e 0)%Z.
Proof. apply Z.pow_pos_nonneg; lia. Qed.

(** [2^a / 2^b = 2^c / 2^d] when [a - b = c - d]. *)
Lemma pow2_cross a b c d :
  (0 <= a)%Z -> (0 <= b)%Z -> (0 <= c)%Z -> (0 <= d)%Z -> (a + d = c + b)%Z ->
  (2 ^ a * 2 ^ d = 2 ^ c * 2 ^ b)%Z.
Proof. intros. rewrite <- !Z.pow_add_r by lia. f_equal. lia. Qed.

(** ** The binade *)

Lemma reaches_mono e e' n d :
  (0 < n)%Z -> (0 < d)%Z -> (e' <= e)%Z -> reaches e n d -> reaches e' n d.
Proof.
  unfold reaches. intros Hn Hd Hle H.
  pose proof (pow2_pos e) as P1. pose proof (pow2_pos (- e)) as P2.
  pose proof (pow2_pos e') as P3. pose proof (pow2_pos (- e')) as P4.
  (* 2^e'+ * 2^e- <= 2^e+ * 2^e'- *)
  assert (2 ^ Z.max e' 0 * 2 ^ Z.max (- e) 0 <= 2 ^ Z.max e 0 * 2 ^ Z.max (- e') 0)%Z as Hc.
  { rewrite <- !Z.pow_add_r by lia. apply Z.pow_le_mono_r; lia. }
  apply (Z.mul_le_mono_pos_r _ _ (2 ^ Z.max (- e) 0)); [lia|].
  (* d * 2^e'+ * 2^e- <= d * 2^e+ * 2^e'- <= n * 2^e- * 2^e'- *)
  nia.
Qed.

Lemma binade_spec n d :
  (0 < n)%Z -> (0 < d)%Z ->
  reaches (binade n d) n d /\ ~ reaches (binade n d + 1) n d.
Proof.
  intros Hn Hd. unfold binade.
  pose proof (Z.log2_spec n Hn) as [Ln Un].
  pose proof (Z.log2_spec d Hd) as [Ld Ud].
  pose proof (Z.log2_nonneg n) as Nn. pose proof (Z.log2_nonneg d) as Nd.
  set (a := Z.log2 n) in *. set (b := Z.log2 d) in *.
  rewrite Z.pow_succ_r in Un, Ud by lia.
  destruct (Z.leb_spec (d * 2 ^ Z.max (a - b) 0) (n * 2 ^ Z.max (- (a - b)) 0)) as [Ht | Ht].
  - split; [exact Ht|]. unfold reaches. intros H.
    (* n * 2^(e+1)- < 2^(a+1) * .. = 2^b * 2^(e+1)+ <= d * 2^(e+1)+ *)
    assert (2 * 2 ^ a * 2 ^ Z.max (- (a - b + 1)) 0 = 2 ^ b * 2 ^ Z.max (a - b + 1) 0)%Z as Hc.
    { rewrite <- Z.pow_succ_r by lia. apply pow2_cross; lia. }
    pose proof (pow2_pos (a - b + 1)) as P1. pose proof (pow2_pos (- (a - b + 1))) as P2.
    nia.
  - split.
    + unfold reaches.
      assert (2 * 2 ^ b * 2 ^ Z.max (a - b - 1) 0 = 2 ^ a * 2 ^ Z.max (- (a - b - 1)) 0)%Z as Hc.
      { rewrite <- Z.pow_succ_r by lia. apply pow2_cross; lia. }
      pose proof (pow2_pos (a - b - 1)) as P1. pose proof (pow2_pos (- (a - b - 1))) as P2.
      nia.
    + replace (a - b - 1 + 1)%Z with (a - b)%Z by lia. unfold reaches. lia.
Qed.

(** ** Integers are doubles up to 2^53 *)

Lemma binade_pos_range c lo hi :
  (0 < c)%Z -> (0 <= lo)%Z -> (2 ^ lo <= c)%Z -> (c < 2 ^ (hi + 1))%Z -> (lo <= hi)%Z ->
  (lo <= binade c 1 <= hi)%Z.
Proof.
  intros Hc Hlo Hl Hh Hle.
  destruct (binade_spec c 1 Hc ltac:(lia)) as [Hr Hn]. split.
  - destruct (Z.le_gt_cases lo (binade c 1)) as [H | H]; [exact H|].
    exfalso. apply Hn. unfold reaches.
    replace (Z.max (binade c 1 + 1) 0) with (Z.max (binade c 1 + 1) 0) by reflexivity.
    assert (reaches lo c 1) as Hlo'.
    { unfold reaches. rewrite Z.max_l by lia.
      replace (Z.max (- lo) 0) with 0%Z by lia. simpl (2 ^ 0)%Z. lia. }
    apply (reaches_mono lo (binade c 1 + 1) c 1); auto; lia.
  - destruct (Z.le_gt_cases (binade c 1) hi) as [H | H]; [exact H|].
    exfalso.
    assert (reaches (hi + 1) c 1) as Hhi.
    { apply (reaches_mono (binade c 1) (hi + 1) c 1); auto; lia. }
    unfold reaches in Hhi. rewrite Z.max_l in Hhi by lia.
    replace (Z.max (- (hi + 1)) 0) with 0%Z in Hhi by lia. simpl (2 ^ 0)%Z in Hhi. lia.
Qed.

Lemma round64_pos_int c :
  (0 < c <= 2 ^ 53)%Z -> round64_pos c 1 = Fin (inject_Z c).
Proof.
  intros [Hc Hle].
  destruct (Z.eq_dec c (2 ^ 53)) as [-> | Hne]; [vm_compute; reflexivity|].
  assert (0 <= binade c 1 <= 52)%Z as He.
  { apply binade_pos_range; lia. }
  unfold round64_pos. set (e := binade c 1) in *.
  rewrite (Z.max_l e (-1022)) by lia.
  replace (Z.max (e - 52) 0) with 0%Z by lia.
  replace (Z.max (- (e - 52)) 0) with (52 - e)%Z by lia.
  change (2 ^ 0)%Z with 1%Z.
  assert (0 < 2 ^ (52 - e))%Z as Hp by (apply Z.pow_pos_nonneg; lia).
  assert (round_half_even (c * 2 ^ (52 - e)) (1 * 1) = c * 2 ^ (52 - e))%Z as ->.
  { rewrite <- (Z.mul_1_r (c * 2 ^ (52 - e))) at 1. apply round_half_even_exact. lia. }
  destruct (Z.leb_spec 1024 e) as [H | _]; [lia|].
  destruct (Z.eqb_spec e 1023) as [H | _]; [lia|]. cbv [orb andb].
  f_equal. rewrite <- (Qred_inject_Z c). apply Qred_complete.
  unfold Qeq, inject_Z. cbn [Qnum Qden]. rewrite Z2Pos.id by lia. lia.
Qed.

Lemma round64_int z :
  (Z.abs z <= 2 ^ 53)%Z -> round64 (inject_Z z) = Fin (inject_Z z).
Proof.
  intros Hz. destruct z as [|p|p].
  - reflexivity.
  - change (round64 (inject_Z (Z.pos p))) with (round64_pos (Z.pos p) 1).
    apply round64_pos_int. lia.
  - change (round64 (inject_Z (Z.neg p))) with (num_neg (round64_pos (Z.pos p) 1)).
    rewrite round64_pos_int by lia. unfold num_neg. f_equal.
    apply (Qred_inject_Z (Zneg p)).
Qed.

(** ** The rounded quotient of two integers *)







(** ** The rounding on examples *)

(** One tenth, and the sum of one tenth and two tenths, which is not the
    double nearest to three tenths. *)
Example round64_tenth :
  round64 (1 # 10) = Fin (3602879701896397 # 36028797018963968)
  /\ num_add (round64 (1 # 10)) (round64 (2 # 10))
     = Fin (1351079888211149 # 4503599627370496)
  /\ round64 (3 # 10) = Fin (5404319552844595 # 18014398509481984).
Proof. vm_compute. repeat split. Qed.

(** Beyond [2^53] the integers are rounded to even significands, the
    largest double is [2^1024 - 2^971], and half of the smallest one
    rounds to zero. *)
Example round64_edges :
  round64 (inject_Z (2 ^ 53 + 1)) = Fin (inject_Z (2 ^ 53))
  /\ round64 (inject_Z (2 ^ 53 + 3)) = Fin (inject_Z (2 ^ 53 + 4))
  /\ round64 (inject_Z (2 ^ 1024 - 2 ^ 970 - 1)) = Fin (inject_Z (2 ^ 1024 - 2 ^ 971))
  /\ round64 (inject_Z (2 ^ 1024 - 2 ^ 970)) = PosInf
  /\ round64 (Qmake 1 (Z.to_pos (2 ^ 1075))) = Fin 0
  /\ round64 (Qmake 3 (Z.to_pos (2 ^ 1075)))
     = Fin (Qmake 1 (Z.to_pos (2 ^ 1073))).
Proof. vm_compute. repeat split. Qed.

(** On these quotients and sums of integers [round64] gives the result
    of the division and of the addition of the library's specification
    of binary64 arithmetic. *)
Example round64_as_specified :
  forallb (fun ab =>
             match round64 (inject_Z (fst ab) / inject_Z (snd ab)),
                   of_spec_float (SpecFloat.SFdiv 53 1024 (binary64 (fst ab))
                                    (binary64 (snd ab))) with
             | Fin x, Fin y => Qeq_bool x y
             | PosInf, PosInf | NegInf, NegInf => true
             | _, _ => false
             end)
          [ (1, 3); (2, 3); (10, 7); (-1, 3); (1, 10); (5, 2); (31, 2); (-31, 2);
            (6755399441055745, 3); (9007199254740993, 2); (123456789012345678, 7);
            (1, 2 ^ 1023); (3, 2 ^ 1000); (2 ^ 1023, 1) ]%Z
  = true
  /\ forallb (fun ab =>
                match round64 (inject_Z (fst ab) + inject_Z (snd ab)),
                      of_spec_float (SpecFloat.SFadd 53 1024 (binary64 (fst ab))
                                       (binary64 (snd ab))) with
                | Fin x, Fin y => Qeq_bool x y
                | PosInf, PosInf | NegInf, NegInf => true
                | _, _ => false
                end)
             [ (1, 3); (9007199254740992, 1); (9007199254740992, 3);
               (9007199254740991, 9007199254740991);
               (18014398509481982, 9007199254740991); (-9007199254740992, -1);
               (4503599627370497, 4503599627370496); (2 ^ 1023, 2 ^ 1023) ]%Z
     = true.
Proof. vm_compute. split; reflexivity. Qed.

(** ** Integers as numbers *)

(** The sum of two integers is exact as long as it is a double. *)
Lemma num_add_Z a b :
  (Z.abs (a + b) <= 2 ^ 53)%Z ->
  num_add (num_of_Z a) (num_of_Z b) = num_of_Z (a + b).
Proof.
  intros H. unfold num_of_Z, num_add. rewrite <- inject_Z_plus.
  now apply round64_int.
Qed.

Lemma num_add_NaN_l n : num_add NaN n = NaN.
Proof. now destruct n. Qed.

Lemma num_add_NaN_r n : num_add n NaN = NaN.
Proof. now destruct n. Qed.

Lemma js_add_ints host a b :
  (Z.abs (a + b) <= 2 ^ 53)%Z ->
  js_add host (vint a) (vint b) = vint (a + b).
Proof.
  intros H. unfold js_add, vint, ToPrimitive, ToNumber, ToPrimitive.
  now rewrite num_add_Z.
Qed.

Lemma vnat_truthy n : 1 <= n -> truthy (vnat n) = true.
Proof.
  intros H. unfold vnat, num_of_nat, num_of_Z, Qis_zero. simpl.
  unfold Qis_zero. simpl. destruct (Z.eqb_spec (Z.of_nat n) 0); auto. lia.
Qed.

Lemma vnat_succ host n :
  (Z.of_nat n < 2 ^ 53)%Z ->
  js_add host (vnat n) (vint 1) = vnat (n + 1).
Proof.
  intros H. unfold vnat, num_of_nat. fold (vint (Z.of_nat n)).
  rewrite js_add_ints by lia.
  unfold vint. do 2 f_equal. lia.
Qed.

Lemma as_count_vnat n : Spec.as_count (vnat n) = Some n.
Proof.
  unfold Spec.as_count, vnat, num_of_nat, num_of_Z. simpl.
  destruct (Z.leb_spec 0 (Z.of_nat n)); [|lia]. now rewrite Nat2Z.id.
Qed.


End NumFacts.

(* ================================================================== *)
(** * Properties of the derived views *)
(* ================================================================== *)

Module DashboardFacts.
Import LangflowClient Dashboard Spec JsFacts NumFacts.

Lemma cell_eqb_eq a b : cell_eqb a b = true <-> a = b.
Proof.
  destruct a, b; simpl; split; intros H; try discriminate; try reflexivity.
  - apply Bool.eqb_prop in H. now subst.
  - inversion H. apply Bool.eqb_reflx.
  - apply Z.eqb_eq in H. now subst.
  - inversion H. apply Z.eqb_refl.
  - apply String.eqb_eq in H. now subst.
  - inversion H. apply String.eqb_refl.
Qed.

Lemma cell_eqb_refl a : cell_eqb a a = true.
Proof. now apply cell_eqb_eq. Qed.

(** ** [new Set] *)

Lemma Set_add_In s c x : In x (Set_add s c) <-> In x s \/ x = c.
Proof.
  unfold Set_add. destruct (existsb (cell_eqb c) s) eqn:E.
  - split; [tauto|]. intros [H | H]; auto. subst x.
    apply existsb_exists in E. destruct E as [y [Hy Heq]].
    apply cell_eqb_eq in Heq. now subst.
  - rewrite in_app_iff. simpl. intuition.
Qed.

Lemma fold_Set_add_In values : forall s x,
  In x (fold_left Set_add values s) <-> In x s \/ In x values.
Proof.
  induction values as [|c r IH]; intros s x; simpl.
  - tauto.
  - rewrite IH, Set_add_In. intuition.
Qed.

(** The elements of [new Set(values)] are the values. *)
Lemma new_Set_In values x : In x (new_Set values) <-> In x values.
Proof. unfold new_Set. rewrite fold_Set_add_In. simpl. tauto. Qed.

Lemma Set_add_NoDup s c : NoDup s -> NoDup (Set_add s c).
Proof.
  intros Hnd. unfold Set_add. destruct (existsb (cell_eqb c) s) eqn:E; auto.
  apply NoDup_rev in Hnd. rewrite <- (rev_involutive (s ++ [c])).
  apply NoDup_rev. rewrite rev_app_distr. simpl. constructor; auto.
  rewrite <- in_rev. intros Hin.
  assert (existsb (cell_eqb c) s = true) as Hc; [|congruence].
  apply existsb_exists. exists c. split; auto. apply cell_eqb_refl.
Qed.

(** A [Set] holds each value once. *)
Lemma new_Set_NoDup values : NoDup (new_Set values).
Proof.
  unfold new_Set. assert (NoDup (@nil Cell)) as H by constructor.
  revert H. generalize (@nil Cell).
  induction values as [|c r IH]; intros s Hs; simpl; auto.
  apply IH. now apply Set_add_NoDup.
Qed.

(** ** Counting by category *)

Section Counting.
Variable host : Host.

Lemma inherited_key_false k :
  inherited_key k = false ->
  Object_prototype_get k = VUndef /\ (k =? "__proto__") = false.
Proof.
  unfold inherited_key, Object_prototype_get. intros H.
  apply orb_false_iff in H. destruct H as [H1 H2]. now rewrite H1, H2.
Qed.

Lemma plain_keys_app l r :
  plain_keys host (l ++ r) = plain_keys host l && plain_keys host r.
Proof. unfold plain_keys. apply forallb_app. Qed.

Lemma occurrences_app k l r :
  occurrences host k (l ++ r) = occurrences host k l + occurrences host k r.
Proof. unfold occurrences. now rewrite filter_app, length_app. Qed.

Lemma postTypeCounts_snoc l row :
  postTypeCounts host (l ++ [row]) = count_row host (postTypeCounts host l) row.
Proof. unfold postTypeCounts. now rewrite fold_left_app. Qed.

Lemma occurrences_le k rows : occurrences host k rows <= List.length rows.
Proof. unfold occurrences. apply filter_length_le. Qed.

(** After the [forEach], the own property [k] of [postTypeCounts] is the
    number of rows whose key is [k], and there is none when no row has
    it; the counts are exact, the number of rows being a double. *)
Lemma postTypeCounts_own rows :
  plain_keys host rows = true ->
  (Z.of_nat (List.length rows) <= 2 ^ 53)%Z ->
  forall k,
    own k (postTypeCounts host rows) =
    match occurrences host k rows with
    | 0 => None
    | S n => Some (vnat (S n))
    end.
Proof.
  induction rows as [|row l IH] using rev_ind; intros Hplain Hsize k.
  - reflexivity.
  - rewrite plain_keys_app in Hplain. apply andb_true_iff in Hplain.
    destruct Hplain as [Hl Hrow].
    rewrite length_app in Hsize. simpl List.length in Hsize.
    specialize (IH Hl ltac:(lia)).
    simpl in Hrow. rewrite andb_true_r in Hrow. apply negb_true_iff in Hrow.
    destruct (inherited_key_false _ Hrow) as [Hproto Hne].
    rewrite postTypeCounts_snoc, occurrences_app.
    unfold count_row, obj_assign, obj_get.
    fold (category_key host row). rewrite Hne.
    unfold occurrences at 2. simpl.
    destruct (String.eqb_spec (category_key host row) k) as [Heq | Hneq].
    + subst k. rewrite own_put_same. rewrite (IH (category_key host row)).
      pose proof (occurrences_le (category_key host row) l) as Hocc.
      destruct (occurrences host (category_key host row) l) as [|n] eqn:En.
      * rewrite Hproto. reflexivity.
      * unfold js_or. rewrite vnat_truthy by lia. rewrite vnat_succ by lia.
        simpl. now rewrite Nat.add_comm.
    + rewrite own_put_other by assumption. rewrite IH. simpl.
      now rewrite Nat.add_0_r.
Qed.

Lemma postTypeCounts_NoDup rows :
  plain_keys host rows = true -> NoDup (map fst (postTypeCounts host rows)).
Proof.
  induction rows as [|row l IH] using rev_ind; intros Hplain.
  - constructor.
  - rewrite plain_keys_app in Hplain. apply andb_true_iff in Hplain.
    destruct Hplain as [Hl Hrow].
    simpl in Hrow. rewrite andb_true_r in Hrow. apply negb_true_iff in Hrow.
    destruct (inherited_key_false _ Hrow) as [_ Hne].
    rewrite postTypeCounts_snoc. unfold count_row, obj_assign.
    fold (category_key host row). rewrite Hne. apply NoDup_put. auto.
Qed.

(** Whatever the keys, the counts have one property per key, every key
    is the key of a row, and none is "__proto__". *)
Lemma postTypeCounts_distinct rows : NoDup (map fst (postTypeCounts host rows)).
Proof.
  induction rows as [|row l IH] using rev_ind.
  - constructor.
  - rewrite postTypeCounts_snoc. unfold count_row, obj_assign.
    destruct (_ =? "__proto__"); [exact IH | now apply NoDup_put].
Qed.

Lemma postTypeCounts_from_rows rows k :
  In k (map fst (postTypeCounts host rows)) ->
  In k (map (category_key host) rows) /\ k <> "__proto__".
Proof.
  induction rows as [|row l IH] using rev_ind; intros Hin.
  - contradiction.
  - rewrite map_app, in_app_iff. rewrite postTypeCounts_snoc in Hin.
    unfold count_row, obj_assign in Hin. fold (category_key host row) in Hin.
    destruct (String.eqb_spec (category_key host row) "__proto__") as [He | Hne].
    + destruct (IH Hin). split; [left|]; auto.
    + rewrite keys_put in Hin.
      destruct (own (category_key host row) (postTypeCounts host l)).
      * destruct (IH Hin). split; [left|]; auto.
      * apply in_app_iff in Hin. destruct Hin as [Hin | [<- | []]].
        -- destruct (IH Hin). split; [left|]; auto.
        -- split; [right; now left | exact Hne].
Qed.

(** A row whose key is "__proto__" leaves the counts as they are. *)
Lemma postTypeCounts_skips_proto rows :
  postTypeCounts host rows
  = postTypeCounts host
      (filter (fun row => negb (category_key host row =? "__proto__")) rows).
Proof.
  induction rows as [|row l IH] using rev_ind.
  - reflexivity.
  - rewrite filter_app. cbn [filter].
    destruct (category_key host row =? "__proto__") eqn:E; cbn [negb].
    + rewrite app_nil_r, postTypeCounts_snoc, <- IH.
      unfold count_row, obj_assign. fold (category_key host row). now rewrite E.
    + rewrite !postTypeCounts_snoc. now rewrite <- IH.
Qed.

(** Rows of one column set that lack the category, or hold an empty one,
    have one and the same key. *)
Lemma missing_share_key rows r1 r2 :
  tabular rows -> In r1 rows -> In r2 rows ->
  missing_or_null (cell r1 "Post_Type") = true ->
  missing_or_null (cell r2 "Post_Type") = true ->
  category_key host r1 = category_key host r2.
Proof.
  intros [Hcols Htyped] H1 H2 M1 M2. unfold category_key. f_equal.
  assert (forall r, In r rows -> missing_or_null (cell r "Post_Type") = true ->
            cell r "Post_Type" = match own "Post_Type" r with
                                 | Some _ => CNull
                                 | None => CUndef
                                 end) as Hshape.
  { intros r Hr M. unfold cell in *. destruct (own "Post_Type" r) as [c|] eqn:E; auto.
    apply own_In in E. destruct c; try discriminate; auto.
    exfalso. apply (Htyped r Hr). change CUndef with (snd ("Post_Type", CUndef)).
    now apply in_map. }
  rewrite (Hshape r1 H1 M1), (Hshape r2 H2 M2).
  assert (forall ra rb, In ra rows -> In rb rows -> own "Post_Type" ra = None ->
            own "Post_Type" rb = None) as Hnone.
  { intros ra rb Ha Hb E. apply own_None. apply own_None in E.
    now rewrite <- (Hcols ra rb Ha Hb). }
  destruct (own "Post_Type" r1) eqn:E1, (own "Post_Type" r2) eqn:E2; auto.
  - now rewrite (Hnone r2 r1 H2 H1 E2) in E1.
  - now rewrite (Hnone r1 r2 H1 H2 E1) in E2.
Qed.

Lemma sum_indicator (x : string) ks :
  NoDup ks -> In x ks ->
  list_sum (map (fun k => if x =? k then 1 else 0) ks) = 1.
Proof.
  induction ks as [|k r IH]; simpl; [tauto|].
  intros Hnd Hin. inversion Hnd as [|? ? Hnotin Hnd']. subst.
  destruct (String.eqb_spec x k) as [Heq | Hneq].
  - subst k. f_equal.
    clear IH Hnd Hin Hnd'. induction r as [|k' r IH]; simpl; auto.
    destruct (String.eqb_spec x k') as [-> | _].
    + exfalso. apply Hnotin. now left.
    + apply IH. intros H. apply Hnotin. now right.
  - destruct Hin as [-> | Hin]; [contradiction|]. auto.
Qed.

Lemma list_sum_map_add {X} (f g : X -> nat) l :
  list_sum (map (fun x => f x + g x) l) = list_sum (map f l) + list_sum (map g l).
Proof. induction l as [|x r IH]; simpl; auto. rewrite IH. lia. Qed.

(** Distinct keys that cover the rows split them: the group sizes add up
    to the number of rows. *)
Lemma occurrences_sum ks rows :
  NoDup ks ->
  (forall row, In row rows -> In (category_key host row) ks) ->
  list_sum (map (fun k => occurrences host k rows) ks) = List.length rows.
Proof.
  intros Hnd. induction rows as [|row l IH]; intros Hcover.
  - unfold occurrences. simpl. clear Hnd Hcover.
    induction ks as [|k r IHr]; simpl; auto.
  - assert (forall k, occurrences host k (row :: l) =
                      (if category_key host row =? k then 1 else 0)
                      + occurrences host k l) as Hstep.
    { intros k. unfold occurrences. simpl.
      now destruct (category_key host row =? k). }
    rewrite (map_ext _ _ Hstep), list_sum_map_add.
    rewrite sum_indicator; auto.
    + rewrite IH; auto. intros r Hr. apply Hcover. now right.
    + apply Hcover. now left.
Qed.

Lemma list_sum_perm l l' : Permutation l l' -> list_sum l = list_sum l'.
Proof. induction 1; simpl; lia. Qed.

Lemma total_count_values stats counts :
  map PostTypeStat.value stats = map vnat counts ->
  total_count stats = Some (list_sum counts).
Proof.
  revert counts. induction stats as [|e r IH]; intros [|n counts] H;
    simpl in *; try discriminate; auto.
  inversion H as [[Hv Hr]]. rewrite Hv, as_count_vnat, (IH counts Hr). reflexivity.
Qed.

End Counting.

End DashboardFacts.

Module DistributionFacts.
Import LangflowClient Dashboard Spec JsFacts NumFacts DashboardFacts.

Section Distribution.
Variable host : Host.
Variable rows : list Row.
Hypothesis Hplain : plain_keys host rows = true.
Hypothesis Hsize : (Z.of_nat (List.length rows) <= 2 ^ 53)%Z.

Let stats := getPostTypeStats host rows.

Lemma names_perm :
  Permutation (map PostTypeStat.name stats) (map fst (postTypeCounts host rows)).
Proof.
  unfold stats, getPostTypeStats. rewrite map_map. simpl.
  apply Permutation_map, Object_entries_perm.
Qed.

Lemma names_NoDup : NoDup (map PostTypeStat.name stats).
Proof.
  eapply Permutation_NoDup.
  - symmetry. apply names_perm.
  - now apply postTypeCounts_NoDup.
Qed.

Lemma entry_counts e :
  In e stats ->
  PostTypeStat.value e = vnat (occurrences host (PostTypeStat.name e) rows)
  /\ 1 <= occurrences host (PostTypeStat.name e) rows.
Proof.
  unfold stats, getPostTypeStats. intros Hin.
  apply in_map_iff in Hin. destruct Hin as [[k v] [He Hin]]. subst e. simpl.
  apply (Permutation_in _ (Object_entries_perm _)) in Hin.
  apply In_own in Hin; [|now apply postTypeCounts_NoDup].
  rewrite (postTypeCounts_own host rows Hplain Hsize) in Hin.
  destruct (occurrences host k rows) as [|n]; [discriminate|].
  inversion Hin. split; [reflexivity | lia].
Qed.

Lemma names_cover row :
  In row rows -> In (category_key host row) (map PostTypeStat.name stats).
Proof.
  intros Hin. apply (Permutation_in _ (Permutation_sym names_perm)).
  destruct (in_dec string_dec (category_key host row)
                   (map fst (postTypeCounts host rows))) as [H | H]; auto.
  apply own_None in H. rewrite (postTypeCounts_own host rows Hplain Hsize) in H.
  assert (1 <= occurrences host (category_key host row) rows) as Hocc.
  { unfold occurrences.
    assert (In row (filter (fun r => category_key host r =? category_key host row) rows)) as Hf.
    { apply filter_In. split; auto. apply String.eqb_refl. }
    destruct (filter _ rows); [contradiction | simpl; lia]. }
  destruct (occurrences host (category_key host row) rows); [lia | discriminate].
Qed.

Lemma values_are_counts :
  map PostTypeStat.value stats =
  map vnat (map (fun k => occurrences host k rows) (map PostTypeStat.name stats)).
Proof.
  rewrite !map_map. apply map_ext_in. intros e He. now apply entry_counts.
Qed.

Lemma counts_sum : total_count stats = Some (List.length rows).
Proof.
  rewrite (total_count_values _ _ values_are_counts). f_equal.
  apply occurrences_sum.
  - apply names_NoDup.
  - apply names_cover.
Qed.

End Distribution.

End DistributionFacts.

Module AverageFacts.
Import LangflowClient Dashboard Spec JsFacts NumFacts DashboardFacts.

Section Average.
Variable host : Host.





Lemma total_NaN k posts :
  (forall p, In p posts -> cell p k = CUndef) ->
  fold_left (fun sum post => js_add host sum (of_cell (cell post k))) posts (VNum NaN)
  = VNum NaN.
Proof.
  induction posts as [|p r IH]; intros H; simpl; auto.
  rewrite (H p (or_introl eq_refl)). simpl.
  apply IH. intros q Hq. apply H. now right.
Qed.

(** Over rows that lack the field the accumulated total is [NaN]. *)
Lemma total_absent k posts :
  posts <> [] ->
  (forall p, In p posts -> cell p k = CUndef) ->
  total host k posts = VNum NaN.
Proof.
  destruct posts as [|p r]; [congruence|]. intros _ H.
  unfold total. simpl. rewrite (H p (or_introl eq_refl)). simpl.
  apply total_NaN. intros q Hq. apply H. now right.
Qed.

Lemma posts_of_inhabited rows type :
  In type (new_Set (map (fun row => cell row "Post_Type") rows)) ->
  exists row, In row rows /\ cell row "Post_Type" = type /\ In row (posts_of rows type).
Proof.
  intros Hin. apply (proj1 (new_Set_In _ _)) in Hin.
  apply (proj1 (in_map_iff _ _ _)) in Hin.
  destruct Hin as [row [Hc Hrow]]. exists row. repeat split; auto.
  unfold posts_of. apply filter_In. split; auto. now apply cell_eqb_eq.
Qed.




(** When no row has a [Shares] field, every emitted [shares] is [NaN]. *)
Lemma average_shares_absent rows :
  (forall row, In row rows -> cell row "Shares" = CUndef) ->
  Forall (fun e => AverageEngagement.shares e = NaN) (getAverageEngagement host rows).
Proof.
  intros Habs. apply Forall_forall. intros e He.
  unfold getAverageEngagement in He. apply in_map_iff in He.
  destruct He as [type [He Htype]]. subst e.
  destruct (posts_of_inhabited rows type Htype) as [row [_ [_ Hin]]].
  unfold average. simpl. rewrite total_absent.
  - reflexivity.
  - intros Hnil. rewrite Hnil in Hin. contradiction.
  - intros p Hp. apply Habs. unfold posts_of in Hp. now apply filter_In in Hp.
Qed.

(** Every category of the rows is emitted, once. *)
Lemma average_names rows :
  NoDup (map AverageEngagement.name (getAverageEngagement host rows))
  /\ forall row, In row rows ->
       In (cell row "Post_Type") (map AverageEngagement.name (getAverageEngagement host rows)).
Proof.
  unfold getAverageEngagement. rewrite map_map. simpl. rewrite map_id. split.
  - apply new_Set_NoDup.
  - intros row Hrow. apply new_Set_In.
    apply (in_map (fun r => cell r "Post_Type")). exact Hrow.
Qed.

End Average.


End AverageFacts.

(* ================================================================== *)
(** * Properties of the chat client *)
(* ================================================================== *)

Module ClientFacts.
Import LangflowClient App Spec.

(** ** Strings *)

Lemma blank_trimStart s : blank s = true -> trimStart s = "".
Proof.
  induction s as [|c r IH]; simpl; auto.
  intros H. apply andb_true_iff in H. destruct H as [Hc Hr]. rewrite Hc. auto.
Qed.

Lemma trimEnd_empty s : trimEnd s = "" <-> blank s = true.
Proof.
  induction s as [|c r IH]; simpl.
  - tauto.
  - destruct (trimEnd r) eqn:E.
    + destruct (is_white_space c); simpl.
      * tauto.
      * split; discriminate.
    + split; [discriminate|]. intros H. apply andb_true_iff in H.
      destruct H as [_ Hr]. apply IH in Hr. discriminate.
Qed.

Lemma blank_trimStart_iff s : blank (trimStart s) = blank s.
Proof.
  induction s as [|c r IH]; simpl; auto.
  destruct (is_white_space c) eqn:E; simpl; [auto | now rewrite E].
Qed.

(** [trim] returns the empty string exactly on blank input. *)
Lemma trim_empty s : trim s = "" <-> blank s = true.
Proof. unfold trim. now rewrite trimEnd_empty, blank_trimStart_iff. Qed.

Lemma prefix_app a b : prefix a (a ++ b) = true.
Proof.
  induction a as [|c r IH]; simpl.
  - now destruct b.
  - destruct (ascii_dec c c); [auto | contradiction].
Qed.

Lemma append_assoc (a b c : string) : (a ++ b) ++ c = a ++ (b ++ c).
Proof. induction a as [|x r IH]; simpl; auto. now rewrite IH. Qed.

Lemma length_append (a b : string) :
  String.length (a ++ b) = String.length a + String.length b.
Proof. induction a as [|c r IH]; simpl; auto. Qed.

Lemma substring_all (b : string) : substring 0 (String.length b) b = b.
Proof. induction b as [|c r IH]; simpl; auto. now rewrite IH. Qed.

Lemma substring_suffix (a b : string) :
  substring (String.length a) (String.length b) (a ++ b) = b.
Proof. induction a as [|c r IH]; simpl; auto using substring_all. Qed.

(** A message ends with what it was built to end with. *)
Lemma carries_body_app (a b : string) : carries_body b (a ++ b) = true.
Proof.
  unfold carries_body. rewrite length_append.
  replace (String.length a + String.length b - String.length b)
    with (String.length a) by lia.
  rewrite substring_suffix, String.eqb_refl, andb_true_r.
  apply Nat.leb_le. lia.
Qed.

(** The decimal text of a status code starts with a digit, never with
    the letter that starts the invalid-JSON message. *)
Lemma decimal_N_not_I n s t : decimal_N n ++ s <> String "I" t.
Proof.
  unfold decimal_N, NilZero.string_of_uint.
  destruct (N.to_uint n); simpl; discriminate.
Qed.

(** ** Reading properties *)

Section Reads.
Variable host : Host.
Context {A : Type}.
Implicit Types (v : JsVal) (w : World A).

Lemma truthy_not_nullish v : truthy v = true -> v <> VUndef /\ v <> VNull.
Proof. destruct v; simpl; intros H; split; congruence. Qed.

Lemma get_normal v k w :
  truthy v = true -> LangflowClient.get host v k w = (Normal (get_prop v k), w).
Proof. destruct v; simpl; intros H; try discriminate; reflexivity. Qed.

Lemma js_and_get v k w :
  LangflowClient.js_and v (LangflowClient.get host v k) w = (Normal (and_get v k), w).
Proof.
  unfold LangflowClient.js_and, and_get. destruct (truthy v) eqn:E.
  - now apply get_normal.
  - reflexivity.
Qed.

End Reads.

Lemma index_of_empty k : get_prop (VStr "") k = VUndef \/ get_prop (VStr "") k = vnat 0.
Proof.
  unfold get_prop. destruct (array_index k) as [i|].
  - left. simpl. now destruct (N.to_nat i).
  - destruct (k =? "length"); simpl; auto.
Qed.

Lemma get_prop_empty_falsy k : truthy (get_prop (VStr "") k) = false.
Proof. destruct (index_of_empty k) as [E | E]; rewrite E; reflexivity. Qed.

(** Only a truthy value has a truthy property. *)
Lemma get_prop_truthy v k : truthy (get_prop v k) = true -> truthy v = true.
Proof.
  destruct v as [| |b|n|s|l|o|name]; intros H; try reflexivity;
    try (simpl in H; discriminate).
  destruct s as [|c r]; [|reflexivity].
  rewrite get_prop_empty_falsy in H. discriminate.
Qed.

Lemma path_undef ks : path VUndef ks = VUndef.
Proof. now destruct ks. Qed.

Lemma path_null ks : ks <> [] -> path VNull ks = VUndef.
Proof. destruct ks; [congruence | reflexivity]. Qed.

Lemma path_cons v k ks :
  truthy v = true -> path v (k :: ks) = path (get_prop v k) ks.
Proof. destruct v; simpl; intros H; try discriminate; reflexivity. Qed.

(** A path that ends on a truthy value starts from one. *)
Lemma path_truthy ks : forall v,
  ks <> [] -> truthy (path v ks) = true -> truthy v = true.
Proof.
  induction ks as [|k r IH]; intros v Hne H; [congruence|].
  assert (truthy (path (get_prop v k) r) = true) as H'.
  { destruct v; simpl in H; try discriminate; exact H. }
  apply (get_prop_truthy v k).
  destruct r as [|k' r']; [exact H'|].
  apply IH in H'; [exact H' | discriminate].
Qed.

(** A path from a falsy value cannot end on a truthy one. *)
Ltac falsy_path E :=
  apply path_truthy in E; [congruence | discriminate].

Lemma path_app v ks1 ks2 : path v (ks1 ++ ks2) = path (path v ks1) ks2.
Proof.
  revert v. induction ks1 as [|k r IH]; intros v; simpl; auto.
  destruct v; auto using path_undef; now rewrite path_undef.
Qed.

Lemma and_get_path v k :
  truthy (and_get v k) = truthy (path v [k])
  /\ (truthy (and_get v k) = true -> and_get v k = path v [k]).
Proof.
  unfold and_get. destruct (truthy v) eqn:E.
  - rewrite path_cons by assumption. simpl. auto.
  - split.
    + destruct (truthy (path v [k])) eqn:E'; auto.
      falsy_path E'.
    + congruence.
Qed.

End ClientFacts.

Module AppFacts.
Import LangflowClient App Spec ClientFacts.

Section Normalization.
Variable host : Host.
Implicit Types (v co response : JsVal) (w : World AppState).

Lemma path1 v k : truthy v = true -> path v [k] = get_prop v k.
Proof. intros H. now rewrite path_cons. Qed.

(** The variants, read from the values the navigation holds. *)
Lemma variants_nested co :
  truthy co = true ->
  let message := path co ["outputs"; "message"] in
  truthy message = true ->
  path co variant_a = path (get_prop message "message") ["text"]
  /\ path co variant_b = get_prop message "text".
Proof.
  intros Hco message Hm. unfold variant_a, variant_b. split.
  - change ["outputs"; "message"; "message"; "text"]
      with (["outputs"; "message"] ++ ["message"; "text"])%list.
    rewrite path_app. fold message. now rewrite path_cons.
  - change ["outputs"; "message"; "text"]
      with (["outputs"; "message"] ++ ["text"])%list.
    rewrite path_app. fold message. now rewrite path1.
Qed.

Lemma variants_flat co :
  truthy co = true ->
  path co variant_c = path (get_prop co "message") ["text"]
  /\ path co variant_d = get_prop co "text".
Proof.
  intros Hco. unfold variant_c, variant_d. split.
  - now rewrite path_cons.
  - now rewrite path1.
Qed.

Lemma find_pair co (a b : list string) :
  find truthy (map (path co) [a; b]) =
  if truthy (path co a) then Some (path co a)
  else if truthy (path co b) then Some (path co b) else None.
Proof. reflexivity. Qed.

(** The navigation ends on the value [nested_extract] selects, or on the
    empty string it started from. *)
Lemma navigate_nested co w :
  truthy co = true ->
  navigate host co w =
  (Normal (match nested_extract co with Some t => t | None => VStr "" end), w).
Proof.
  intros Hco. unfold navigate, App.get, App.js_and, bind.
  rewrite (get_normal host co "outputs" w Hco), js_and_get.
  unfold nested_extract.
  rewrite (path_cons co "outputs" ["message"] Hco).
  destruct (and_get_path (get_prop co "outputs") "message") as [Ht Hv].
  rewrite <- Ht.
  destruct (truthy (and_get (get_prop co "outputs") "message")) eqn:Ec.
  - specialize (Hv eq_refl).
    assert (path co ["outputs"; "message"] = and_get (get_prop co "outputs") "message") as Hmsg.
    { now rewrite (path_cons co "outputs" ["message"] Hco). }
    destruct (variants_nested co Hco) as [Ha Hb].
    { now rewrite Hmsg. }
    rewrite Hmsg in Ha, Hb.
    set (message := and_get (get_prop co "outputs") "message") in *.
    rewrite (get_normal host message "message" w Ec), js_and_get.
    destruct (and_get_path (get_prop message "message") "text") as [Ht1 Hv1].
    rewrite find_pair, Ha, Hb, <- Ht1.
    destruct (truthy (and_get (get_prop message "message") "text")) eqn:Ec1.
    + now rewrite (Hv1 eq_refl).
    + rewrite (get_normal host message "text" w Ec).
      now destruct (truthy (get_prop message "text")).
  - destruct (variants_flat co Hco) as [Hc Hd].
    rewrite (get_normal host co "message" w Hco), js_and_get.
    destruct (and_get_path (get_prop co "message") "text") as [Ht2 Hv2].
    rewrite find_pair, Hc, Hd, <- Ht2.
    destruct (truthy (and_get (get_prop co "message") "text")) eqn:Ec2.
    + now rewrite (Hv2 eq_refl).
    + rewrite (get_normal host co "text" w Hco).
      now destruct (truthy (get_prop co "text")).
Qed.

Lemma nested_extract_truthy co t : nested_extract co = Some t -> truthy t = true.
Proof.
  unfold nested_extract. intros H.
  destruct (truthy (path co ["outputs"; "message"]));
    apply find_some in H; tauto.
Qed.

(** What [handleSubmit] does with a response that has a first output
    with a first nested output. *)
Lemma show_response_nested response w :
  truthy (component_output response) = true ->
  show_response host response w =
  (Normal tt,
   match nested_extract (component_output response) with
   | Some t => say t w
   | None => fail "Could not extract bot response" w
   end).
Proof.
  unfold component_output. intros Hco.
  assert (truthy response = true) as Hr by (apply path_truthy in Hco; [auto | discriminate]).
  rewrite path_cons in Hco by assumption.
  assert (truthy (get_prop response "outputs") = true) as Ho
      by (apply path_truthy in Hco; [auto | discriminate]).
  rewrite path_cons in Hco by assumption.
  assert (truthy (get_prop (get_prop response "outputs") "0") = true) as Hf
      by (apply path_truthy in Hco; [auto | discriminate]).
  rewrite path_cons in Hco by assumption.
  assert (truthy (get_prop (get_prop (get_prop response "outputs") "0") "outputs") = true) as Hfo
      by (apply path_truthy in Hco; [auto | discriminate]).
  rewrite path1 in Hco by assumption.
  rewrite !path_cons by assumption. cbn [path].
  unfold show_response, App.get, App.js_and, bind.
  rewrite js_and_get. unfold and_get. rewrite Hr.
  rewrite js_and_get. unfold and_get. rewrite Ho, Hf.
  rewrite (get_normal host _ "outputs" w Hf), js_and_get.
  unfold and_get. rewrite Hfo, Hco.
  rewrite (navigate_nested _ w Hco).
  destruct (nested_extract _) as [t|] eqn:E.
  - rewrite (nested_extract_truthy _ _ E). reflexivity.
  - reflexivity.
Qed.

(** Without a first output the chat shows another error. *)
Lemma show_response_invalid response w :
  truthy (path response ["outputs"; "0"]) = false ->
  show_response host response w = (Normal tt, fail "Invalid response from server" w).
Proof.
  intros H. unfold show_response, App.get, App.js_and, bind.
  rewrite js_and_get, js_and_get.
  destruct (and_get_path response "outputs") as [Ht Hv].
  destruct (and_get_path (and_get response "outputs") "0") as [Ht0 Hv0].
  assert (truthy (and_get (and_get response "outputs") "0") = false) as Hc.
  { rewrite Ht0. destruct (truthy (and_get response "outputs")) eqn:E.
    - rewrite (Hv eq_refl).
      change (path (path response ["outputs"]) ["0"])
        with (path (path response ["outputs"]) ["0"]).
      rewrite <- path_app. exact H.
    - destruct (truthy (path (and_get response "outputs") ["0"])) eqn:E'; auto.
      falsy_path E'. }
  rewrite Hc. reflexivity.
Qed.

End Normalization.

(** The arrangement of [handleSubmit] and the order of the specification
    select the same value unless [outputs.message] is present and holds
    neither variant. *)
Lemma nested_extract_agrees co :
  truthy (path co ["outputs"; "message"]) = false \/ nested_extract co <> None ->
  nested_extract co = spec_extract co.
Proof.
  assert (spec_extract co =
          if truthy (path co variant_a) then Some (path co variant_a)
          else if truthy (path co variant_b) then Some (path co variant_b)
          else find truthy (map (path co) [variant_c; variant_d])) as Hspec
      by reflexivity.
  rewrite Hspec. unfold nested_extract. rewrite find_pair.
  destruct (truthy (path co ["outputs"; "message"])) eqn:Em; intros H.
  - destruct H as [H | H]; [discriminate|].
    destruct (truthy (path co variant_a)); auto.
    destruct (truthy (path co variant_b)); auto. congruence.
  - assert (truthy (path co variant_a) = false) as Ha.
    { unfold variant_a.
      change ["outputs"; "message"; "message"; "text"]
        with (["outputs"; "message"] ++ ["message"; "text"])%list.
      rewrite path_app.
      destruct (truthy (path (path co ["outputs"; "message"]) ["message"; "text"])) eqn:E; auto.
      falsy_path E. }
    assert (truthy (path co variant_b) = false) as Hb.
    { unfold variant_b.
      change ["outputs"; "message"; "text"]
        with (["outputs"; "message"] ++ ["text"])%list.
      rewrite path_app.
      destruct (truthy (path (path co ["outputs"; "message"]) ["text"])) eqn:E; auto.
      falsy_path E. }
    now rewrite Ha, Hb.
Qed.

End AppFacts.

Module RequestFacts.
Import LangflowClient Spec ClientFacts.

Section Requests.
Variable host : Host.
Context {A : Type}.
Implicit Types (w : World A) (c : Client) (r : Response).

(** [post] sends one request; on a response it parses the body first
    and looks at the status afterwards. *)
Lemma post_responded fetch c endpoint body w r :
  fetch (sent host c endpoint body) = Responded r ->
  post host fetch c endpoint body w =
  (match JSON_parse host (text r) with
   | None => Throw "Invalid JSON response from server"
   | Some json =>
       if ok r then Normal json
       else Throw (decimal_N (status r) ++ " " ++ statusText r ++ " - "
                   ++ JSON_stringify host json)
   end,
   logged (HttpRequest (sent host c endpoint body)) w).
Proof.
  intros Hf. unfold post, try_catch, bind, do_fetch, emit, modify, parse_json.
  match goal with
  | |- context [fetch ?req] => change req with (sent host c endpoint body)
  end.
  rewrite Hf. simpl.
  destruct (JSON_parse host (text r)) as [json|]; simpl; [|reflexivity].
  destruct (ok r); reflexivity.
Qed.

Lemma post_rejected fetch c endpoint body w m :
  fetch (sent host c endpoint body) = Rejected m ->
  post host fetch c endpoint body w =
  (Throw m, logged (HttpRequest (sent host c endpoint body)) w).
Proof.
  intros Hf. unfold post, try_catch, bind, do_fetch, emit, modify.
  match goal with
  | |- context [fetch ?req] => change req with (sent host c endpoint body)
  end.
  rewrite Hf. reflexivity.
Qed.

(** Without streaming, [runFlow] resolves to the parsed body, or calls
    [onError] and resolves to [undefined]. *)
Lemma runFlow_plain fetch c flowId langflowId inputValue inputType outputType tweaks
      (onError : JsVal -> M (World A) unit) w :
  runFlow host fetch c flowId langflowId inputValue inputType outputType tweaks
          false onError w =
  match initiateSession host fetch c flowId langflowId inputValue inputType
                        outputType false tweaks w with
  | (Normal json, w') => (Normal json, w')
  | (Throw e, w') =>
      match onError (VStr "Error initiating session") w' with
      | (Normal _, w'') => (Normal VUndef, w'')
      | (Throw e', w'') => (Throw e', w'')
      end
  end.
Proof.
  unfold runFlow, try_catch, bind.
  destruct (initiateSession _ _ _ _ _ _ _ _ _ _ w) as [[json | e] w']; reflexivity.
Qed.

End Requests.

End RequestFacts.

(* ================================================================== *)
(** * Which steps reach the network *)
(* ================================================================== *)

Module EffectFacts.
Import LangflowClient Spec ClientFacts RequestFacts.

Section Quiet.
Context {A : Type}.

Lemma quiet_ret {X} (x : X) : quiet (@ret (World A) X x).
Proof. intros w. reflexivity. Qed.

Lemma quiet_throw {X} e : quiet (@throw (World A) X e).
Proof. intros w. reflexivity. Qed.

Lemma quiet_update (f : A -> A) : quiet (update f).
Proof. intros w. reflexivity. Qed.

Lemma quiet_bind {X Y} (m : M (World A) X) (k : X -> M (World A) Y) :
  quiet m -> (forall x, quiet (k x)) -> quiet (bind m k).
Proof.
  intros Hm Hk w. unfold bind. specialize (Hm w).
  destruct (m w) as [[x | e] w']; simpl in *.
  - now rewrite Hk.
  - exact Hm.
Qed.

Lemma quiet_try_catch {X} (m : M (World A) X) (h : string -> M (World A) X) :
  quiet m -> (forall e, quiet (h e)) -> quiet (try_catch m h).
Proof.
  intros Hm Hh w. unfold try_catch. specialize (Hm w).
  destruct (m w) as [[x | e] w']; simpl in *.
  - exact Hm.
  - now rewrite Hh.
Qed.

Lemma quiet_if {X} (b : bool) (m1 m2 : M (World A) X) :
  quiet m1 -> quiet m2 -> quiet (if b then m1 else m2).
Proof. now destruct b. Qed.

Lemma quiet_get host v k : quiet (LangflowClient.get (A:=A) host v k).
Proof. intros w. now destruct v. Qed.

Lemma quiet_js_and v (m : M (World A) JsVal) :
  quiet m -> quiet (LangflowClient.js_and v m).
Proof. intros Hm. unfold LangflowClient.js_and. apply quiet_if; auto using quiet_ret. Qed.

End Quiet.

Create HintDb quiet.
#[local] Hint Resolve quiet_ret quiet_throw quiet_update quiet_get : quiet.

(** One step of a proof that a block is quiet, following its syntax. *)
Ltac quiet_step :=
  first [ solve [auto with quiet]
        | apply quiet_get
        | apply quiet_update
        | apply quiet_js_and
        | apply quiet_if
        | apply quiet_bind; [|intros ?] ].

Section Handler.
Variable host : Host.
Variable env : Env.
Variable fetch : Request -> FetchOutcome.

Lemma quiet_navigate co : quiet (App.navigate host co).
Proof. unfold App.navigate, App.get, App.js_and. repeat quiet_step. Qed.

#[local] Hint Resolve quiet_navigate : quiet.

Lemma quiet_show_response response : quiet (App.show_response host response).
Proof.
  unfold App.show_response, App.get, App.js_and, App.setMessages, App.setError.
  repeat quiet_step.
Qed.

(** [post] reaches the network once, whatever comes back. *)
Lemma post_logs_once {A : Type} c endpoint body (w : World A) :
  log (snd (post host fetch c endpoint body w))
  = (log w ++ [HttpRequest (sent host c endpoint body)])%list.
Proof.
  destruct (fetch (sent host c endpoint body)) as [m | r] eqn:Hf.
  - now rewrite (post_rejected host fetch c endpoint body w m Hf).
  - now rewrite (post_responded host fetch c endpoint body w r Hf).
Qed.

(** With a non-blank input [handleSubmit] sends exactly one request. *)
Lemma handleSubmit_logs_once (w : World App.AppState) :
  blank (App.inputValue (app w)) = false ->
  exists req,
    log (snd (App.handleSubmit host env fetch w)) = (log w ++ [HttpRequest req])%list.
Proof.
  intros Hin.
  exists (sent host (new_LangflowClient env "" (REACT_APP_ASTRA_TOKEN env))
               ("/lf/" ++ tmpl (REACT_APP_LANGFLOW_ID env) ++ "/api/v1/run/"
                ++ tmpl (REACT_APP_FLOW_ID env) ++ "?stream=false")
               (VObj [ ("input_value", VStr (App.inputValue (app w)));
                       ("input_type", VStr "chat");
                       ("output_type", VStr "chat");
                       ("tweaks", App.tweaks) ])).
  unfold App.handleSubmit, bind, gets. cbv beta iota.
  assert (truthy (VStr (trim (App.inputValue (app w)))) = true) as Ht.
  { simpl. destruct (String.eqb_spec (trim (App.inputValue (app w))) ""); auto.
    apply trim_empty in e. congruence. }
  rewrite Ht. change (negb true) with false. cbv beta iota.
  unfold App.handleSubmit_body, try_finally, try_catch, bind.
  unfold App.setIsLoading, App.setError, App.setMessages, App.setInputValue, update, modify.
  cbv beta iota.
  rewrite runFlow_plain. unfold initiateSession.
  match goal with
  | |- context [post host fetch ?c ?e ?b ?w0] =>
      pose proof (post_logs_once c e b w0) as Hlog;
      destruct (post host fetch c e b w0) as [[json | err] w1]
  end; simpl in Hlog.
  - pose proof (quiet_show_response json w1) as Hq.
    destruct (App.show_response host json w1) as [[[] | e] w2]; simpl in *;
      congruence.
  - unfold App.get, LangflowClient.get. simpl.
    pose proof (quiet_show_response VUndef
                  {| app := App.with_error VUndef (app w1); log := log w1 |}) as Hq.
    destruct (App.show_response host VUndef _) as [[[] | e] w2]; simpl in *;
      congruence.
Qed.

End Handler.

End EffectFacts.

(* ================================================================== *)
(** * The chat client against the specification *)
(* ================================================================== *)

Module ClientSpec.
Import LangflowClient Spec Fixtures ClientFacts AppFacts RequestFacts.

(** ** post and initiateSession *)

(** C3. On a response, [post] throws the error "Invalid JSON response
    from server" exactly when the body is not parseable, whatever the
    status: an unparseable body always fails with it, and neither a
    success nor the error of a non-2xx status with a parseable body is
    ever mistaken for it. *)
Theorem post_invalid_json (host : Host) (A : Type) (c : Client) (endpoint : string)
        (body : JsVal) (w : World A) (r : Response) :
  fst (post host (fun _ => Responded r) c endpoint body w)
    = Throw "Invalid JSON response from server"
  <-> JSON_parse host (text r) = None.
Proof.
  rewrite (post_responded host (fun _ => Responded r) c endpoint body w r eq_refl).
  simpl fst. destruct (JSON_parse host (text r)) as [json|].
  - split; [|discriminate]. destruct (ok r); [discriminate|].
    intros H. inversion H as [H']. exfalso. revert H'. apply decimal_N_not_I.
  - split; reflexivity.
Qed.

(** An unparseable body fails the same way under a success status, and a
    parseable one under a failure status fails otherwise. *)
Example post_invalid_json_runs :
  fst (post demo_host (always (http_200 "<html>"))
         (new_LangflowClient demo_env "" (Some "token")) "/run" (VObj []) (typing "hi"))
    = Throw "Invalid JSON response from server"
  /\ fst (post demo_host (always (http_500 "{}"))
            (new_LangflowClient demo_env "" (Some "token")) "/run" (VObj []) (typing "hi"))
    = Throw "500 Internal Server Error - {}"
  /\ fst (post demo_host (always (http_200 "{}"))
            (new_LangflowClient demo_env "" (Some "token")) "/run" (VObj []) (typing "hi"))
    = Normal (VObj []).
Proof. repeat split. Qed.

(** C2, as stated, fails: the service answers 500 with a body that is not
    JSON; [initiateSession] fails with the invalid-JSON error, which
    carries neither the status code nor the body. *)
Lemma initiateSession_500_unparseable :
  fst (initiateSession demo_host (always (http_500 "<html>Internal Server Error</html>"))
         (new_LangflowClient demo_env "" (Some "token")) (Some "flow") (Some "group")
         (VStr "hello") "chat" "chat" false App.tweaks (typing "hello"))
    = Throw "Invalid JSON response from server"
  /\ ok (http_500 "<html>Internal Server Error</html>") = false
  /\ carries_status 500 "Invalid JSON response from server" = false
  /\ carries_body "<html>Internal Server Error</html>"
                  "Invalid JSON response from server" = false.
Proof. repeat split. Qed.

(** C2, amended. For a response with a non-2xx status whose body parses
    as JSON, [initiateSession] fails with an error whose message is the
    status code, the status text and the parsed body serialised again;
    the message carries the status code and that serialisation. *)
Theorem initiateSession_remote_error (host : Host) (A : Type) (c : Client)
        (flowId langflowId : option string) (inputValue : JsVal)
        (inputType outputType : string) (stream : bool) (tweaks : JsVal)
        (w : World A) (r : Response) (json : JsVal) :
  ok r = false ->
  JSON_parse host (text r) = Some json ->
  let message := decimal_N (status r) ++ " " ++ statusText r ++ " - "
                 ++ JSON_stringify host json in
  fst (initiateSession host (fun _ => Responded r) c flowId langflowId inputValue
         inputType outputType stream tweaks w) = Throw message
  /\ carries_status (status r) message = true
  /\ carries_body (JSON_stringify host json) message = true.
Proof.
  intros Hok Hjson message. split; [|split].
  - unfold initiateSession.
    rewrite (post_responded host (fun _ => Responded r) c _ _ w r eq_refl).
    simpl fst. now rewrite Hjson, Hok.
  - unfold carries_status, message. rewrite <- append_assoc. apply prefix_app.
  - unfold message. rewrite <- !append_assoc. apply carries_body_app.
Qed.

Lemma initiateSession_remote_error_witness :
  ok (http_500 (stringify (VObj [("detail", VStr "boom")]))) = false
  /\ JSON_parse demo_host (text (http_500 (stringify (VObj [("detail", VStr "boom")]))))
     = Some (VObj [("detail", VStr "boom")])
  /\ fst (initiateSession demo_host
            (always (http_500 (stringify (VObj [("detail", VStr "boom")]))))
            (new_LangflowClient demo_env "" (Some "token")) (Some "flow") (Some "group")
            (VStr "hello") "chat" "chat" false App.tweaks (typing "hello"))
     = Throw ("500 Internal Server Error - " ++ stringify (VObj [("detail", VStr "boom")])).
Proof.
  split; [reflexivity|]. split; [reflexivity|].
  apply (initiateSession_remote_error demo_host App.AppState
           (new_LangflowClient demo_env "" (Some "token")) (Some "flow") (Some "group")
           (VStr "hello") "chat" "chat" false App.tweaks (typing "hello")
           (http_500 (stringify (VObj [("detail", VStr "boom")])))
           (VObj [("detail", VStr "boom")])); reflexivity.
Defined.

(** ** handleSubmit *)

Import App.


(** C9. When the input value is empty or made of white space only,
    [handleSubmit] returns at once: the state (messages, error, loading
    flag, input) and the log of requests are what they were. *)
Theorem handleSubmit_blank_input (host : Host) (env : Env)
        (fetch : Request -> FetchOutcome) (w : World AppState) :
  blank (inputValue (app w)) = true ->
  handleSubmit host env fetch w = (Normal tt, w).
Proof.
  intros H. unfold handleSubmit, bind, gets.
  apply trim_empty in H. now rewrite H.
Qed.

Lemma handleSubmit_blank_input_witness :
  blank "   " = true
  /\ handleSubmit demo_host demo_env (always (http_200 "{}")) (typing "   ")
     = (Normal tt, typing "   ").
Proof.
  split; [reflexivity|].
  apply (handleSubmit_blank_input demo_host demo_env (always (http_200 "{}"))
           (typing "   ")).
  reflexivity.
Defined.

(** The same network is asked once when the input is not blank. *)
Example handleSubmit_sends_once :
  List.length (log (snd (handleSubmit demo_host demo_env (always (http_200 "{}"))
                           (typing " hi ")))) = 1.
Proof. reflexivity. Qed.




(** Each of the four variants alone yields its leaf text. *)
Example variants_extracted :
  map (fun co => nested_extract co) [shape_a; shape_b; shape_c; shape_d]
  = [Some (VStr "deep"); Some (VStr "nested"); Some (VStr "direct"); Some (VStr "plain")]
  /\ map (fun co => spec_extract co) [shape_a; shape_b; shape_c; shape_d]
  = [Some (VStr "deep"); Some (VStr "nested"); Some (VStr "direct"); Some (VStr "plain")].
Proof. split; reflexivity. Qed.

(** A response whose first output has no nested output: no bot message
    and no error. *)
Example hollow_reply_is_silent :
  app (snd (handleSubmit demo_host demo_env (always (http_200 (stringify hollow)))
              (typing "hello")))
  = {| inputValue := "";
       messages := [ {| type := user; text := VStr "hello" |} ];
       isLoading := false;
       error := VStr "";
       activeTab := "dashboard" |}.
Proof. reflexivity. Qed.

(** A failed request ends in the state of an invalid response. *)
Example failed_request_state :
  app (snd (handleSubmit demo_host demo_env (always (http_500 "<html>"))
              (typing "hello")))
  = {| inputValue := "";
       messages := [ {| type := user; text := VStr "hello" |} ];
       isLoading := false;
       error := VStr "Invalid response from server";
       activeTab := "dashboard" |}.
Proof. reflexivity. Qed.

End ClientSpec.

(* ================================================================== *)
(** * The derived views against the specification *)
(* ================================================================== *)

Module DashboardSpec.
Import LangflowClient Dashboard Spec Fixtures.
Import JsFacts NumFacts DashboardFacts DistributionFacts AverageFacts.

(** ** getAverageEngagement *)

(** C4. On the CSV of the specification's example, whose rows have no
    [Shares] field, [getAverageEngagement] emits the rounded mean of
    [Likes] (15 for "video", 5 for "image") and, for [avgShares], [NaN]
    where the specification promises 0: [sum + post.Shares] adds
    [undefined] without the [|| 0] that [getStats] applies. *)
Theorem getAverageEngagement_absent_shares (host : Host) :
  getAverageEngagement host sample_rows =
  [ {| AverageEngagement.name := CStr "video";
       AverageEngagement.likes := num_of_Z 15;
       AverageEngagement.shares := NaN |};
    {| AverageEngagement.name := CStr "image";
       AverageEngagement.likes := num_of_Z 5;
       AverageEngagement.shares := NaN |} ].
Proof. reflexivity. Qed.

(** With a numeric [Shares] column the same view is the rounded mean of
    both fields: likes (10 + 21) / 2 rounds to 16, shares (3 + 4) / 2 to 4. *)
Example getAverageEngagement_shared (host : Host) :
  getAverageEngagement host shared_rows =
  [ {| AverageEngagement.name := CStr "video";
       AverageEngagement.likes := num_of_Z 16;
       AverageEngagement.shares := num_of_Z 4 |};
    {| AverageEngagement.name := CStr "image";
       AverageEngagement.likes := num_of_Z 5;
       AverageEngagement.shares := num_of_Z 1 |} ].
Proof. reflexivity. Qed.

(** [getStats] on the same rows: the missing-as-zero rule is applied there. *)
Example getStats_sample (host : Host) :
  getStats host sample_rows =
  {| Stats.totalPosts := 3; Stats.uniqueTypes := 2;
     Stats.totalViews := vint 350; Stats.totalLikes := vint 35 |}.
Proof. reflexivity. Qed.

(** C6. Every entry [getAverageEngagement] emits is named after the
    category of some input row, and is computed by dividing by the size
    of a group that holds at least one row. *)
Theorem getAverageEngagement_groups_inhabited (host : Host) (rows : list Row) :
  Forall (fun e =>
            (exists row, In row rows /\ cell row "Post_Type" = AverageEngagement.name e)
            /\ e = average host rows (AverageEngagement.name e)
            /\ 1 <= List.length (posts_of rows (AverageEngagement.name e)))
         (getAverageEngagement host rows).
Proof.
  apply Forall_forall. intros e He.
  unfold getAverageEngagement in He.
  apply (proj1 (in_map_iff _ _ _)) in He. destruct He as [type [He Htype]].
  destruct (posts_of_inhabited rows type Htype) as [row [Hrow [Hcat Hin]]].
  subst e. simpl. split; [|split].
  - exists row. now split.
  - reflexivity.
  - destruct (posts_of rows type); [contradiction | simpl; lia].
Qed.

(** ** getEngagementData *)

(** C8. [getEngagementData] returns one record per row, in the order of
    the rows: the i-th record holds the formatted [Date] and the [Likes],
    [Shares], [Comments] and [Views] of the i-th row. *)
Theorem getEngagementData_row_order (host : Host) (rows : list Row) :
  List.length (getEngagementData host rows) = List.length rows
  /\ Forall2 (fun row p =>
                EngagementPoint.date p
                = Date_toLocaleDateString host (of_cell (cell row "Date"))
                /\ EngagementPoint.likes p = cell row "Likes"
                /\ EngagementPoint.shares p = cell row "Shares"
                /\ EngagementPoint.comments p = cell row "Comments"
                /\ EngagementPoint.views p = cell row "Views")
             rows (getEngagementData host rows).
Proof.
  split.
  - unfold getEngagementData. apply length_map.
  - induction rows as [|row r IH]; simpl; constructor; auto.
Qed.

(** Rows that are not chronological stay as they are. *)
Example getEngagementData_not_sorted :
  map EngagementPoint.date
      (getEngagementData demo_host
         [ [("Date", CStr "2024-03-01"); ("Likes", CNum 3)];
           [("Date", CStr "2024-01-01"); ("Likes", CNum 1)];
           [("Date", CStr "2024-02-01"); ("Likes", CNum 2)] ])
  = ["2024-03-01"; "2024-01-01"; "2024-02-01"].
Proof. reflexivity. Qed.

(** ** getPostTypeStats *)

(** C5. A row whose [Post_Type] is "constructor" is not counted:
    [postTypeCounts["constructor"]] reads the method every object inherits,
    [|| 0] keeps it, and [+ 1] turns it into a string. The distribution
    then holds no count, while [getStats] reports one post. *)
Theorem getPostTypeStats_inherited_key (host : Host) :
  let rows := [ [("Post_Type", CStr "constructor"); ("Likes", CNum 5)] ] in
  getPostTypeStats host rows =
    [ {| PostTypeStat.name := "constructor";
         PostTypeStat.value := VStr (Builtin_toString host "constructor" ++ "1") |} ]
  /\ total_count (getPostTypeStats host rows) = None
  /\ Stats.totalPosts (getStats host rows) = 1.
Proof. repeat split. Qed.

(** A row whose [Post_Type] is "__proto__" leaves no entry at all: the
    assignment goes to the accessor, which ignores a string. *)
Example getPostTypeStats_proto_key (host : Host) :
  getPostTypeStats host [ csv_post "__proto__" 1 1; csv_post "video" 1 1 ]
  = [ {| PostTypeStat.name := "video"; PostTypeStat.value := vnat 1 |} ].
Proof. reflexivity. Qed.

(** Away from the inherited names, and for a number of rows that a
    double holds, the counts do sum to the number of rows, which is the
    [totalPosts] of [getStats]. *)
Lemma getPostTypeStats_counts_sum (host : Host) (rows : list Row) :
  plain_keys host rows = true ->
  (Z.of_nat (List.length rows) <= 2 ^ 53)%Z ->
  total_count (getPostTypeStats host rows) = Some (List.length rows)
  /\ Stats.totalPosts (getStats host rows) = List.length rows.
Proof. intros H Hsize. split; [now apply counts_sum | reflexivity]. Qed.

Example getPostTypeStats_sample (host : Host) :
  getPostTypeStats host sample_rows =
  [ {| PostTypeStat.name := "video"; PostTypeStat.value := vnat 2 |};
    {| PostTypeStat.name := "image"; PostTypeStat.value := vnat 1 |} ].
Proof. reflexivity. Qed.

(** C10. The rows whose [Post_Type] is "__proto__" are counted by no
    entry: the distribution is that of the other rows, and no entry
    carries their key. The assignment [postTypeCounts["__proto__"] = ...]
    goes to the accessor every object inherits, which ignores a string,
    so the entries do not partition the rows. *)
Theorem getPostTypeStats_ignores_proto_rows (host : Host) (rows : list Row) :
  getPostTypeStats host rows
  = getPostTypeStats host
      (filter (fun row => negb (category_key host row =? "__proto__")) rows)
  /\ forall row, In row rows -> cell row "Post_Type" = CStr "__proto__" ->
       ~ In (category_key host row) (map PostTypeStat.name (getPostTypeStats host rows)).
Proof.
  split.
  - unfold getPostTypeStats. now rewrite postTypeCounts_skips_proto.
  - intros row Hrow Hcell Hin.
    assert (category_key host row = "__proto__") as Hkey.
    { unfold category_key, ToPropertyKey. now rewrite Hcell. }
    rewrite Hkey in Hin.
    assert (In "__proto__" (map fst (postTypeCounts host rows))) as Hk.
    { eapply Permutation_in; [|exact Hin].
      unfold getPostTypeStats. rewrite map_map. simpl.
      apply Permutation_map, Object_entries_perm. }
    apply postTypeCounts_from_rows in Hk. now destruct Hk.
Qed.

Lemma getPostTypeStats_ignores_proto_rows_witness :
  let rows := [csv_post "__proto__" 5 1; csv_post "video" 100 10] in
  In (csv_post "__proto__" 5 1) rows
  /\ cell (csv_post "__proto__" 5 1) "Post_Type" = CStr "__proto__"
  /\ getPostTypeStats demo_host rows
     = [ {| PostTypeStat.name := "video"; PostTypeStat.value := vnat 1 |} ]
  /\ ~ In "__proto__" (map PostTypeStat.name (getPostTypeStats demo_host rows))
  /\ total_count (getPostTypeStats demo_host rows) = Some 1
  /\ Stats.totalPosts (getStats demo_host rows) = 2.
Proof.
  intros rows.
  assert (In (csv_post "__proto__" 5 1) rows) as Hin by now left.
  split; [exact Hin|]. split; [reflexivity|]. split; [reflexivity|].
  split; [|split; reflexivity].
  exact (proj2 (getPostTypeStats_ignores_proto_rows demo_host rows)
           (csv_post "__proto__" 5 1) Hin eq_refl).
Defined.

(** Away from the names inherited from [Object.prototype], and for a
    number of rows that a double holds, [getPostTypeStats] counts every
    row: each entry holds the number, at least one, of the rows whose key
    is its name; the names are distinct; every row's key is a name; the
    counts sum to the number of rows. *)
Lemma getPostTypeStats_partitions_plain_rows (host : Host) (rows : list Row) :
  plain_keys host rows = true ->
  (Z.of_nat (List.length rows) <= 2 ^ 53)%Z ->
  let stats := getPostTypeStats host rows in
  (forall e, In e stats ->
     PostTypeStat.value e = vnat (occurrences host (PostTypeStat.name e) rows)
     /\ 1 <= occurrences host (PostTypeStat.name e) rows)
  /\ NoDup (map PostTypeStat.name stats)
  /\ (forall row, In row rows -> In (category_key host row) (map PostTypeStat.name stats))
  /\ total_count stats = Some (List.length rows).
Proof.
  intros Hplain Hsize stats. repeat split.
  - now apply entry_counts.
  - now apply entry_counts.
  - now apply names_NoDup.
  - intros row Hrow. now apply names_cover.
  - now apply counts_sum.
Qed.

(** Among rows of one column set, as [loadData] stores them, the rows
    whose category is missing or empty are all counted by one single
    entry: "undefined" when the column is absent, "null" when it is
    there. *)
Lemma getPostTypeStats_one_entry_for_missing (host : Host) (rows : list Row) (row : Row) :
  plain_keys host rows = true ->
  (Z.of_nat (List.length rows) <= 2 ^ 53)%Z ->
  tabular rows ->
  In row rows -> missing_or_null (cell row "Post_Type") = true ->
  one_entry_for_missing host rows (getPostTypeStats host rows).
Proof.
  intros Hplain Hsize Htab Hrow Hmiss.
  pose proof (names_cover host rows Hplain Hsize row Hrow) as Hin.
  apply (proj1 (in_map_iff _ _ _)) in Hin. destruct Hin as [e [He Hin]].
  exists e. split; [exact Hin|].
  intros r Hr Hm. rewrite He. now apply (missing_share_key host rows).
Qed.

Example getPostTypeStats_empty_categories :
  getPostTypeStats demo_host
    [ [("Post_Type", CNull); ("Likes", CNum 1)];
      [("Post_Type", CStr "video"); ("Likes", CNum 2)];
      [("Post_Type", CNull); ("Likes", CNum 3)] ]
  = [ {| PostTypeStat.name := "null"; PostTypeStat.value := vnat 2 |};
      {| PostTypeStat.name := "video"; PostTypeStat.value := vnat 1 |} ].
Proof. reflexivity. Qed.

End DashboardSpec.

(* ================================================================== *)
(** * The rows of the grid *)
(* ================================================================== *)

Module RowFacts.
Import LangflowClient Dashboard Spec Terms JsFacts.

Section Spread.
Context {V : Type}.

(** Assigning the properties of [l] one after the other: each key ends
    with the value [l] gives it, the other keys stay. *)
Lemma own_fold_put (l : list (string * V)) : forall o k,
  NoDup (map fst l) ->
  own k (fold_left (fun o kv => put (fst kv) (snd kv) o) l o) =
  match own k l with
  | Some v => Some v
  | None => own k o
  end.
Proof.
  induction l as [|[k1 v1] r IH]; intros o k Hnd; simpl; auto.
  inversion Hnd as [|? ? Hnotin Hnd']. subst.
  rewrite IH by assumption.
  destruct (String.eqb_spec k1 k) as [-> | Hne].
  - assert (own k r = None) as Hr by now apply own_None.
    rewrite Hr. apply own_put_same.
  - destruct (own k r); auto. now apply own_put_other.
Qed.

Lemma own_perm (l l' : list (string * V)) k :
  NoDup (map fst l) -> Permutation l l' -> own k l' = own k l.
Proof.
  intros Hnd Hp.
  assert (NoDup (map fst l')) as Hnd'
      by (eapply Permutation_NoDup; [apply Permutation_map; exact Hp | exact Hnd]).
  destruct (own k l) as [v|] eqn:E.
  - apply own_In in E. apply In_own; auto. eapply Permutation_in; eauto.
  - apply own_None. apply own_None in E. intros Hin. apply E.
    eapply Permutation_in; [apply Permutation_map, Permutation_sym; exact Hp | exact Hin].
Qed.

End Spread.

Lemma own_dataRow row index k :
  well_formed row ->
  own k (dataRow row index) =
  match own k row with
  | Some v => Some v
  | None =>
      if k =? "id" then
        Some (if truthy (of_cell (cell row "Post_Id")) then cell row "Post_Id"
              else CNum (Z.of_nat index + 1))
      else None
  end.
Proof.
  intros Hwf. unfold dataRow.
  assert (NoDup (map fst (Object_entries row))) as Hnd.
  { eapply Permutation_NoDup; [|exact Hwf].
    apply Permutation_map, Permutation_sym, Object_entries_perm. }
  rewrite own_fold_put by assumption.
  rewrite (own_perm row (Object_entries row) k Hwf
             (Permutation_sym (Object_entries_perm row))).
  destruct (own k row); auto. cbn [own].
  destruct (String.eqb_spec k "id") as [-> | Hne]; [reflexivity|].
  destruct (String.eqb_spec "id" k); [congruence | reflexivity].
Qed.

Lemma nth_error_mapi {X Y : Type} (f : X -> nat -> Y) (l : list X) : forall s i,
  nth_error (mapi f l s) i = option_map (fun x => f x (s + i)) (nth_error l i).
Proof.
  induction l as [|x r IH]; intros s [|i]; simpl; auto.
  - now rewrite Nat.add_0_r.
  - rewrite IH. simpl. now rewrite Nat.add_succ_r.
Qed.

(** The record of a line of empty fields has the keys of the header
    and nothing but [null]. *)
Lemma blank_record_keys row : map fst (blank_record row) = map fst row.
Proof. unfold blank_record. rewrite map_map. reflexivity. Qed.

Lemma blank_record_cell row k :
  In k (map fst row) -> cell (blank_record row) k = CNull.
Proof.
  intros Hin. unfold cell, blank_record.
  induction row as [|[k0 c] r IH]; [contradiction|]. simpl.
  destruct (String.eqb_spec k0 k) as [-> | Hne]; [reflexivity|].
  apply IH. destruct Hin as [H | H]; [contradiction | exact H].
Qed.

End RowFacts.

(* ================================================================== *)
(** * loadData against the specification *)
(* ================================================================== *)

Module LoadSpec.
Import LangflowClient Dashboard Spec Terms Fixtures JsFacts RowFacts.

Lemma mapi_length {X Y : Type} (f : X -> nat -> Y) (l : list X) : forall i,
  List.length (mapi f l i) = List.length l.
Proof. induction l as [|x r IH]; intros i; simpl; auto. Qed.

(** A record with at least one field is kept, a record without any is
    dropped, and so is whatever is not a record. *)
Lemma valid_row (row : Row) : valid (DRow row) = negb (Nat.eqb (List.length row) 0).
Proof.
  unfold valid. simpl. rewrite Object_keys_length. now destruct row.
Qed.

Lemma valid_prim (c : Cell) : valid (DPrim c) = false.
Proof. now destruct c as [| |[|]|z|s]; try reflexivity; unfold valid; simpl;
         rewrite ?andb_false_r. Qed.

Section Load.
Variable env : Env.
Variable fetch : string -> FetchOutcome.
Variable Papa_parse : string -> ParseConfig -> ParseOutcome.
Variable st : DashState.

Let st' : DashState := snd (loadData env fetch Papa_parse st).

Lemma loadData_rejected m :
  fetch (csvPath env) = Rejected m ->
  st' = {| rows := rows st; columns := columns st; loading := false;
           error := Some ("Error loading CSV file: " ++ m) |}.
Proof.
  intros Hf. unfold st', loadData, try_catch, bind. rewrite Hf. reflexivity.
Qed.

Lemma loadData_not_ok r :
  fetch (csvPath env) = Responded r -> ok r = false ->
  st' = {| rows := rows st; columns := columns st; loading := false;
           error := Some ("Error loading CSV file: Failed to load CSV file: "
                          ++ statusText r) |}.
Proof.
  intros Hf Hok. unfold st', loadData, try_catch, bind. rewrite Hf. simpl.
  rewrite Hok. reflexivity.
Qed.

Lemma complete_normal results : fst (complete results st) = Normal tt.
Proof.
  unfold complete. destruct (0 <? List.length (errors results))%nat; [reflexivity|].
  destruct (map as_row (filter valid (data results))); reflexivity.
Qed.

Lemma loadData_complete r results :
  fetch (csvPath env) = Responded r -> ok r = true ->
  Papa_parse (text r) parse_options = Complete results ->
  st' = snd (complete results st).
Proof.
  intros Hf Hok Hp. unfold st', loadData, try_catch, bind. rewrite Hf. simpl.
  rewrite Hok. simpl. rewrite Hp.
  pose proof (complete_normal results) as Hn.
  destruct (complete results st) as [[[]|e] s]; [reflexivity | discriminate].
Qed.

Lemma complete_errors results :
  errors results <> [] ->
  snd (complete results st) =
  {| rows := rows st; columns := columns st; loading := loading st;
     error := Some "Error parsing CSV data" |}.
Proof.
  intros H. unfold complete. destruct (errors results); [congruence | reflexivity].
Qed.

Lemma complete_empty results :
  errors results = [] -> filter valid (data results) = [] ->
  snd (complete results st) =
  {| rows := rows st; columns := columns st; loading := loading st;
     error := Some "No valid data found in CSV" |}.
Proof. intros He Hv. unfold complete. rewrite He, Hv. reflexivity. Qed.

Lemma complete_rows results :
  errors results = [] -> filter valid (data results) <> [] ->
  rows (snd (complete results st))
    = mapi dataRow (map as_row (filter valid (data results))) 0
  /\ error (snd (complete results st)) = error st
  /\ loading (snd (complete results st)) = false.
Proof.
  intros He Hv. unfold complete. rewrite He. simpl.
  destruct (filter valid (data results)) as [|d l]; [congruence|].
  simpl. repeat split.
Qed.

End Load.

(** [loadData] ends in the error state of a failed load when the fetch
    rejects or answers with a non-success status, in the one of a parse
    failure when the parser reports errors, and in the one of an empty
    data set when the filter leaves no record; in all three the rows are
    left as they were. Otherwise the rows are the records that are left,
    one row each. *)
Lemma loadData_outcomes (env : Env) (fetch : string -> FetchOutcome)
      (Papa_parse : string -> ParseConfig -> ParseOutcome) (st : DashState) :
  let st' := snd (loadData env fetch Papa_parse st) in
  (forall m, fetch (csvPath env) = Rejected m ->
     error st' = Some ("Error loading CSV file: " ++ m) /\ rows st' = rows st)
  /\ (forall r, fetch (csvPath env) = Responded r -> ok r = false ->
        error st' = Some ("Error loading CSV file: Failed to load CSV file: "
                          ++ statusText r)
        /\ rows st' = rows st)
  /\ (forall r results,
        fetch (csvPath env) = Responded r -> ok r = true ->
        Papa_parse (text r) parse_options = Complete results ->
        (errors results <> [] ->
           error st' = Some "Error parsing CSV data" /\ rows st' = rows st)
        /\ (errors results = [] -> filter valid (data results) = [] ->
              error st' = Some "No valid data found in CSV" /\ rows st' = rows st)
        /\ (errors results = [] -> filter valid (data results) <> [] ->
              error st' = error st
              /\ rows st' = mapi dataRow (map as_row (filter valid (data results))) 0
              /\ List.length (rows st') = List.length (filter valid (data results)))).
Proof.
  intros st'. split; [|split].
  - intros m Hf. unfold st'. rewrite (loadData_rejected _ _ _ _ m Hf). now split.
  - intros r Hf Hok. unfold st'. rewrite (loadData_not_ok _ _ _ _ r Hf Hok). now split.
  - intros r results Hf Hok Hp. unfold st'.
    rewrite (loadData_complete _ _ _ _ r results Hf Hok Hp).
    split; [|split].
    + intros He. rewrite (complete_errors _ _ He). now split.
    + intros He Hv. rewrite (complete_empty _ _ He Hv). now split.
    + intros He Hv. destruct (complete_rows st results He Hv) as [Hr [Herr _]].
      rewrite Hr, Herr. repeat split.
      now rewrite mapi_length, length_map.
Qed.

(** The three error states on concrete runs; a CSV that holds nothing
    but its header gives no record. *)
Example loadData_errors :
  error (snd (loadData demo_env (fun _ => Rejected "Failed to fetch")
                (fun _ _ => Complete one_and_nulls) initial))
    = Some "Error loading CSV file: Failed to fetch"
  /\ error (snd (loadData demo_env
                   (fun _ => Responded {| status := 404; statusText := "Not Found";
                                          text := "" |})
                   (fun _ _ => Complete one_and_nulls) initial))
    = Some "Error loading CSV file: Failed to load CSV file: Not Found"
  /\ error (snd (loadData demo_env (fun _ => Responded (http_200 "csv"))
                   (fun _ _ => Complete {| data := [DRow [("Post_Type", CStr "video")]];
                                         errors := ["TooFewFields"] |})
                   initial))
    = Some "Error parsing CSV data"
  /\ error (snd (loadData demo_env (fun _ => Responded (http_200 "csv"))
                   (fun _ _ => Complete {| data := []; errors := [] |})
                   initial))
    = Some "No valid data found in CSV".
Proof. repeat split. Qed.

(** C7. A data line whose fields are all empty is not discarded. The
    parser skips a line that holds nothing, but a line of separators
    reaches [complete] as a record with the columns of the header and
    [null] in every field; the filter looks for records without keys and
    keeps it. After a record [row] and such a record, [loadData] reports
    no error and stores two rows: the fields of [row], and a row that
    holds [null] in every column of the header besides its [id]. *)
Theorem loadData_keeps_empty_record (env : Env) (fetch : string -> FetchOutcome)
        (Papa_parse : string -> ParseConfig -> ParseOutcome) (st : DashState)
        (r : Response) (row : Row) :
  fetch (csvPath env) = Responded r -> ok r = true ->
  Papa_parse (text r) parse_options
  = Complete {| data := [DRow row; DRow (blank_record row)]; errors := [] |} ->
  row <> [] -> well_formed row ->
  let st' := snd (loadData env fetch Papa_parse st) in
  error st' = error st
  /\ exists first second,
       rows st' = [first; second]
       /\ (forall k, k <> "id" -> cell first k = cell row k)
       /\ (forall k, In k (map fst row) -> cell second k = CNull)
       /\ (~ In "id" (map fst row) -> cell second "id" = CNum 2).
Proof.
  intros Hf Hok Hp Hne Hwf st'. unfold st'.
  rewrite (loadData_complete _ _ _ _ r _ Hf Hok Hp).
  assert (filter valid [DRow row; DRow (blank_record row)]
          = [DRow row; DRow (blank_record row)]) as Hv.
  { simpl. rewrite !valid_row. unfold blank_record. rewrite length_map.
    now destruct row. }
  destruct (complete_rows st {| data := [DRow row; DRow (blank_record row)];
                                errors := [] |} eq_refl) as [Hr [Herr _]].
  { cbn [data]. rewrite Hv. discriminate. }
  cbn [data] in Hr. rewrite Hv in Hr. simpl in Hr.
  split; [exact Herr|].
  exists (dataRow row 0), (dataRow (blank_record row) 1).
  assert (well_formed (blank_record row)) as Hwb.
  { unfold well_formed. now rewrite blank_record_keys. }
  split; [exact Hr|]. split; [|split].
  - intros k Hk. unfold cell. rewrite own_dataRow by assumption.
    destruct (own k row); [reflexivity|].
    destruct (String.eqb_spec k "id"); [contradiction | reflexivity].
  - intros k Hin. pose proof (blank_record_cell row k Hin) as Hc.
    unfold cell in *. rewrite own_dataRow by assumption.
    destruct (own k (blank_record row)) as [c|] eqn:E; [exact Hc|].
    apply own_None in E. rewrite blank_record_keys in E. contradiction.
  - intros Hid. unfold cell. rewrite own_dataRow by assumption.
    assert (own "id" (blank_record row) = None) as ->.
    { apply own_None. now rewrite blank_record_keys. }
    cbn [String.eqb Ascii.eqb Bool.eqb].
    destruct (in_dec string_dec "Post_Id" (map fst row)) as [Hp' | Hp'].
    + pose proof (blank_record_cell row "Post_Id" Hp') as Hc. now rewrite Hc.
    + assert (own "Post_Id" (blank_record row) = None) as Hn.
      { apply own_None. now rewrite blank_record_keys. }
      unfold cell. now rewrite Hn.
Qed.

Lemma loadData_keeps_empty_record_witness :
  let row := csv_post "video" 100 10 in
  ok (http_200 "csv") = true
  /\ one_and_nulls = {| data := [DRow row; DRow (blank_record row)]; errors := [] |}
  /\ row <> []
  /\ well_formed row
  /\ (let st' := snd (loadData demo_env (fun _ => Responded (http_200 "csv"))
                        (fun _ _ => Complete one_and_nulls) initial) in
      error st' = None
      /\ rows st'
         = [ [("id", CNum 1); ("Post_Type", CStr "video"); ("Views", CNum 100);
              ("Likes", CNum 10)];
             [("id", CNum 2); ("Post_Type", CNull); ("Views", CNull);
              ("Likes", CNull)] ]).
Proof.
  intros row.
  assert (row <> []) as Hne by discriminate.
  assert (well_formed row) as Hwf.
  { unfold well_formed. simpl. repeat constructor; simpl; intuition discriminate. }
  split; [reflexivity|]. split; [reflexivity|]. split; [exact Hne|].
  split; [exact Hwf|].
  destruct (loadData_keeps_empty_record demo_env (fun _ => Responded (http_200 "csv"))
              (fun _ _ => Complete one_and_nulls) initial (http_200 "csv") row
              eq_refl eq_refl eq_refl Hne Hwf) as [Herr _].
  split; [exact Herr | reflexivity].
Defined.

End LoadSpec.

(* ================================================================== *)
(** * Further properties of the chat client *)
(* ================================================================== *)

Module ChatFacts.
Import LangflowClient Spec Terms ClientFacts AppFacts RequestFacts EffectFacts.

Section Chat.
Variable host : Host.

(** [post] in one equation. *)
Lemma post_outcome {A : Type} fetch c endpoint body (w : World A) :
  post host fetch c endpoint body w =
  (match fetch (sent host c endpoint body) with
   | Rejected m => Throw m
   | Responded r =>
       match JSON_parse host (text r) with
       | None => Throw "Invalid JSON response from server"
       | Some json =>
           if ok r then Normal json
           else Throw (decimal_N (status r) ++ " " ++ statusText r ++ " - "
                       ++ JSON_stringify host json)
       end
   end,
   logged (HttpRequest (sent host c endpoint body)) w).
Proof.
  destruct (fetch (sent host c endpoint body)) as [m | r] eqn:Hf.
  - now apply post_rejected.
  - now apply post_responded.
Qed.

Lemma post_failed {A : Type} fetch c endpoint body (w : World A) :
  failed host (fetch (sent host c endpoint body)) = true ->
  exists e, post host fetch c endpoint body w =
            (Throw e, logged (HttpRequest (sent host c endpoint body)) w).
Proof.
  intros H. rewrite post_outcome.
  destruct (fetch (sent host c endpoint body)) as [m | r]; simpl in H.
  - now exists m.
  - destruct (JSON_parse host (text r)) as [json|]; [|eauto].
    rewrite orb_false_r in H. apply negb_true_iff in H. rewrite H. eauto.
Qed.

Lemma post_answered {A : Type} fetch c endpoint body (w : World A) :
  failed host (fetch (sent host c endpoint body)) = false ->
  post host fetch c endpoint body w =
  (Normal (answer host (fetch (sent host c endpoint body))),
   logged (HttpRequest (sent host c endpoint body)) w).
Proof.
  intros H. rewrite post_outcome.
  destruct (fetch (sent host c endpoint body)) as [m | r]; simpl in *; [discriminate|].
  destruct (JSON_parse host (text r)) as [json|]; [|now rewrite orb_true_r in H].
  rewrite orb_false_r in H. apply negb_false_iff in H. now rewrite H.
Qed.

(** A response with a first output that has no nested output changes
    nothing. *)
Lemma show_response_silent response w :
  truthy (path response ["outputs"; "0"]) = true ->
  truthy (component_output response) = false ->
  App.show_response host response w = (Normal tt, w).
Proof.
  intros Hf Hco.
  assert (truthy response = true) as Hr by (apply path_truthy in Hf; [auto | discriminate]).
  unfold component_output in Hco.
  rewrite path_cons in Hf, Hco by assumption.
  assert (truthy (get_prop response "outputs") = true) as Ho
      by (apply path_truthy in Hf; [auto | discriminate]).
  rewrite path_cons in Hco by assumption. rewrite path1 in Hf by assumption.
  rewrite path_cons in Hco by assumption.
  unfold App.show_response, App.get, App.js_and, bind.
  rewrite js_and_get. unfold and_get. rewrite Hr.
  rewrite js_and_get. unfold and_get. rewrite Ho, Hf.
  rewrite (get_normal host _ "outputs" w Hf), js_and_get.
  destruct (and_get_path
              (get_prop (get_prop (get_prop response "outputs") "0") "outputs") "0")
    as [Ht _].
  rewrite Ht, Hco. reflexivity.
Qed.

(** [handleSubmit]'s reading of a response, whatever the response. *)
Lemma show_response_shown response w :
  App.show_response host response w = (Normal tt, shown response w).
Proof.
  unfold shown.
  destruct (truthy (path response ["outputs"; "0"])) eqn:Hf.
  - destruct (truthy (component_output response)) eqn:Hco.
    + now apply show_response_nested.
    + now apply show_response_silent.
  - now apply show_response_invalid.
Qed.

Variable env : Env.
Variable fetch : Request -> FetchOutcome.

(** [handleSubmit] on an input that is not blank, in one equation. *)
Lemma handleSubmit_run (w : World App.AppState) :
  blank (App.inputValue (app w)) = false ->
  let req := chat_request host env (App.inputValue (app w)) in
  let w1 := logged (HttpRequest req) (asked w) in
  App.handleSubmit host env fetch w =
  (Normal tt,
   settled (if failed host (fetch req)
            then fail "Invalid response from server" w1
            else shown (answer host (fetch req)) w1)).
Proof.
  intros Hin req w1.
  unfold App.handleSubmit, bind, gets. cbv beta iota.
  assert (truthy (VStr (trim (App.inputValue (app w)))) = true) as Ht.
  { simpl. destruct (String.eqb_spec (trim (App.inputValue (app w))) ""); auto.
    apply trim_empty in e. congruence. }
  rewrite Ht. change (negb true) with false. cbv beta iota.
  unfold App.handleSubmit_body, try_finally, try_catch, bind.
  unfold App.setIsLoading, App.setError, App.setMessages, App.setInputValue, update, modify.
  cbv beta iota.
  rewrite runFlow_plain. unfold initiateSession.
  match goal with
  | |- context [post host fetch ?c ?e ?b ?w0] =>
      change (sent host c e b) with req in *;
      assert (sent host c e b = req) as Hreq by reflexivity;
      change w0 with (asked w)
  end.
  destruct (failed host (fetch req)) eqn:Hfail.
  - rewrite <- Hreq in Hfail.
    match goal with
    | |- context [post host fetch ?c ?e ?b ?w0] =>
        destruct (post_failed fetch c e b w0 Hfail) as [err Hp]; rewrite Hp
    end.
    rewrite Hreq. fold w1. cbv beta iota.
    unfold App.get, LangflowClient.get. simpl get_prop. unfold ret. cbv beta iota.
    rewrite show_response_shown. reflexivity.
  - rewrite <- Hreq in Hfail.
    match goal with
    | |- context [post host fetch ?c ?e ?b ?w0] =>
        rewrite (post_answered fetch c e b w0 Hfail)
    end.
    rewrite Hreq. fold w1. cbv beta iota.
    rewrite show_response_shown. reflexivity.
Qed.

End Chat.

End ChatFacts.

Module StreamingFacts.
Import LangflowClient Spec Terms ClientFacts AppFacts RequestFacts ChatFacts.

Section Reading.
Variable host : Host.
Context {A : Type}.
Implicit Types (v : JsVal) (w : World A).

Lemma bind_ret {X} (m : M (World A) X) w : bind m (fun x => ret x) w = m w.
Proof. unfold bind, ret. now destruct (m w) as [[x | e] w']. Qed.






Variable fetch : Request -> FetchOutcome.

Lemma initiateSession_answered c flowId langflowId inputValue inputType outputType
      stream tweaks w :
  let req := session_request host c flowId langflowId inputValue inputType outputType
               stream tweaks in
  failed host (fetch req) = false ->
  initiateSession host fetch c flowId langflowId inputValue inputType outputType
                  stream tweaks w
  = (Normal (answer host (fetch req)), logged (HttpRequest req) w).
Proof. intros req H. unfold initiateSession. now apply post_answered. Qed.




End Reading.

End StreamingFacts.

Module ChatProperties.
Import LangflowClient Spec Terms Fixtures Samples.
Import ClientFacts AppFacts RequestFacts EffectFacts ChatFacts StreamingFacts.

(** ** post *)

(** [post] resolves, and then to the parsed body, exactly when the fetch
    resolved to a response with a 2xx status and a body that is JSON. *)
Theorem post_resolves_iff (host : Host) (A : Type) (fetch : Request -> FetchOutcome)
        (c : Client) (endpoint : string) (body json : JsVal) (w : World A) :
  fst (post host fetch c endpoint body w) = Normal json
  <-> exists r, fetch (sent host c endpoint body) = Responded r
                /\ ok r = true /\ JSON_parse host (text r) = Some json.
Proof.
  rewrite post_outcome. simpl fst.
  destruct (fetch (sent host c endpoint body)) as [m | r].
  - split; [discriminate | intros [r [H _]]; discriminate].
  - destruct (JSON_parse host (text r)) as [j|] eqn:Hj.
    + destruct (ok r) eqn:Hok.
      * split.
        -- intros H. inversion H. subst. exists r. now rewrite Hj.
        -- intros [r' [Hr [_ Hp]]]. inversion Hr. subst r'. congruence.
      * split; [discriminate|].
        intros [r' [Hr [Hok' _]]]. inversion Hr. subst r'. congruence.
    + split; [discriminate|].
      intros [r' [Hr [_ Hp]]]. inversion Hr. subst r'. congruence.
Qed.

(** Whatever comes back, [post] sends exactly one request: a POST to
    [baseURL] followed by the endpoint, with the JSON content type, the
    bearer token and the serialised body; it touches nothing else. *)
Theorem post_sends_one_request (host : Host) (A : Type) (fetch : Request -> FetchOutcome)
        (c : Client) (endpoint : string) (body : JsVal) (w : World A) :
  log (snd (post host fetch c endpoint body w)) =
    List.app (log w)
      [HttpRequest
         {| url := baseURL c ++ endpoint;
            method := "POST";
            headers := [("Content-Type", "application/json");
                        ("Authorization", "Bearer " ++ tmpl (applicationToken c))];
            LangflowClient.body := JSON_stringify host body;
            credentials := "same-origin" |}]
  /\ app (snd (post host fetch c endpoint body w)) = app w.
Proof. rewrite post_outcome. split; reflexivity. Qed.

(** ** runFlow *)

(** [runFlow] never rejects when [onError] returns: a failure is only
    ever told to [onError]. *)
Theorem runFlow_never_rejects (host : Host) (A : Type) (fetch : Request -> FetchOutcome)
        (c : Client) (flowId langflowId : option string) (inputValue : JsVal)
        (inputType outputType : string) (tweaks : JsVal) (stream : bool)
        (onError : JsVal -> M (World A) unit) (w : World A) :
  returns onError ->
  exists v w',
    runFlow host fetch c flowId langflowId inputValue inputType outputType tweaks
            stream onError w = (Normal v, w').
Proof.
  intros Hret. unfold runFlow, try_catch.
  match goal with
  | |- exists v w', (let (_, _) := ?run in _) = _ => destruct run as [[v | e] w1]
  end.
  - exists v, w1. reflexivity.
  - unfold bind. destruct (Hret (VStr "Error initiating session") w1) as [w2 H2].
    rewrite H2. exists VUndef, w2. reflexivity.
Qed.

Lemma runFlow_never_rejects_witness :
  returns tally
  /\ exists v w',
       runFlow demo_host (always (http_500 "<html>"))
               (new_LangflowClient demo_env "" (Some "token")) (Some "flow") (Some "group")
               (VStr "hi") "chat" "chat" App.tweaks true tally
               {| app := (0, VUndef); log := [] |} = (Normal v, w').
Proof.
  assert (returns tally) as H by (intros v w; eexists; reflexivity).
  split; [exact H|].
  apply (runFlow_never_rejects demo_host (nat * JsVal)%type (always (http_500 "<html>"))
           (new_LangflowClient demo_env "" (Some "token")) (Some "flow") (Some "group")
           (VStr "hi") "chat" "chat" App.tweaks true tally
           {| app := (0, VUndef); log := [] |} H).
Defined.



(** Without streaming, a request that did not fail resolves to the
    parsed body as it is, whatever its shape: nothing is read from it,
    [onError] is not called and no event source is opened. *)
Theorem runFlow_passes_response (host : Host) (A : Type) (fetch : Request -> FetchOutcome)
        (c : Client) (flowId langflowId : option string) (inputValue : JsVal)
        (inputType outputType : string) (tweaks : JsVal)
        (onError : JsVal -> M (World A) unit) (w : World A) :
  let req := session_request host c flowId langflowId inputValue inputType outputType
               false tweaks in
  failed host (fetch req) = false ->
  runFlow host fetch c flowId langflowId inputValue inputType outputType tweaks
          false onError w
  = (Normal (answer host (fetch req)), logged (HttpRequest req) w).
Proof.
  intros req Hf. rewrite runFlow_plain.
  now rewrite (initiateSession_answered host fetch c flowId langflowId inputValue
                 inputType outputType false tweaks w Hf).
Qed.

Lemma runFlow_passes_response_witness :
  let fetch := always (http_200 (stringify no_outputs)) in
  let c := new_LangflowClient demo_env "" (Some "token") in
  failed stream_host
    (fetch (session_request stream_host c (Some "flow") (Some "group") (VStr "hi")
              "chat" "chat" false App.tweaks)) = false
  /\ (let end_ := runFlow stream_host fetch c (Some "flow") (Some "group") (VStr "hi")
                    "chat" "chat" App.tweaks false tally
                    {| app := (0, VUndef); log := [] |} in
      fst end_ = Normal no_outputs /\ app (snd end_) = (0, VUndef)).
Proof.
  intros fetch c. split; [reflexivity|].
  rewrite (runFlow_passes_response stream_host (nat * JsVal)%type fetch c
             (Some "flow") (Some "group") (VStr "hi") "chat" "chat" App.tweaks tally
             {| app := (0, VUndef); log := [] |} eq_refl).
  split; reflexivity.
Defined.



(** An address that does not parse: the request is the only effect, and
    the failure is told to [onError]. *)
Example runFlow_bad_stream_address :
  let fetch := always (http_200 (stringify bad_address)) in
  let c := new_LangflowClient demo_env "" (Some "token") in
  let end_ := runFlow stream_host fetch c (Some "flow") (Some "group") (VStr "hi")
                "chat" "chat" App.tweaks true tally
                {| app := (0, VUndef); log := [] |} in
  fst end_ = Normal VUndef
  /\ app (snd end_) = (1, VStr "Error initiating session")
  /\ List.length (log (snd end_)) = 1.
Proof. repeat split. Qed.



End ChatProperties.

Module SubmitProperties.
Import LangflowClient Spec Terms Fixtures Samples.
Import ClientFacts AppFacts RequestFacts EffectFacts ChatFacts.
Import App.

(** Whatever the network and the service answer, [handleSubmit] on an
    input that is not blank ends normally with the loading flag off and
    the input field empty; the messages are the former ones, then the
    user's text, then at most one bot message, whose text is not empty;
    and a bot message never comes with an error. *)
Theorem handleSubmit_settles (host : Host) (env : Env) (fetch : Request -> FetchOutcome)
        (w : World AppState) :
  blank (inputValue (app w)) = false ->
  let w' := snd (handleSubmit host env fetch w) in
  fst (handleSubmit host env fetch w) = Normal tt
  /\ isLoading (app w') = false
  /\ inputValue (app w') = ""
  /\ activeTab (app w') = activeTab (app w)
  /\ exists bots,
       messages (app w')
       = (messages (app w)
          ++ [ {| type := user; text := VStr (inputValue (app w)) |} ] ++ bots)%list
       /\ List.length bots <= 1
       /\ Forall (fun m => type m = bot /\ truthy (text m) = true) bots
       /\ (bots <> [] -> error (app w') = VStr "").
Proof.
  intros Hin w'. unfold w'. rewrite (handleSubmit_run host env fetch w Hin).
  simpl fst. simpl snd. split; [reflexivity|].
  destruct (failed host (fetch (chat_request host env (inputValue (app w))))).
  - repeat (split; [reflexivity|]). exists []. simpl.
    repeat split; auto; congruence.
  - unfold shown.
    destruct (truthy (path (answer host _) ["outputs"; "0"])).
    + destruct (truthy (component_output (answer host _))).
      * destruct (nested_extract (component_output (answer host _))) as [t|] eqn:E.
        -- repeat (split; [reflexivity|]).
           exists [ {| type := bot; text := t |} ]. simpl.
           rewrite <- app_assoc. repeat split; auto.
           constructor; [|constructor]. split; [reflexivity|].
           now apply nested_extract_truthy in E.
        -- repeat (split; [reflexivity|]). exists []. simpl.
           repeat split; auto; congruence.
      * repeat (split; [reflexivity|]). exists []. simpl.
        repeat split; auto; congruence.
    + repeat (split; [reflexivity|]). exists []. simpl.
      repeat split; auto; congruence.
Qed.

Lemma handleSubmit_settles_witness :
  blank (inputValue (app (typing "hello"))) = false
  /\ (let w' := snd (handleSubmit demo_host demo_env (always (http_500 "<html>"))
                       (typing "hello")) in
      isLoading (app w') = false /\ inputValue (app w') = "").
Proof.
  split; [reflexivity|].
  destruct (handleSubmit_settles demo_host demo_env (always (http_500 "<html>"))
              (typing "hello") eq_refl) as [_ [H1 [H2 _]]].
  split; assumption.
Defined.

(** When the request fails in any way (fetch rejected, status not 2xx,
    body not JSON), the chat keeps the user's message, adds no bot
    message and shows "Invalid response from server": the cause of the
    failure is not shown. *)
Theorem handleSubmit_request_failed (host : Host) (env : Env)
        (fetch : Request -> FetchOutcome) (w : World AppState) :
  blank (inputValue (app w)) = false ->
  failed host (fetch (chat_request host env (inputValue (app w)))) = true ->
  app (snd (handleSubmit host env fetch w)) =
  {| inputValue := "";
     messages := (messages (app w)
                  ++ [ {| type := user; text := VStr (inputValue (app w)) |} ])%list;
     isLoading := false;
     error := VStr "Invalid response from server";
     activeTab := activeTab (app w) |}.
Proof.
  intros Hin Hf. rewrite (handleSubmit_run host env fetch w Hin). simpl snd.
  now rewrite Hf.
Qed.

Lemma handleSubmit_request_failed_witness :
  blank (inputValue (app (typing "hello"))) = false
  /\ failed demo_host (Rejected "Failed to fetch") = true
  /\ error (app (snd (handleSubmit demo_host demo_env (fun _ => Rejected "Failed to fetch")
                        (typing "hello"))))
     = VStr "Invalid response from server".
Proof.
  split; [reflexivity|]. split; [reflexivity|].
  now rewrite (handleSubmit_request_failed demo_host demo_env
                 (fun _ => Rejected "Failed to fetch") (typing "hello") eq_refl eq_refl).
Defined.

(** A response without a first output is shown like a failed request:
    "Invalid response from server" and no bot message. *)
Theorem handleSubmit_without_first_output (host : Host) (env : Env)
        (fetch : Request -> FetchOutcome) (w : World AppState) :
  let o := fetch (chat_request host env (inputValue (app w))) in
  blank (inputValue (app w)) = false ->
  failed host o = false ->
  truthy (path (answer host o) ["outputs"; "0"]) = false ->
  app (snd (handleSubmit host env fetch w)) =
  {| inputValue := "";
     messages := (messages (app w)
                  ++ [ {| type := user; text := VStr (inputValue (app w)) |} ])%list;
     isLoading := false;
     error := VStr "Invalid response from server";
     activeTab := activeTab (app w) |}.
Proof.
  intros o Hin Hf Hno. rewrite (handleSubmit_run host env fetch w Hin). simpl snd.
  fold o. rewrite Hf. unfold shown. now rewrite Hno.
Qed.

Lemma handleSubmit_without_first_output_witness :
  blank (inputValue (app (typing "hello"))) = false
  /\ failed demo_host (Responded (http_200 "{}")) = false
  /\ truthy (path (answer demo_host (Responded (http_200 "{}"))) ["outputs"; "0"]) = false
  /\ error (app (snd (handleSubmit demo_host demo_env (always (http_200 "{}"))
                        (typing "hello"))))
     = VStr "Invalid response from server".
Proof.
  repeat (split; [reflexivity|]).
  now rewrite (handleSubmit_without_first_output demo_host demo_env
                 (always (http_200 "{}")) (typing "hello") eq_refl eq_refl eq_refl).
Defined.

(** A response whose first output has no nested output leaves the chat
    without a bot message and without an error: the user's message is
    the only trace of the exchange. *)
Theorem handleSubmit_without_nested_output (host : Host) (env : Env)
        (fetch : Request -> FetchOutcome) (w : World AppState) :
  let o := fetch (chat_request host env (inputValue (app w))) in
  blank (inputValue (app w)) = false ->
  failed host o = false ->
  truthy (path (answer host o) ["outputs"; "0"]) = true ->
  truthy (component_output (answer host o)) = false ->
  app (snd (handleSubmit host env fetch w)) =
  {| inputValue := "";
     messages := (messages (app w)
                  ++ [ {| type := user; text := VStr (inputValue (app w)) |} ])%list;
     isLoading := false;
     error := VStr "";
     activeTab := activeTab (app w) |}.
Proof.
  intros o Hin Hf Hfirst Hno. rewrite (handleSubmit_run host env fetch w Hin). simpl snd.
  fold o. rewrite Hf. unfold shown. now rewrite Hfirst, Hno.
Qed.

Lemma handleSubmit_without_nested_output_witness :
  let o := Responded (http_200 (stringify hollow)) in
  blank (inputValue (app (typing "hello"))) = false
  /\ failed demo_host o = false
  /\ truthy (path (answer demo_host o) ["outputs"; "0"]) = true
  /\ truthy (component_output (answer demo_host o)) = false
  /\ app (snd (handleSubmit demo_host demo_env (always (http_200 (stringify hollow)))
                 (typing "hello")))
     = {| inputValue := "";
          messages := [ {| type := user; text := VStr "hello" |} ];
          isLoading := false;
          error := VStr "";
          activeTab := "dashboard" |}.
Proof.
  intros o. repeat (split; [reflexivity|]).
  now rewrite (handleSubmit_without_nested_output demo_host demo_env
                 (always (http_200 (stringify hollow))) (typing "hello")
                 eq_refl eq_refl eq_refl eq_refl).
Defined.

(** On an input that is not blank [handleSubmit] reaches the outside
    once and only by one request: a POST to
    [<PUBLIC_URL>/api/lf/<langflow id>/api/v1/run/<flow id>?stream=false]
    with the bearer token, carrying the input as [input_value]; an unset
    environment variable goes out as the text "undefined". No event
    source is opened. *)
Theorem handleSubmit_request (host : Host) (env : Env)
        (fetch : Request -> FetchOutcome) (w : World AppState) :
  blank (inputValue (app w)) = false ->
  log (snd (handleSubmit host env fetch w)) =
  List.app (log w)
    [HttpRequest
       {| url := (tmpl (PUBLIC_URL env) ++ "/api")
                 ++ ("/lf/" ++ tmpl (REACT_APP_LANGFLOW_ID env)
                     ++ "/api/v1/run/" ++ tmpl (REACT_APP_FLOW_ID env)
                     ++ "?stream=false");
          method := "POST";
          headers := [("Content-Type", "application/json");
                      ("Authorization", "Bearer " ++ tmpl (REACT_APP_ASTRA_TOKEN env))];
          body := JSON_stringify host
                    (VObj [ ("input_value", VStr (inputValue (app w)));
                            ("input_type", VStr "chat");
                            ("output_type", VStr "chat");
                            ("tweaks", tweaks) ]);
          credentials := "same-origin" |}].
Proof.
  intros Hin. rewrite (handleSubmit_run host env fetch w Hin). simpl snd.
  destruct (failed host (fetch (chat_request host env (inputValue (app w)))));
    [reflexivity|].
  unfold shown.
  destruct (truthy (path (answer host _) ["outputs"; "0"])); [|reflexivity].
  destruct (truthy (component_output (answer host _))); [|reflexivity].
  destruct (nested_extract (component_output (answer host _))); reflexivity.
Qed.

Lemma handleSubmit_request_witness :
  let unset := {| PUBLIC_URL := None; NODE_ENV := None; REACT_APP_FLOW_ID := None;
                  REACT_APP_LANGFLOW_ID := Some "group"; REACT_APP_ASTRA_TOKEN := None |} in
  blank (inputValue (app (typing "hello"))) = false
  /\ map (fun e => match e with
                   | HttpRequest req => (url req, headers req)
                   | OpenEventSource _ => ("", [])
                   end)
         (log (snd (handleSubmit demo_host unset (always (http_200 "{}"))
                      (typing "hello"))))
     = [ ("undefined/api/lf/group/api/v1/run/undefined?stream=false",
          [("Content-Type", "application/json"); ("Authorization", "Bearer undefined")]) ].
Proof.
  intros unset. split; [reflexivity|].
  now rewrite (handleSubmit_request demo_host unset (always (http_200 "{}"))
                 (typing "hello") eq_refl).
Defined.

End SubmitProperties.

(* ================================================================== *)
(** * Properties of the stream listeners *)
(* ================================================================== *)

Module StreamFacts.
Import Stream Terms.

Section Listeners.
Variable host : Host.
Variable completes : list Call -> Call -> bool.

Lemma dispatch_closed s ev : closed s = true -> dispatch host completes s ev = s.
Proof. intros H. unfold dispatch. now rewrite H. Qed.

Lemma receive_closed evs : forall s,
  closed s = true -> receive host completes evs s = s.
Proof.
  induction evs as [|ev r IH]; intros s H; simpl; auto.
  rewrite dispatch_closed by assumption. now apply IH.
Qed.


Hypothesis Hquiet : ends_quietly completes.

(** One event on an open subscription. *)
Lemma dispatch_open s ev :
  closed s = false ->
  dispatch host completes s ev =
  {| closed := terminal ev; calls := (calls s ++ caused host ev)%list |}.
Proof.
  intros H. unfold dispatch. rewrite H. destruct s as [cl cs]. simpl in H. subst cl.
  destruct ev as [type data|]; simpl.
  - destruct (String.eqb_spec type "message") as [-> | Hm].
    + simpl. destruct (JSON_parse host data); [reflexivity|].
      now rewrite app_nil_r.
    + destruct (String.eqb_spec type "error") as [-> | He].
      { unfold onerror. now rewrite Hquiet. }
      destruct (String.eqb_spec type "close") as [-> | Hc].
      { unfold on_close. now rewrite Hquiet. }
      simpl. now rewrite app_nil_r.
  - unfold onerror. now rewrite Hquiet.
Qed.

(** A run of events on an open subscription. *)
Lemma receive_open evs : forall s,
  closed s = false ->
  receive host completes evs s =
  {| closed := existsb terminal evs; calls := (calls s ++ delivered host evs)%list |}.
Proof.
  induction evs as [|ev r IH]; intros s H.
  - destruct s as [cl cs]. simpl in *. subst cl. now rewrite app_nil_r.
  - change (receive host completes (ev :: r) s)
      with (receive host completes r (dispatch host completes s ev)).
    rewrite dispatch_open by assumption. simpl existsb. simpl delivered.
    destruct (terminal ev) eqn:Ht.
    + now rewrite receive_closed.
    + rewrite IH by reflexivity. simpl. now rewrite app_assoc.
Qed.

End Listeners.

Section Shapes.
Variable host : Host.

Lemma caused_shape ev :
  if terminal ev
  then exists c, caused host ev = [c] /\ is_update c = false
  else Forall (fun c => is_update c = true) (caused host ev).
Proof.
  destruct ev as [type data|]; simpl.
  - destruct (String.eqb_spec type "message") as [-> | Hm].
    + simpl. destruct (JSON_parse host data); repeat constructor.
    + destruct (String.eqb_spec type "error") as [-> | He]; simpl; [eauto|].
      destruct (String.eqb_spec type "close") as [-> | Hc]; simpl; [eauto|].
      constructor.
  - eauto.
Qed.

Lemma delivered_shape evs :
  exists updates last,
    delivered host evs = (updates ++ last)%list
    /\ Forall (fun c => is_update c = true) updates
    /\ (if existsb terminal evs
        then exists c, last = [c] /\ is_update c = false
        else last = []).
Proof.
  induction evs as [|ev r IH]; simpl.
  - exists [], []. repeat split; auto.
  - pose proof (caused_shape ev) as Hc. destruct (terminal ev); simpl.
    + destruct Hc as [c [Hc Hu]]. exists [], [c]. rewrite Hc. repeat split; eauto.
    + destruct IH as [updates [last [Hd [Hu Hl]]]].
      exists (caused host ev ++ updates)%list, last. rewrite Hd.
      rewrite app_assoc. repeat split; auto. now apply Forall_app.
Qed.

End Shapes.

End StreamFacts.

Module StreamProperties.
Import Stream Terms Fixtures Samples StreamFacts.

(** When [onError] and [onClose] return normally, the callbacks a
    subscription makes are those of the events received, in the order
    received, up to and including the first event that ends it (an event
    named "close", an event named "error" or the failure of the
    connection); a message whose data is not JSON causes none and does
    not end it, and neither does an [onUpdate] that throws. The source is
    closed exactly when such an event came. *)
Theorem receive_in_order (host : Host) (completes : list Call -> Call -> bool)
        (evs : list StreamEvent) :
  ends_quietly completes ->
  receive host completes evs fresh =
  {| closed := existsb terminal evs; calls := delivered host evs |}.
Proof. intros Hq. now rewrite receive_open. Qed.

Lemma receive_in_order_witness :
  ends_quietly patient
  /\ receive stream_host patient recorded fresh
     = {| closed := true;
          calls := [onUpdate (vint 1); onUpdate (vint 2);
                    onClose (VStr "Stream closed")] |}.
Proof.
  assert (ends_quietly patient) as Hq by (intros before c _; reflexivity).
  split; [exact Hq|].
  now rewrite (receive_in_order stream_host patient recorded Hq).
Defined.



(** When [onError] and [onClose] return normally, at most one of them is
    ever called, at most once, and only as the last call: every call
    before it is an [onUpdate], and the source is closed exactly when
    that last call was made. *)
Theorem receive_ends_once (host : Host) (completes : list Call -> Call -> bool)
        (evs : list StreamEvent) :
  ends_quietly completes ->
  exists updates last,
    calls (receive host completes evs fresh) = (updates ++ last)%list
    /\ Forall (fun c => is_update c = true) updates
    /\ (last = [] /\ closed (receive host completes evs fresh) = false
        \/ (exists c, last = [c] /\ is_update c = false)
           /\ closed (receive host completes evs fresh) = true).
Proof.
  intros Hq. rewrite (receive_open host completes Hq) by reflexivity. simpl.
  destruct (delivered_shape host evs) as [updates [last [Hd [Hu Hl]]]].
  exists updates, last. repeat split; auto.
  destruct (existsb terminal evs); [right | left]; auto.
Qed.

Lemma receive_ends_once_witness :
  ends_quietly patient
  /\ exists updates last,
       calls (receive stream_host patient recorded fresh) = (updates ++ last)%list
       /\ Forall (fun c => is_update c = true) updates
       /\ (last = [] /\ closed (receive stream_host patient recorded fresh) = false
           \/ (exists c, last = [c] /\ is_update c = false)
              /\ closed (receive stream_host patient recorded fresh) = true).
Proof.
  assert (ends_quietly patient) as Hq by (intros before c _; reflexivity).
  split; [exact Hq|].
  exact (receive_ends_once stream_host patient recorded Hq).
Defined.

(** An [onError] that throws keeps [eventSource.close()] from being
    reached: the source stays open, the later events are delivered, and
    [onError] is called again. *)
Example receive_failing_onError :
  receive stream_host failing_onError
    [ ConnectionError; ServerEvent "message" "1"; ServerEvent "error" "";
      ServerEvent "close" ""; ServerEvent "message" "2" ] fresh
  = {| closed := true;
       calls := [ onError (event_val ConnectionError); onUpdate (vint 1);
                  onError (event_val (ServerEvent "error" ""));
                  onClose (VStr "Stream closed") ] |}.
Proof. reflexivity. Qed.

End StreamProperties.

(* ================================================================== *)
(** * Further properties of the Dashboard *)
(* ================================================================== *)

Module ViewFacts.
Import LangflowClient Dashboard Spec Terms.
Import JsFacts NumFacts DashboardFacts DistributionFacts AverageFacts.

Section Totals.
Variable host : Host.

(** One turn of a [reduce] of [getStats] over a field that is not text. *)
Lemma add_amount a c z :
  amount c = Some z ->
  (Z.abs (a + z) <= 2 ^ 53)%Z ->
  js_add host (vint a) (js_or (of_cell c) (vint 0)) = vint (a + z).
Proof.
  intros H Hb.
  assert (js_or (of_cell c) (vint 0) = vint z
          \/ (js_or (of_cell c) (vint 0) = VBool true /\ z = 1%Z)) as [-> | [-> ->]].
  { destruct c as [| |[|]|n|s]; simpl in H; inversion H; subst; auto.
    - left. unfold js_or. simpl truthy. unfold num_of_Z, Qis_zero. simpl.
      now destruct (Z.eqb_spec z 0) as [-> | Hz].
    - destruct (String.eqb_spec s "") as [-> | Hs]; [|discriminate].
      inversion H1. now left. }
  - now apply js_add_ints.
  - rewrite <- (js_add_ints host a 1) by assumption. reflexivity.
Qed.

Lemma weight_nonneg cs : (0 <= weight cs)%Z.
Proof.
  induction cs as [|c r IH]; simpl; [lia|]. destruct (amount c); lia.
Qed.

Lemma fold_amounts k rows : forall a v,
  amounts (map (fun row => cell row k) rows) = Some v ->
  (Z.abs a + weight (map (fun row => cell row k) rows) <= 2 ^ 53)%Z ->
  fold_left (fun sum row => js_add host sum (js_or (of_cell (cell row k)) (vint 0)))
            rows (vint a)
  = vint (a + v).
Proof.
  induction rows as [|row r IH]; intros a v H Hb; simpl in *.
  - inversion H. now rewrite Z.add_0_r.
  - destruct (amount (cell row k)) as [z|] eqn:Hz; [|discriminate].
    destruct (amounts (map (fun row => cell row k) r)) as [t|] eqn:Ht; [|discriminate].
    inversion H. subst.
    pose proof (weight_nonneg (map (fun row => cell row k) r)) as Hw.
    rewrite (add_amount a _ z Hz) by lia. rewrite (IH _ t eq_refl) by lia.
    f_equal. lia.
Qed.

(** One turn of the same [reduce] once the total is a string. *)
Lemma add_to_string s c :
  js_add host (VStr s) (js_or (of_cell c) (vint 0)) = VStr (s ++ appended host c).
Proof.
  unfold appended, js_add. simpl (ToPrimitive host (VStr s)).
  assert (ToPrimitive host (js_or (of_cell c) (vint 0)) = js_or (of_cell c) (vint 0)) as ->.
  { destruct c as [| |[|]|n|t]; try reflexivity.
    - unfold js_or. now destruct (truthy (of_cell (CNum n))).
    - unfold js_or. now destruct (truthy (of_cell (CStr t))). }
  reflexivity.
Qed.

Lemma fold_string k rows : forall s,
  fold_left (fun sum row => js_add host sum (js_or (of_cell (cell row k)) (vint 0)))
            rows (VStr s)
  = VStr (s ++ texts host (map (fun row => cell row k) rows)).
Proof.
  induction rows as [|row r IH]; intros s; simpl.
  - f_equal. induction s as [|x s IHs]; simpl; auto. now rewrite <- IHs.
  - rewrite add_to_string, IH. now rewrite ClientFacts.append_assoc.
Qed.

(** A text in the field turns the total into a string for good: the
    total so far is printed, and every later value is appended. *)
Lemma fold_text k pre row post s v :
  amounts (map (fun r => cell r k) pre) = Some v ->
  (weight (map (fun r => cell r k) pre) <= 2 ^ 53)%Z ->
  cell row k = CStr s -> s <> "" ->
  fold_left (fun sum row => js_add host sum (js_or (of_cell (cell row k)) (vint 0)))
            (pre ++ row :: post) (vint 0)
  = VStr (ToString host (vint v) ++ s
          ++ texts host (map (fun r => cell r k) post)).
Proof.
  intros Hv Hw Hc Hs. rewrite fold_left_app.
  rewrite (fold_amounts k pre 0 v Hv) by (simpl; lia).
  change (0 + v)%Z with v. simpl fold_left. rewrite Hc.
  assert (js_or (of_cell (CStr s)) (vint 0) = VStr s) as ->.
  { unfold js_or. simpl. destruct (String.eqb_spec s ""); [contradiction | reflexivity]. }
  assert (js_add host (vint v) (VStr s) = VStr (ToString host (vint v) ++ s)) as ->
    by reflexivity.
  rewrite fold_string. now rewrite ClientFacts.append_assoc.
Qed.

(** ** Averages *)

Lemma add_number n c :
  is_text c = false ->
  js_add host (VNum n) (of_cell c) = VNum (num_add n (cell_number c)).
Proof. destruct c as [| |[|]|z|s]; simpl; intros H; try discriminate; reflexivity. Qed.

Lemma fold_NaN k posts :
  (forall p, In p posts -> is_text (cell p k) = false) ->
  fold_left (fun sum post => js_add host sum (of_cell (cell post k))) posts (VNum NaN)
  = VNum NaN.
Proof.
  induction posts as [|p r IH]; intros H; simpl; auto.
  rewrite add_number by (apply H; now left). rewrite num_add_NaN_l.
  apply IH. intros q Hq. apply H. now right.
Qed.

(** One missing field among fields that are not text makes the total
    [NaN]. *)
Lemma fold_poisoned k posts : forall n,
  (exists p, In p posts /\ cell p k = CUndef) ->
  (forall p, In p posts -> is_text (cell p k) = false) ->
  fold_left (fun sum post => js_add host sum (of_cell (cell post k))) posts (VNum n)
  = VNum NaN.
Proof.
  induction posts as [|p r IH]; intros n [q [Hq Hc]] Ht; [contradiction|].
  simpl. rewrite add_number by (apply Ht; now left).
  destruct Hq as [-> | Hq].
  - rewrite Hc. simpl cell_number. rewrite num_add_NaN_r.
    apply fold_NaN. intros x Hx. apply Ht. now right.
  - apply IH.
    + exists q. now split.
    + intros x Hx. apply Ht. now right.
Qed.

Lemma average_poisoned rows type k :
  (exists p, In p (posts_of rows type) /\ cell p k = CUndef) ->
  (forall p, In p (posts_of rows type) -> is_text (cell p k) = false) ->
  Math_round (js_div host (total host k (posts_of rows type))
                     (vnat (List.length (posts_of rows type)))) = NaN.
Proof.
  intros He Ht. unfold total, vint.
  now rewrite (fold_poisoned k _ (num_of_Z 0) He Ht).
Qed.

(** ** Order of the distribution *)

Lemma first_seen_snoc ks k :
  first_seen (ks ++ [k]) =
  if existsb (String.eqb k) (first_seen ks) then first_seen ks
  else (first_seen ks ++ [k])%list.
Proof. unfold first_seen. now rewrite fold_left_app. Qed.

Lemma existsb_eqb_In k ks : existsb (String.eqb k) ks = true <-> In k ks.
Proof.
  rewrite existsb_exists. split.
  - intros [x [Hx He]]. apply String.eqb_eq in He. now subst.
  - intros H. exists k. split; auto. apply String.eqb_refl.
Qed.

(** The own keys of [postTypeCounts] are the category keys in the order
    of their first appearance. *)
Lemma postTypeCounts_keys rows :
  plain_keys host rows = true ->
  map fst (postTypeCounts host rows) = first_seen (map (category_key host) rows).
Proof.
  induction rows as [|row l IH] using rev_ind; intros Hplain.
  - reflexivity.
  - rewrite plain_keys_app in Hplain. apply andb_true_iff in Hplain.
    destruct Hplain as [Hl Hrow]. specialize (IH Hl).
    simpl in Hrow. rewrite andb_true_r in Hrow. apply negb_true_iff in Hrow.
    destruct (inherited_key_false _ Hrow) as [_ Hne].
    rewrite postTypeCounts_snoc, map_app.
    change (map (category_key host) [row]) with [category_key host row].
    rewrite first_seen_snoc.
    unfold count_row, obj_assign. fold (category_key host row). rewrite Hne.
    rewrite keys_put, <- IH.
    destruct (own (category_key host row) (postTypeCounts host l)) as [v|] eqn:E.
    + apply own_In in E.
      assert (In (category_key host row) (map fst (postTypeCounts host l))) as Hin.
      { change (category_key host row) with (fst (category_key host row, v)).
        now apply in_map. }
      apply existsb_eqb_In in Hin. now rewrite Hin.
    + apply own_None in E.
      destruct (existsb (String.eqb (category_key host row))
                        (map fst (postTypeCounts host l))) eqn:Hex; auto.
      apply existsb_eqb_In in Hex. contradiction.
Qed.

Lemma first_seen_In ks k : In k (first_seen ks) <-> In k ks.
Proof.
  induction ks as [|k0 l IH] using rev_ind.
  - simpl. tauto.
  - rewrite first_seen_snoc, in_app_iff. simpl.
    destruct (existsb (String.eqb k0) (first_seen l)) eqn:E.
    + apply existsb_eqb_In in E. rewrite IH. split; [tauto|].
      intros [H | [H | []]]; auto. subst. now apply IH.
    + rewrite in_app_iff, IH. simpl. tauto.
Qed.

End Totals.

(** Without array indices among its keys an object is listed in
    creation order. *)
Lemma Object_entries_named {V : Type} (o : list (string * V)) :
  (forall kv, In kv o -> array_index (fst kv) = None) ->
  Object_entries o = o.
Proof.
  intros H. unfold Object_entries.
  assert (index_props o = [] /\ named_props o = o) as [Hi Hn].
  { unfold named_props. induction o as [|[k v] r IH]; simpl; auto.
    pose proof (H (k, v) (or_introl eq_refl)) as Hk. simpl in Hk. rewrite Hk.
    destruct IH as [IH1 IH2]; [intros kv Hkv; apply H; now right|].
    now rewrite IH1, IH2. }
  now rewrite Hi, Hn.
Qed.

(** ** The headers of the grid *)




End ViewFacts.

Module ViewProperties.
Import LangflowClient Dashboard Spec Terms Fixtures Samples.
Import JsFacts NumFacts DashboardFacts DistributionFacts AverageFacts ViewFacts.

(** ** getStats *)



(** Beyond that size the total is rounded: three [Views] of [2^53 - 1]
    add up to 27021597764222972, one less than their sum. *)
Example getStats_rounded_total :
  Stats.totalViews
    (getStats demo_host
       [ [("Views", CNum 9007199254740991)]; [("Views", CNum 9007199254740991)];
         [("Views", CNum 9007199254740991)] ])
  = vint 27021597764222972.
Proof. vm_compute. reflexivity. Qed.

(** The first row that holds a non-empty text in [Views] turns
    [totalViews] into a string for good: the text of the total so far,
    then that text, then the text of each later value as [|| 0] leaves
    it (a missing or empty field gives "0"). *)
Theorem getStats_text_total (host : Host) (pre post : list Row) (row : Row)
        (s : string) (v : Z) :
  amounts (map (fun r => cell r "Views") pre) = Some v ->
  (weight (map (fun r => cell r "Views") pre) <= 2 ^ 53)%Z ->
  cell row "Views" = CStr s -> s <> "" ->
  Stats.totalViews (getStats host (pre ++ row :: post))
  = VStr (ToString host (vint v) ++ s
          ++ texts host (map (fun r => cell r "Views") post)).
Proof. intros Hv Hw Hc Hs. unfold getStats. simpl. now apply fold_text. Qed.

Lemma getStats_text_total_witness :
  amounts (map (fun r => cell r "Views") [ [("Views", CNum 10)] ]) = Some 10%Z
  /\ (weight (map (fun r => cell r "Views") [ [("Views", CNum 10)] ]) <= 2 ^ 53)%Z
  /\ cell [("Views", CStr "n/a")] "Views" = CStr "n/a"
  /\ "n/a" <> ""
  /\ Stats.totalViews (getStats demo_host noted) = VStr "10n/a50true".
Proof.
  assert (weight (map (fun r => cell r "Views") [ [("Views", CNum 10)] ]) <= 2 ^ 53)%Z
    as Hw by (vm_compute; discriminate).
  assert ("n/a" <> "") as Hs by discriminate.
  split; [reflexivity|]. split; [exact Hw|]. split; [reflexivity|]. split; [exact Hs|].
  exact (getStats_text_total demo_host [ [("Views", CNum 10)] ]
           [ [("Views", CNum 5)]; [("Views", CNull)]; [("Views", CBool true)] ]
           [("Views", CStr "n/a")] "n/a" 10 eq_refl Hw eq_refl Hs).
Defined.

(** The pie never has more slices than [getStats] counts post types,
    and the bar chart has exactly as many groups: types that differ as
    values but convert to the same key (an empty field and the text
    "null") share one slice. *)
Theorem uniqueTypes_bounds (host : Host) (rows : list Row) :
  List.length (getPostTypeStats host rows) <= Stats.uniqueTypes (getStats host rows)
  /\ List.length (getAverageEngagement host rows) = Stats.uniqueTypes (getStats host rows).
Proof.
  split.
  - unfold getStats, getPostTypeStats. simpl. rewrite length_map.
    rewrite <- (length_map fst).
    rewrite <- (length_map (ToPropertyKey host)
                  (new_Set (map (fun row => cell row "Post_Type") rows))).
    apply NoDup_incl_length.
    + eapply Permutation_NoDup; [|apply (postTypeCounts_distinct host rows)].
      apply Permutation_map, Permutation_sym, Object_entries_perm.
    + intros k Hk.
      assert (In k (map fst (postTypeCounts host rows))) as Hk'.
      { eapply Permutation_in; [|exact Hk].
        apply Permutation_map, Object_entries_perm. }
      apply postTypeCounts_from_rows in Hk'. destruct Hk' as [Hk' _].
      apply (proj1 (in_map_iff _ _ _)) in Hk'. destruct Hk' as [row [Hkey Hrow]].
      subst k. unfold category_key. apply in_map. apply new_Set_In.
      apply (in_map (fun r => cell r "Post_Type")). exact Hrow.
  - unfold getAverageEngagement, getStats. simpl. apply length_map.
Qed.

(** An empty field and the text "null": two types, one slice. *)
Example uniqueTypes_shared_slice :
  List.length (getPostTypeStats demo_host null_and_text) = 1
  /\ Stats.uniqueTypes (getStats demo_host null_and_text) = 2.
Proof. split; reflexivity. Qed.

(** ** getAverageEngagement *)

(** [getAverageEngagement] emits every category of the rows, each once. *)
Theorem getAverageEngagement_categories (host : Host) (rows : list Row) :
  NoDup (map AverageEngagement.name (getAverageEngagement host rows))
  /\ (forall row, In row rows ->
        In (cell row "Post_Type")
           (map AverageEngagement.name (getAverageEngagement host rows)))
  /\ (forall type, In type (map AverageEngagement.name (getAverageEngagement host rows)) ->
        exists row, In row rows /\ cell row "Post_Type" = type).
Proof.
  destruct (average_names host rows) as [Hnd Hcover]. split; [exact Hnd|].
  split; [exact Hcover|].
  intros type Hin. unfold getAverageEngagement in Hin.
  rewrite map_map in Hin. simpl in Hin. rewrite map_id in Hin.
  destruct (posts_of_inhabited rows type Hin) as [row [Hrow [Hc _]]]. eauto.
Qed.



(** Beyond that size the quotient is rounded before [Math.round] sees
    it: the mean of 4503599627370497 and 4503599627370496 lies half-way,
    and the emitted value is the lower integer. *)
Example average_rounded_sum :
  map AverageEngagement.shares
    (getAverageEngagement demo_host
       [ shared "video" 1 4503599627370497; shared "video" 1 4503599627370496 ])
  = [ num_of_Z 4503599627370496 ].
Proof. vm_compute. reflexivity. Qed.

(** If one row of a category lacks [Likes] (the column is absent from
    the record) and no row of the category holds a text there, the
    emitted [likes] is [NaN], whatever the other rows hold; likewise
    [shares] for [Shares]. *)
Theorem average_missing_field (host : Host) (rows : list Row) (e : AverageEngagement.t) :
  In e (getAverageEngagement host rows) ->
  let posts := posts_of rows (AverageEngagement.name e) in
  ((exists p, In p posts /\ cell p "Likes" = CUndef) ->
   (forall p, In p posts -> is_text (cell p "Likes") = false) ->
   AverageEngagement.likes e = NaN)
  /\ ((exists p, In p posts /\ cell p "Shares" = CUndef) ->
      (forall p, In p posts -> is_text (cell p "Shares") = false) ->
      AverageEngagement.shares e = NaN).
Proof.
  intros He posts.
  unfold getAverageEngagement in He. apply (proj1 (in_map_iff _ _ _)) in He.
  destruct He as [type [He _]]. subst e. simpl in posts.
  split; intros Hmiss Htext; simpl; now apply average_poisoned.
Qed.

Lemma average_missing_field_witness :
  let e := {| AverageEngagement.name := CStr "video";
              AverageEngagement.likes := NaN;
              AverageEngagement.shares := NaN |} in
  In e (getAverageEngagement demo_host partial)
  /\ (exists p, In p (posts_of partial (CStr "video")) /\ cell p "Likes" = CUndef)
  /\ (forall p, In p (posts_of partial (CStr "video")) -> is_text (cell p "Likes") = false)
  /\ AverageEngagement.likes e = NaN.
Proof.
  intros e.
  assert (In e (getAverageEngagement demo_host partial)) as Hin by now left.
  assert (exists p, In p (posts_of partial (CStr "video")) /\ cell p "Likes" = CUndef) as Hm.
  { exists [("Post_Type", CStr "video")]. split; [right; now left | reflexivity]. }
  assert (forall p, In p (posts_of partial (CStr "video")) ->
                    is_text (cell p "Likes") = false) as Ht.
  { intros p [<- | [<- | []]]; reflexivity. }
  split; [exact Hin|]. split; [exact Hm|]. split; [exact Ht|].
  destruct (average_missing_field demo_host partial e Hin) as [H _].
  exact (H Hm Ht).
Defined.

(** ** getPostTypeStats *)

(** When no category key is an array index (nor an inherited name), the
    slices come in the order in which the categories first appear in the
    rows. *)
Theorem getPostTypeStats_order (host : Host) (rows : list Row) :
  plain_keys host rows = true ->
  named_keys host rows = true ->
  map PostTypeStat.name (getPostTypeStats host rows)
  = first_seen (map (category_key host) rows).
Proof.
  intros Hplain Hnamed. unfold getPostTypeStats.
  rewrite Object_entries_named.
  - rewrite map_map. simpl. now apply postTypeCounts_keys.
  - intros [k v] Hin. simpl.
    assert (In k (map fst (postTypeCounts host rows))) as Hk.
    { change k with (fst (k, v)). now apply in_map. }
    rewrite postTypeCounts_keys in Hk by assumption.
    apply (proj1 (first_seen_In _ _)) in Hk. apply (proj1 (in_map_iff _ _ _)) in Hk.
    destruct Hk as [row [Hkey Hrow]]. subst k.
    unfold named_keys in Hnamed. rewrite forallb_forall in Hnamed.
    specialize (Hnamed row Hrow).
    now destruct (array_index (category_key host row)).
Qed.

Lemma getPostTypeStats_order_witness :
  plain_keys demo_host sample_rows = true
  /\ named_keys demo_host sample_rows = true
  /\ map PostTypeStat.name (getPostTypeStats demo_host sample_rows) = ["video"; "image"].
Proof.
  split; [reflexivity|]. split; [reflexivity|].
  now rewrite (getPostTypeStats_order demo_host sample_rows eq_refl eq_refl).
Defined.

(** Numeric categories do not keep their place: they come first, in
    ascending order. *)
Example getPostTypeStats_numbered :
  map PostTypeStat.name (getPostTypeStats demo_host numbered) = ["2"; "10"; "video"].
Proof. reflexivity. Qed.

End ViewProperties.

Module GridProperties.
Import LangflowClient Dashboard Spec Terms Fixtures Samples.
Import JsFacts RowFacts ViewFacts.

(** ** The rows of the grid *)

(** [dataRow] keeps every field of the record; its [id] is the record's
    own [id] column when it has one (the spread overwrites the generated
    one), else the record's [Post_Id] when that is truthy, else the
    index plus one. *)
Theorem dataRow_fields (row : Row) (index : nat) :
  well_formed row ->
  (forall k, k <> "id" -> cell (dataRow row index) k = cell row k)
  /\ cell (dataRow row index) "id"
     = match own "id" row with
       | Some v => v
       | None => if truthy (of_cell (cell row "Post_Id")) then cell row "Post_Id"
                 else CNum (Z.of_nat index + 1)
       end.
Proof.
  intros Hwf. split.
  - intros k Hk. unfold cell. rewrite own_dataRow by assumption.
    destruct (own k row); [reflexivity|].
    destruct (String.eqb_spec k "id"); [contradiction | reflexivity].
  - unfold cell at 1. rewrite own_dataRow by assumption.
    now destruct (own "id" row).
Qed.

Lemma dataRow_fields_witness :
  well_formed with_id
  /\ cell (dataRow with_id 0) "Post_Type" = CStr "video"
  /\ cell (dataRow with_id 0) "id" = CStr "a7".
Proof.
  assert (well_formed with_id) as Hwf.
  { unfold well_formed. simpl.
    repeat constructor; simpl; intuition discriminate. }
  split; [exact Hwf|].
  destruct (dataRow_fields with_id 0 Hwf) as [Hk Hid].
  split; [now rewrite Hk by discriminate | now rewrite Hid].
Defined.

(** A [Post_Id] of 0 is falsy, so the row gets its index plus one. *)
Example dataRow_zero_Post_Id :
  cell (dataRow [("Post_Id", CNum 0); ("Views", CNum 3)] 4) "id" = CNum 5
  /\ cell (dataRow with_post_id 4) "id" = CNum 12.
Proof. split; reflexivity. Qed.

(** When the parsed records bring no id of their own, the rows that
    [complete] stores are numbered 1, 2, ... in their order: a record
    dropped by the filter uses no number. *)
Theorem complete_numbers_rows (st : DashState) (results : ParseResults) :
  errors results = [] ->
  filter valid (data results) <> [] ->
  Forall unnumbered (data results) ->
  forall i row,
    nth_error (rows (snd (complete results st))) i = Some row ->
    cell row "id" = CNum (Z.of_nat i + 1).
Proof.
  intros He Hv Hall i row Hnth.
  destruct (LoadSpec.complete_rows st results He Hv) as [Hrows _].
  rewrite Hrows, nth_error_mapi, nth_error_map in Hnth. simpl in Hnth.
  destruct (nth_error (filter valid (data results)) i) as [d|] eqn:Hd;
    [|discriminate].
  simpl in Hnth. injection Hnth as <-.
  apply nth_error_In in Hd. apply filter_In in Hd. destruct Hd as [Hd _].
  rewrite Forall_forall in Hall.
  destruct (Hall d Hd) as [r [-> [Hwf [Hid Hpost]]]]. simpl.
  unfold cell at 1. rewrite own_dataRow by assumption.
  rewrite Hid, Hpost. reflexivity.
Qed.


(** [loadData] clears the loading flag when the fetch fails, when the
    parser fails, and when rows are stored; when the parser completes
    with errors or without any record to keep, it sets the error and
    leaves the flag as it was. A failing parser sets its own message and
    keeps the rows. *)
Theorem loadData_loading_flag (env : Env) (fetch : string -> FetchOutcome)
        (Papa_parse : string -> ParseConfig -> ParseOutcome) (st : DashState) :
  let st' := snd (loadData env fetch Papa_parse st) in
  (forall m, fetch (csvPath env) = Rejected m -> loading st' = false)
  /\ (forall r, fetch (csvPath env) = Responded r -> ok r = false ->
        loading st' = false)
  /\ (forall r err, fetch (csvPath env) = Responded r -> ok r = true ->
        Papa_parse (text r) parse_options = Failed err ->
        loading st' = false /\ error st' = Some "Error parsing CSV file"
        /\ rows st' = rows st)
  /\ (forall r results, fetch (csvPath env) = Responded r -> ok r = true ->
        Papa_parse (text r) parse_options = Complete results ->
        (errors results <> [] \/ filter valid (data results) = [] ->
           loading st' = loading st /\ error st' <> None)
        /\ (errors results = [] -> filter valid (data results) <> [] ->
              loading st' = false)).
Proof.
  intros st'. split; [|split; [|split]].
  - intros m Hf. unfold st'. now rewrite (LoadSpec.loadData_rejected _ _ _ _ m Hf).
  - intros r Hf Hok. unfold st'.
    now rewrite (LoadSpec.loadData_not_ok _ _ _ _ r Hf Hok).
  - intros r err Hf Hok Hp. unfold st', loadData, try_catch, bind.
    rewrite Hf. simpl. rewrite Hok. simpl. rewrite Hp. repeat split.
  - intros r results Hf Hok Hp. unfold st'.
    rewrite (LoadSpec.loadData_complete _ _ _ _ r results Hf Hok Hp). split.
    + intros Hnone.
      destruct (errors results) as [|e l] eqn:He.
      * destruct Hnone as [Hnone | Hnone]; [congruence|].
        rewrite (LoadSpec.complete_empty st results He Hnone). simpl.
        split; [reflexivity | discriminate].
      * rewrite (LoadSpec.complete_errors st results); [|rewrite He; discriminate].
        simpl. split; [reflexivity | discriminate].
    + intros He Hv. now destruct (LoadSpec.complete_rows st results He Hv) as [_ [_ Hl]].
Qed.

Lemma complete_numbers_rows_witness :
  errors two_records = []
  /\ filter valid (data two_records) <> []
  /\ Forall unnumbered (data two_records)
  /\ nth_error (rows (snd (complete two_records initial))) 1
     = Some (dataRow (csv_post "image" 50 5) 1)
  /\ cell (dataRow (csv_post "image" 50 5) 1) "id" = CNum 2.
Proof.
  assert (forall t v l, unnumbered (DRow (csv_post t v l))) as Hun.
  { intros t v l. exists (csv_post t v l). split; [reflexivity|].
    split; [|split; reflexivity].
    unfold well_formed. simpl. repeat constructor; simpl; intuition discriminate. }
  assert (Forall unnumbered (data two_records)) as Hall
    by (repeat constructor; apply Hun).
  assert (filter valid (data two_records) <> []) as Hv by discriminate.
  split; [reflexivity|]. split; [exact Hv|]. split; [exact Hall|].
  split; [reflexivity|].
  exact (complete_numbers_rows initial two_records eq_refl Hv Hall 1
           (dataRow (csv_post "image" 50 5) 1) eq_refl).
Defined.


Lemma loadData_loading_flag_witness :
  ok (http_200 "csv") = true
  /\ (errors {| data := []; errors := [] |} <> []
      \/ filter valid (data {| data := []; errors := [] |}) = [])
  /\ loading (snd (loadData demo_env (fun _ => Responded (http_200 "csv"))
                     (fun _ _ => Complete {| data := []; errors := [] |})
                     initial)) = true.
Proof.
  split; [reflexivity|].
  assert (errors {| data := []; errors := [] |} <> []
          \/ filter valid (data {| data := []; errors := [] |}) = []) as Hnone
    by (right; reflexivity).
  split; [exact Hnone|].
  destruct (loadData_loading_flag demo_env (fun _ => Responded (http_200 "csv"))
              (fun _ _ => Complete {| data := []; errors := [] |}) initial)
    as [_ [_ [_ H]]].
  destruct (H (http_200 "csv") {| data := []; errors := [] |}
              eq_refl eq_refl eq_refl) as [H1 _].
  destruct (H1 Hnone) as [Hl _]. exact Hl.
Defined.

(** ** The colours of the pie *)

(** Every slice gets one of the five colours, and the colours repeat
    with period five: slice [index + 5] has the colour of slice
    [index]. *)
Theorem fill_cycles (index : nat) :
  (exists colour, Palette.fill index = Some colour /\ In colour Palette.COLORS)
  /\ Palette.fill (index + 5) = Palette.fill index.
Proof.
  split.
  - unfold Palette.fill.
    assert (index mod List.length Palette.COLORS < List.length Palette.COLORS) as Hlt
      by (apply Nat.mod_upper_bound; discriminate).
    destruct (nth_error Palette.COLORS (index mod List.length Palette.COLORS))
      as [c|] eqn:E.
    + exists c. split; [reflexivity|]. eapply nth_error_In; eauto.
    + apply nth_error_None in E. lia.
  - unfold Palette.fill. f_equal. change (List.length Palette.COLORS) with 5.
    replace (index + 5) with (index + 1 * 5) by lia.
    now rewrite Nat.Div0.mod_add.
Qed.

End GridProperties.
